(** * crud-alunos: the student store and its client, verified

    The repository has three sources:
    - the migration (tables [profiles] and [alunos], their constraints,
      row-level security policies and triggers);
    - [AlunoForm.tsx] (the schema [alunoSchema] and [handleSubmit]);
    - [Dashboard.tsx] ([fetchAlunos] and [handleDelete]).

    The store is embedded as a state ([database]) with one function per
    statement the client can issue; every function runs the checks PostgreSQL
    runs for the values of the payload and for the declarations of the
    migration, in PostgreSQL's order, and answers with the new state or with
    the error raised.  The client handlers are embedded as functions from the
    store state to a trace of the effects they perform (toasts, store
    requests, callbacks) and the next state.

    Three things the sources take from elsewhere are parameters: the pattern
    of the validation library's email check, the library's default messages,
    and how far the server compresses a text for an index. *)

From Stdlib Require Import ZArith NArith List String Ascii Bool Lia.
From Stdlib Require Import DecimalString.
From Stdlib Require Import Sorted Permutation DecimalPos DecimalZ.
Import ListNotations.

Local Open Scope string_scope.
Local Open Scope list_scope.
Local Open Scope Z_scope.

(** ** Values *)

(** A JavaScript string, and a TEXT value of the store: a sequence of UTF-16
    code units.  [length] is JavaScript's [.length]. *)
Definition code_unit := N.
Definition text := list code_unit.

Definition text_eq_dec : forall a b : text, {a = b} + {a <> b} :=
  list_eq_dec N.eq_dec.

(** Literal of an ASCII string. *)
Definition js (s : string) : text :=
  List.map N_of_ascii (list_ascii_of_string s).

(** A UUID in its text form (the client handles ids as strings). *)
Definition uuid := string.

(** TIMESTAMP WITH TIME ZONE: an instant on the store's clock. *)
Definition timestamptz := Z.

(** Messages shown to the user and error texts are ASCII or UTF-8 literals. *)
Definition dquote : string := String (ascii_of_nat 34) EmptyString.
Definition quoted (s : string) : string := (dquote ++ s ++ dquote)%string.

(** [String.prototype.includes]. *)
Fixpoint includes (s sub : string) : bool :=
  String.prefix sub s ||
  match s with
  | EmptyString => false
  | String _ s' => includes s' sub
  end.

(** ** Tables of the migration *)

(** A JSON value of [raw_user_meta_data], as far as [->>] tells values apart:
    a string yields its contents, JSON null yields NULL and any other value
    (number, boolean, array, object) yields its JSON text. *)
Inductive jsonb_value :=
| JNull
| JString (s : text)
| JOther (json_text : text).

(** A row of [auth.users], the identity provider's table: the columns
    [handle_new_user] reads.  [email] and [raw_user_meta_data] are nullable;
    the metadata is a JSON object. *)
Record auth_user := {
  user_id : uuid;
  user_email : option text;
  raw_user_meta_data : option (list (text * jsonb_value))
}.

(** [public.profiles]. *)
Record profile := {
  profile_id : uuid;
  profile_nome : text;
  profile_email : text;
  profile_created_at : timestamptz;
  profile_updated_at : timestamptz
}.

(** [public.alunos]. *)
Record aluno := {
  aluno_id : uuid;
  nome : text;
  email : text;
  matricula : text;
  idade : Z;
  criado_por : uuid;
  created_at : timestamptz;
  updated_at : timestamptz
}.

Record database := {
  auth_users : list auth_user;
  profiles : list profile;
  alunos : list aluno
}.

(** The store right after the migration: the tables exist and are empty. *)
Definition empty_database : database :=
  {| auth_users := []; profiles := []; alunos := [] |}.

(** ** Errors of the store *)

Inductive constraint_name :=
| users_pkey
| profiles_pkey
| profiles_email_key
| profiles_id_fkey
| alunos_pkey
| alunos_email_key
| alunos_matricula_key
| alunos_idade_check
| alunos_criado_por_fkey.

Definition constraint_text (c : constraint_name) : string :=
  match c with
  | users_pkey => "users_pkey"
  | profiles_pkey => "profiles_pkey"
  | profiles_email_key => "profiles_email_key"
  | profiles_id_fkey => "profiles_id_fkey"
  | alunos_pkey => "alunos_pkey"
  | alunos_email_key => "alunos_email_key"
  | alunos_matricula_key => "alunos_matricula_key"
  | alunos_idade_check => "alunos_idade_check"
  | alunos_criado_por_fkey => "alunos_criado_por_fkey"
  end.

Inductive table_name := tbl_users | tbl_profiles | tbl_alunos.

(** The one column a statement of this model can leave NULL. *)
Inductive column_name := col_email.

Definition column_text (c : column_name) : string :=
  match c with
  | col_email => "email"
  end.

Definition table_text (t : table_name) : string :=
  match t with
  | tbl_users => "users"
  | tbl_profiles => "profiles"
  | tbl_alunos => "alunos"
  end.

(** The errors PostgreSQL raises for the declarations of the migration and
    for the values of a payload, by SQLSTATE. *)
Inductive pg_error :=
| numeric_value_out_of_range (v : Z)                         (* 22003 *)
| invalid_text_representation                                (* 22P02 *)
| untranslatable_character                                   (* 22P05 *)
| not_null_violation (c : column_name) (t : table_name)      (* 23502 *)
| foreign_key_violation (t : table_name) (c : constraint_name) (* 23503 *)
| unique_violation (c : constraint_name)                     (* 23505 *)
| check_violation (t : table_name) (c : constraint_name)     (* 23514 *)
| insufficient_privilege (t : table_name)                    (* 42501 *)
| program_limit_exceeded (size : Z) (c : constraint_name).   (* 54000 *)

(** The [message] field of the error the client receives. *)
Definition message (e : pg_error) : string :=
  (match e with
  | numeric_value_out_of_range v =>
      "value " ++ quoted (NilEmpty.string_of_int (Z.to_int v)) ++
      " is out of range for type integer"
  | invalid_text_representation => "invalid input syntax for type json"
  | untranslatable_character => "unsupported Unicode escape sequence"
  | not_null_violation c t =>
      "null value in column " ++ quoted (column_text c) ++ " of relation " ++
      quoted (table_text t) ++ " violates not-null constraint"
  | foreign_key_violation t c =>
      "insert or update on table " ++ quoted (table_text t) ++
      " violates foreign key constraint " ++ quoted (constraint_text c)
  | unique_violation c =>
      "duplicate key value violates unique constraint " ++
      quoted (constraint_text c)
  | check_violation t c =>
      "new row for relation " ++ quoted (table_text t) ++
      " violates check constraint " ++ quoted (constraint_text c)
  | insufficient_privilege t =>
      "new row violates row-level security policy for table " ++
      quoted (table_text t)
  | program_limit_exceeded size c =>
      "index row size " ++ NilEmpty.string_of_int (Z.to_int size) ++
      " exceeds btree version 4 maximum 2704 for index " ++
      quoted (constraint_text c)
  end)%string.

(** The answer of the store to a statement: the state it leaves, or the error
    that aborted the statement (the state is then the one before it). *)
Inductive response (A : Type) :=
| Ok (a : A)
| Error (e : pg_error).
Arguments Ok {A} a.
Arguments Error {A} e.

Definition bind {A B} (r : response A) (k : A -> response B) : response B :=
  match r with
  | Ok a => k a
  | Error e => Error e
  end.

(** [guard b e]: the statement goes on when the check [b] passes and aborts
    with [e] otherwise. *)
Definition guard (b : bool) (e : pg_error) : response unit :=
  if b then Ok tt else Error e.

Notation "'check' b 'otherwise' e ;; k" :=
  (bind (guard b e) (fun _ => k))
  (at level 10, b at level 99, e at level 99, k at level 200, only parsing).

Definition state_after (d : database) (r : response database) : database :=
  match r with
  | Ok d' => d'
  | Error _ => d
  end.

(** ** Column types, constraints and policies of [alunos] *)

(** INTEGER is a 32-bit signed integer. *)
Definition int4 (v : Z) : bool := (- 2 ^ 31 <=? v) && (v <? 2 ^ 31).

(** [CHECK (idade > 0 AND idade < 150)]. *)
Definition idade_check (r : aluno) : bool := (idade r >? 0) && (idade r <? 150).

(** [auth.uid() = criado_por]; [auth.uid()] is NULL for an anonymous request
    and a NULL comparison does not pass a policy. *)
Definition owns (uid : option uuid) (r : aluno) : bool :=
  match uid with
  | Some u => String.eqb u (criado_por r)
  | None => false
  end.

Definition Users_can_view_their_own_students := owns.      (* SELECT, USING *)
Definition Users_can_create_students := owns.              (* INSERT, WITH CHECK *)
Definition Users_can_update_their_own_students := owns.    (* UPDATE, USING *)
Definition Users_can_delete_their_own_students := owns.    (* DELETE, USING *)

Definition has_id (x : uuid) (l : list aluno) : bool :=
  existsb (fun r => String.eqb (aluno_id r) x) l.
Definition has_email (x : text) (l : list aluno) : bool :=
  existsb (fun r => if text_eq_dec (email r) x then true else false) l.
Definition has_matricula (x : text) (l : list aluno) : bool :=
  existsb (fun r => if text_eq_dec (matricula r) x then true else false) l.
Definition has_profile (x : uuid) (l : list profile) : bool :=
  existsb (fun p => String.eqb (profile_id p) x) l.
Definition has_profile_email (x : text) (l : list profile) : bool :=
  existsb (fun p => if text_eq_dec (profile_email p) x then true else false) l.
Definition has_user (x : uuid) (l : list auth_user) : bool :=
  existsb (fun u => String.eqb (user_id u) x) l.

(** The first row that satisfies [f], with the rows before and after it. *)
Fixpoint locate {A} (f : A -> bool) (l : list A) : option (list A * A * list A) :=
  match l with
  | [] => None
  | x :: l' =>
      if f x then Some ([], x, l')
      else match locate f l' with
           | Some (before, y, after) => Some (x :: before, y, after)
           | None => None
           end
  end.

(** ** Text the store can hold *)

(** The client sends a payload as JSON, in which [JSON.stringify] writes a
    surrogate that is not half of a pair as an escape.  The store reads the
    JSON text and refuses the escape of a high surrogate (U+D800 to U+DBFF)
    that no low surrogate (U+DC00 to U+DFFF) follows, and that of a low
    surrogate that follows no high one. *)
Definition is_high_surrogate (c : code_unit) : bool :=
  ((55296 <=? c) && (c <=? 56319))%N.
Definition is_low_surrogate (c : code_unit) : bool :=
  ((56320 <=? c) && (c <=? 57343))%N.

Fixpoint well_formed (s : text) : bool :=
  match s with
  | [] => true
  | c :: s' =>
      if is_high_surrogate c then
        match s' with
        | c' :: s'' => is_low_surrogate c' && well_formed s''
        | [] => false
        end
      else negb (is_low_surrogate c) && well_formed s'
  end.

(** A TEXT value holds no U+0000. *)
Definition has_nul (s : text) : bool := existsb (N.eqb 0) s.

(** A text the store can read from a payload and hold in a TEXT column. *)
Definition storable (s : text) : bool := well_formed s && negb (has_nul s).

(** The length of a text in the store's encoding, UTF-8: a surrogate is half
    of a pair that takes four bytes. *)
Definition utf8_bytes (c : code_unit) : Z :=
  if (c <? 128)%N then 1
  else if (c <? 2048)%N then 2
  else if is_high_surrogate c || is_low_surrogate c then 2
  else 3.

Definition utf8_length (s : text) : Z := fold_right Z.add 0 (map utf8_bytes s).

(** The entry of a text in a B-tree index: a header of 8 bytes, the length
    word of the value (one byte up to 126 bytes of text, four bytes beyond)
    and the bytes of the text, rounded up to a multiple of 8.  An entry of a
    B-tree may take 2704 bytes, a third of a page of 8 kB. *)
Definition MAXALIGN (n : Z) : Z := (n + 7) / 8 * 8.

Definition index_row_size (s : text) : Z :=
  let len := utf8_length s in
  MAXALIGN (8 + (if len <=? 126 then 1 + len else 4 + len)).

Definition BTMaxItemSize : Z := 2704.

(** The server compresses a text before it gives up on an entry that is too
    large as it is.  How small the entry gets depends on the compression
    method of the server, which is no part of the migration: the size of the
    entry after compression is a parameter. *)
Class Server := {
  compressed_row_size : text -> Z
}.

(** A server for the examples, whose compression gains nothing.  The texts
    of the examples are short, and their entries fit as they are. *)
Definition sample_server : Server :=
  {| compressed_row_size := index_row_size |}.

Definition index_row_fits `{Server} (s : text) : bool :=
  (index_row_size s <=? BTMaxItemSize) || (compressed_row_size s <=? BTMaxItemSize).

(** ** Statements on [alunos] *)

(** The payload of an insert: the five columns without a default are given,
    the three with a default ([id], [created_at], [updated_at]) may be. *)
Record aluno_insert := {
  ins_id : option uuid;
  ins_nome : text;
  ins_email : text;
  ins_matricula : text;
  ins_idade : Z;
  ins_criado_por : uuid;
  ins_created_at : option timestamptz;
  ins_updated_at : option timestamptz
}.

Definition default {A} (given : option A) (dflt : A) : A :=
  match given with
  | Some a => a
  | None => dflt
  end.

(** The row an insert proposes: [gen_random_uuid()] and [now()] fill the
    columns the payload leaves out. *)
Definition new_aluno (gen_random_uuid : uuid) (now : timestamptz)
    (p : aluno_insert) : aluno :=
  {| aluno_id := default (ins_id p) gen_random_uuid;
     nome := ins_nome p;
     email := ins_email p;
     matricula := ins_matricula p;
     idade := ins_idade p;
     criado_por := ins_criado_por p;
     created_at := default (ins_created_at p) now;
     updated_at := default (ins_updated_at p) now |}.

(** The texts of the payload of an insert. *)
Definition ins_texts (p : aluno_insert) : list text :=
  [ins_nome p; ins_email p; ins_matricula p].

Definition with_alunos (d : database) (l : list aluno) : database :=
  {| auth_users := auth_users d; profiles := profiles d; alunos := l |}.
Definition with_profiles (d : database) (l : list profile) : database :=
  {| auth_users := auth_users d; profiles := l; alunos := alunos d |}.

(** [update_updated_at_column] is one trigger function attached to both
    tables; it needs of the row only that it has an [updated_at] column. *)
Class Timestamped (row : Type) := {
  with_updated_at : timestamptz -> row -> row
}.

#[export] Instance aluno_timestamped : Timestamped aluno := {
  with_updated_at t r :=
    {| aluno_id := aluno_id r;
       nome := nome r;
       email := email r;
       matricula := matricula r;
       idade := idade r;
       criado_por := criado_por r;
       created_at := created_at r;
       updated_at := t |}
}.

#[export] Instance profile_timestamped : Timestamped profile := {
  with_updated_at t r :=
    {| profile_id := profile_id r;
       profile_nome := profile_nome r;
       profile_email := profile_email r;
       profile_created_at := profile_created_at r;
       profile_updated_at := t |}
}.

(** [NEW.updated_at = now(); RETURN NEW]. *)
Definition update_updated_at_column {row} `{Timestamped row}
    (now : timestamptz) (NEW : row) : row :=
  with_updated_at now NEW.

(** The statements run on a server, the same for all that follows. *)
Section Store.

Context {server : Server}.

(** INSERT INTO alunos.  Order of the checks: the texts of the payload are
    read from JSON and the values are read at the types of their columns, the
    policy's WITH CHECK, the CHECK constraint, the unique indexes in the order
    of their creation (an index looks for the value among its entries and
    then makes room for the new entry), the foreign key. *)
Definition insert_aluno (uid : option uuid) (gen_random_uuid : uuid)
    (now : timestamptz) (p : aluno_insert) (d : database) : response database :=
  let NEW := new_aluno gen_random_uuid now p in
  check forallb well_formed (ins_texts p) otherwise invalid_text_representation ;;
  check negb (existsb has_nul (ins_texts p)) otherwise untranslatable_character ;;
  check int4 (idade NEW) otherwise numeric_value_out_of_range (idade NEW) ;;
  check Users_can_create_students uid NEW otherwise insufficient_privilege tbl_alunos ;;
  check idade_check NEW otherwise check_violation tbl_alunos alunos_idade_check ;;
  check negb (has_id (aluno_id NEW) (alunos d)) otherwise unique_violation alunos_pkey ;;
  check negb (has_email (email NEW) (alunos d)) otherwise unique_violation alunos_email_key ;;
  check index_row_fits (email NEW)
    otherwise program_limit_exceeded (compressed_row_size (email NEW)) alunos_email_key ;;
  check negb (has_matricula (matricula NEW) (alunos d))
    otherwise unique_violation alunos_matricula_key ;;
  check index_row_fits (matricula NEW)
    otherwise program_limit_exceeded (compressed_row_size (matricula NEW))
                alunos_matricula_key ;;
  check has_profile (criado_por NEW) (profiles d)
    otherwise foreign_key_violation tbl_alunos alunos_criado_por_fkey ;;
  Ok (with_alunos d (alunos d ++ [NEW])).

(** The payload of an update: any subset of the columns. *)
Record aluno_update := {
  set_id : option uuid;
  set_nome : option text;
  set_email : option text;
  set_matricula : option text;
  set_idade : option Z;
  set_criado_por : option uuid;
  set_created_at : option timestamptz;
  set_updated_at : option timestamptz
}.

Definition apply_update (p : aluno_update) (OLD : aluno) : aluno :=
  {| aluno_id := default (set_id p) (aluno_id OLD);
     nome := default (set_nome p) (nome OLD);
     email := default (set_email p) (email OLD);
     matricula := default (set_matricula p) (matricula OLD);
     idade := default (set_idade p) (idade OLD);
     criado_por := default (set_criado_por p) (criado_por OLD);
     created_at := default (set_created_at p) (created_at OLD);
     updated_at := default (set_updated_at p) (updated_at OLD) |}.

(** The texts of the payload of an update: those of the columns it sets. *)
Definition given {A} (o : option A) : list A :=
  match o with
  | Some a => [a]
  | None => []
  end.

Definition set_texts (p : aluno_update) : list text :=
  given (set_nome p) ++ given (set_email p) ++ given (set_matricula p).

(** The payload of an update can be read: its texts from JSON and its age as
    an INTEGER. *)
Definition readable (p : aluno_update) : bool :=
  forallb storable (set_texts p) && int4 (default (set_idade p) 0).

(** UPDATE alunos SET ... WHERE id = target.  The payload is read as for an
    insert.  The policy's USING clause decides which rows the statement sees;
    the primary key leaves at most one with the id.  The BEFORE UPDATE
    trigger runs on the proposed row, then the policy is checked on it (a
    policy with USING only applies it as WITH CHECK too), then the
    constraints as for an insert, each unique index against the other
    rows. *)
Definition update_aluno (uid : option uuid) (now : timestamptz)
    (p : aluno_update) (target : uuid) (d : database) : response database :=
  check forallb well_formed (set_texts p) otherwise invalid_text_representation ;;
  check negb (existsb has_nul (set_texts p)) otherwise untranslatable_character ;;
  check int4 (default (set_idade p) 0)
    otherwise numeric_value_out_of_range (default (set_idade p) 0) ;;
  match locate (fun r => String.eqb (aluno_id r) target &&
                         Users_can_update_their_own_students uid r) (alunos d) with
  | None => Ok d
  | Some (before, OLD, after) =>
      let NEW := update_updated_at_column now (apply_update p OLD) in
      let others := before ++ after in
      check Users_can_update_their_own_students uid NEW
        otherwise insufficient_privilege tbl_alunos ;;
      check idade_check NEW otherwise check_violation tbl_alunos alunos_idade_check ;;
      check negb (has_id (aluno_id NEW) others) otherwise unique_violation alunos_pkey ;;
      check negb (has_email (email NEW) others) otherwise unique_violation alunos_email_key ;;
      check index_row_fits (email NEW)
        otherwise program_limit_exceeded (compressed_row_size (email NEW))
                    alunos_email_key ;;
      check negb (has_matricula (matricula NEW) others)
        otherwise unique_violation alunos_matricula_key ;;
      check index_row_fits (matricula NEW)
        otherwise program_limit_exceeded (compressed_row_size (matricula NEW))
                    alunos_matricula_key ;;
      check has_profile (criado_por NEW) (profiles d)
        otherwise foreign_key_violation tbl_alunos alunos_criado_por_fkey ;;
      Ok (with_alunos d (before ++ NEW :: after))
  end.

(** DELETE FROM alunos WHERE id = target: the rows the policy lets the
    requester see and that have the id are removed. *)
Definition delete_aluno (uid : option uuid) (target : uuid) (d : database)
    : response database :=
  Ok (with_alunos d
        (filter (fun r => negb (String.eqb (aluno_id r) target &&
                                Users_can_delete_their_own_students uid r))
                (alunos d))).

(** ORDER BY created_at DESC. *)
Fixpoint insert_desc (r : aluno) (l : list aluno) : list aluno :=
  match l with
  | [] => [r]
  | x :: l' =>
      if created_at x <? created_at r then r :: l else x :: insert_desc r l'
  end.

Definition order_by_created_at_desc (l : list aluno) : list aluno :=
  fold_right insert_desc [] l.

(** SELECT * FROM alunos ORDER BY created_at DESC. *)
Definition select_alunos (uid : option uuid) (d : database) : list aluno :=
  order_by_created_at_desc
    (filter (Users_can_view_their_own_students uid) (alunos d)).

(** ** Statements on [profiles] and on identities *)

Definition with_auth_users (d : database) (l : list auth_user) : database :=
  {| auth_users := l; profiles := profiles d; alunos := alunos d |}.

(** The first member with the key of a JSON object. *)
Fixpoint json_field (key : text) (o : list (text * jsonb_value))
    : option jsonb_value :=
  match o with
  | [] => None
  | (k, v) :: o' => if text_eq_dec k key then Some v else json_field key o'
  end.

(** The operator [->>]: the member as text, NULL when the object is NULL, the
    member is missing or it is JSON null. *)
Definition json_get_text (o : option (list (text * jsonb_value))) (key : text)
    : option text :=
  match o with
  | None => None
  | Some fields =>
      match json_field key fields with
      | None => None
      | Some JNull => None
      | Some (JString s) => Some s
      | Some (JOther t) => Some t
      end
  end.

Definition COALESCE (a : option text) (b : text) : text := default a b.

(** [handle_new_user]: the trigger function, run AFTER INSERT ON auth.users
    FOR EACH ROW.  It is SECURITY DEFINER, so its insert runs as the owner of
    [profiles] and no policy applies to it.  [created_at] and [updated_at]
    take their default.  [profiles.email] is NOT NULL. *)
Definition handle_new_user (now : timestamptz) (NEW : auth_user) (d : database)
    : response database :=
  let p_nome := COALESCE (json_get_text (raw_user_meta_data NEW) (js "nome")) [] in
  match user_email NEW with
  | None => Error (not_null_violation col_email tbl_profiles)
  | Some p_email =>
      check negb (has_profile (user_id NEW) (profiles d))
        otherwise unique_violation profiles_pkey ;;
      check negb (has_profile_email p_email (profiles d))
        otherwise unique_violation profiles_email_key ;;
      check has_user (user_id NEW) (auth_users d)
        otherwise foreign_key_violation tbl_profiles profiles_id_fkey ;;
      Ok (with_profiles d
            (profiles d ++
             [{| profile_id := user_id NEW;
                 profile_nome := p_nome;
                 profile_email := p_email;
                 profile_created_at := now;
                 profile_updated_at := now |}]))
  end.

(** INSERT INTO auth.users, by the identity provider, with the trigger
    [on_auth_user_created].  The trigger runs inside the statement: when it
    raises, the statement is aborted and the user row is not kept.  Of the
    provider's own constraints only the primary key [handle_new_user] relies
    on is represented. *)
Definition create_identity (now : timestamptz) (u : auth_user) (d : database)
    : response database :=
  check negb (has_user (user_id u) (auth_users d)) otherwise unique_violation users_pkey ;;
  handle_new_user now u (with_auth_users d (auth_users d ++ [u])).

(** DELETE FROM auth.users WHERE id = u, by the identity provider: ON DELETE
    CASCADE removes the profile, and with it the students it owns. *)
Definition delete_identity (u : uuid) (d : database) : response database :=
  Ok {| auth_users := filter (fun x => negb (String.eqb (user_id x) u)) (auth_users d);
        profiles := filter (fun p => negb (String.eqb (profile_id p) u)) (profiles d);
        alunos := filter (fun r => negb (String.eqb (criado_por r) u)) (alunos d) |}.

(** [auth.uid() = id], the expression of the three policies of [profiles]. *)
Definition is_self (uid : option uuid) (p : profile) : bool :=
  match uid with
  | Some u => String.eqb u (profile_id p)
  | None => false
  end.

Definition Users_can_view_their_own_profile := is_self.    (* SELECT, USING *)
Definition Users_can_update_their_own_profile := is_self.  (* UPDATE, USING *)
Definition Users_can_insert_their_own_profile := is_self.  (* INSERT, WITH CHECK *)

Record profile_insert := {
  pins_id : uuid;
  pins_nome : text;
  pins_email : text;
  pins_created_at : option timestamptz;
  pins_updated_at : option timestamptz
}.

(** INSERT INTO profiles, by a requester. *)
Definition insert_profile (uid : option uuid) (now : timestamptz)
    (p : profile_insert) (d : database) : response database :=
  let NEW := {| profile_id := pins_id p;
                profile_nome := pins_nome p;
                profile_email := pins_email p;
                profile_created_at := default (pins_created_at p) now;
                profile_updated_at := default (pins_updated_at p) now |} in
  check Users_can_insert_their_own_profile uid NEW
    otherwise insufficient_privilege tbl_profiles ;;
  check negb (has_profile (profile_id NEW) (profiles d))
    otherwise unique_violation profiles_pkey ;;
  check negb (has_profile_email (profile_email NEW) (profiles d))
    otherwise unique_violation profiles_email_key ;;
  check has_user (profile_id NEW) (auth_users d)
    otherwise foreign_key_violation tbl_profiles profiles_id_fkey ;;
  Ok (with_profiles d (profiles d ++ [NEW])).

Record profile_update := {
  pset_id : option uuid;
  pset_nome : option text;
  pset_email : option text;
  pset_created_at : option timestamptz;
  pset_updated_at : option timestamptz
}.

Definition apply_profile_update (p : profile_update) (OLD : profile) : profile :=
  {| profile_id := default (pset_id p) (profile_id OLD);
     profile_nome := default (pset_nome p) (profile_nome OLD);
     profile_email := default (pset_email p) (profile_email OLD);
     profile_created_at := default (pset_created_at p) (profile_created_at OLD);
     profile_updated_at := default (pset_updated_at p) (profile_updated_at OLD) |}.

(** UPDATE profiles SET ... WHERE id = target, with the BEFORE UPDATE trigger
    [update_profiles_updated_at].  A changed id must not leave students that
    reference the old one ([alunos.criado_por] has no ON UPDATE action). *)
Definition update_profile (uid : option uuid) (now : timestamptz)
    (p : profile_update) (target : uuid) (d : database) : response database :=
  match locate (fun r => String.eqb (profile_id r) target &&
                         Users_can_update_their_own_profile uid r) (profiles d) with
  | None => Ok d
  | Some (before, OLD, after) =>
      let NEW := update_updated_at_column now (apply_profile_update p OLD) in
      let others := before ++ after in
      check Users_can_update_their_own_profile uid NEW
        otherwise insufficient_privilege tbl_profiles ;;
      check negb (has_profile (profile_id NEW) others)
        otherwise unique_violation profiles_pkey ;;
      check negb (has_profile_email (profile_email NEW) others)
        otherwise unique_violation profiles_email_key ;;
      check has_user (profile_id NEW) (auth_users d)
        otherwise foreign_key_violation tbl_profiles profiles_id_fkey ;;
      check String.eqb (profile_id NEW) (profile_id OLD) ||
            negb (existsb (fun r => String.eqb (criado_por r) (profile_id OLD)) (alunos d))
        otherwise foreign_key_violation tbl_profiles alunos_criado_por_fkey ;;
      Ok (with_profiles d (before ++ NEW :: after))
  end.

(** ** The store as a transition system *)

(** The statements that reach the store: those of the client, and the
    creation and deletion of identities by the identity provider. *)
Inductive request :=
| CreateIdentity (u : auth_user)
| DeleteIdentity (u : uuid)
| InsertProfile (p : profile_insert)
| UpdateProfile (p : profile_update) (target : uuid)
| SelectAlunos
| InsertAluno (p : aluno_insert)
| UpdateAluno (p : aluno_update) (target : uuid)
| DeleteAluno (target : uuid).

(** The environment of a statement: the requester's identity ([auth.uid()]),
    the clock ([now()]) and the value [gen_random_uuid()] draws. *)
Record env := {
  auth_uid : option uuid;
  now : timestamptz;
  gen_random_uuid : uuid
}.

Definition execute (e : env) (q : request) (d : database) : response database :=
  match q with
  | CreateIdentity u => create_identity (now e) u d
  | DeleteIdentity u => delete_identity u d
  | InsertProfile p => insert_profile (auth_uid e) (now e) p d
  | UpdateProfile p target => update_profile (auth_uid e) (now e) p target d
  | SelectAlunos => Ok d
  | InsertAluno p => insert_aluno (auth_uid e) (gen_random_uuid e) (now e) p d
  | UpdateAluno p target => update_aluno (auth_uid e) (now e) p target d
  | DeleteAluno target => delete_aluno (auth_uid e) target d
  end.

(** The states the store can be in: from the empty tables, by any statement
    under any identity, at any time. *)
Inductive reachable : database -> Prop :=
| reachable_empty : reachable empty_database
| reachable_step (d : database) (e : env) (q : request) :
    reachable d -> reachable (state_after d (execute e q d)).

(** ** JavaScript values the client computes with *)

(** WhiteSpace and LineTerminator code units: what [trim] and [parseInt]
    strip. *)
Definition is_white_space (c : code_unit) : bool :=
  (existsb (N.eqb c)
     [9; 10; 11; 12; 13; 32; 160; 5760; 8232; 8233; 8239; 8287; 12288; 65279]
   || ((8192 <=? c) && (c <=? 8202)))%N.

Fixpoint trimStart (s : text) : text :=
  match s with
  | [] => []
  | c :: s' => if is_white_space c then trimStart s' else s
  end.

Definition trimEnd (s : text) : text := rev (trimStart (rev s)).

(** [String.prototype.trim]. *)
Definition trim (s : text) : text := trimEnd (trimStart s).

(** A JavaScript number, as far as [parseInt] produces them: not-a-number, an
    integer, or an infinity.  A finite value is carried exactly; the
    rounding of integers above 2^53 to a double changes none of the
    comparisons made on it here (with 1 and with 150). *)
Inductive number :=
| NaN
| Finite (z : Z)
| Infinity (negative : bool).

(** The least magnitude that rounds to an infinity. *)
Definition overflow_threshold : Z := 2 ^ 1024 - 2 ^ 970.

Definition to_number (z : Z) : number :=
  if Z.abs z <? overflow_threshold then Finite z else Infinity (z <? 0).

(** The value of a code unit as a digit of the radix. *)
Definition digit_value (radix : Z) (c : code_unit) : option Z :=
  let c := Z.of_N c in
  let v := if (48 <=? c) && (c <=? 57) then Some (c - 48)
           else if (97 <=? c) && (c <=? 122) then Some (c - 97 + 10)
           else if (65 <=? c) && (c <=? 90) then Some (c - 65 + 10)
           else None in
  match v with
  | Some x => if x <? radix then Some x else None
  | None => None
  end.

(** The value of the longest prefix of digits; [None] when it is empty. *)
Fixpoint parse_digits (radix : Z) (s : text) (acc : option Z) : option Z :=
  match s with
  | [] => acc
  | c :: s' =>
      match digit_value radix c with
      | Some v =>
          parse_digits radix s'
            (Some (match acc with Some a => a * radix + v | None => v end))
      | None => acc
      end
  end.

(** [parseInt(string)], no radix given: leading white space is skipped, a sign
    is read, [0x] or [0X] selects radix 16, and the digits that follow are
    read up to the first code unit that is not one. *)
Definition parseInt (s : text) : number :=
  let s := trimStart s in
  let '(sign, s) := match s with
                    | 45%N :: r => (-1, r)
                    | 43%N :: r => (1, r)
                    | _ => (1, s)
                    end in
  let '(radix, s) := match s with
                     | 48%N :: 120%N :: r => (16, r)
                     | 48%N :: 88%N :: r => (16, r)
                     | _ => (10, s)
                     end in
  match parse_digits radix s None with
  | None => NaN
  | Some m => to_number (sign * m)
  end.

Definition is_integer (n : number) : bool :=
  match n with
  | Finite _ => true
  | _ => false
  end.

(** [n < z] and [n > z] on numbers that are not NaN. *)
Definition number_ltb (n : number) (z : Z) : bool :=
  match n with
  | NaN => false
  | Finite x => x <? z
  | Infinity negative => negative
  end.

Definition number_gtb (n : number) (z : Z) : bool :=
  match n with
  | NaN => false
  | Finite x => x >? z
  | Infinity negative => negb negative
  end.

(** The integer [JSON.stringify] writes for a number.  Only finite numbers
    are sent: the others do not pass [alunoSchema]. *)
Definition json_integer (n : number) : Z :=
  match n with
  | Finite z => z
  | _ => 0
  end.

(** ** The validation library *)

(** The kinds of issue the checks of [alunoSchema] raise. *)
Inductive ZodIssueCode :=
| invalid_type (expected received : string)
| invalid_string_email
| too_small_string (minimum : nat)
| too_big_string (maximum : nat)
| too_small_number (minimum : Z)
| too_big_number (maximum : Z).

Record ZodIssue := {
  path : string;
  code : ZodIssueCode;
  issue_message : string
}.

Inductive string_check :=
| check_trim
| check_min (n : nat) (msg : option string)
| check_max (n : nat) (msg : option string)
| check_email (msg : option string).

Inductive number_check :=
| check_int (msg : option string)
| check_number_min (z : Z) (msg : option string)
| check_number_max (z : Z) (msg : option string).

Section Client.

(** Two things the schema takes from the validation library, whose text is
    not part of the repository: the pattern behind [.email()] and the message
    of an issue raised by a check that was given none. *)
Variable email_regex : text -> bool.
Variable defaultErrorMap : ZodIssueCode -> string.

Definition addIssue (field : string) (c : ZodIssueCode) (msg : option string)
    : ZodIssue :=
  {| path := field; code := c; issue_message := default msg (defaultErrorMap c) |}.

(** A string schema runs its checks in the order they were chained; [trim]
    replaces the value the later checks see; a failed check adds an issue and
    the checks go on. *)
Fixpoint ZodString_parse (field : string) (checks : list string_check)
    (data : text) : text * list ZodIssue :=
  match checks with
  | [] => (data, [])
  | check_trim :: cs => ZodString_parse field cs (trim data)
  | check_min n msg :: cs =>
      let '(v, issues) := ZodString_parse field cs data in
      (v, if (List.length data <? n)%nat
          then addIssue field (too_small_string n) msg :: issues else issues)
  | check_max n msg :: cs =>
      let '(v, issues) := ZodString_parse field cs data in
      (v, if (n <? List.length data)%nat
          then addIssue field (too_big_string n) msg :: issues else issues)
  | check_email msg :: cs =>
      let '(v, issues) := ZodString_parse field cs data in
      (v, if email_regex data
          then issues else addIssue field invalid_string_email msg :: issues)
  end.

Definition run_number_check (field : string) (data : number) (c : number_check)
    : list ZodIssue :=
  match c with
  | check_int msg =>
      if is_integer data then []
      else [addIssue field (invalid_type "integer" "float") msg]
  | check_number_min z msg =>
      if number_ltb data z then [addIssue field (too_small_number z) msg] else []
  | check_number_max z msg =>
      if number_gtb data z then [addIssue field (too_big_number z) msg] else []
  end.

(** A number schema refuses NaN as not a number, and otherwise runs every
    check. *)
Definition ZodNumber_parse (field : string) (checks : list number_check)
    (data : number) : list ZodIssue :=
  match data with
  | NaN => [addIssue field (invalid_type "number" "nan") None]
  | _ => flat_map (run_number_check field data) checks
  end.

(** ** [AlunoForm.tsx] *)

Definition alunoSchema_nome : list string_check :=
  [check_trim;
   check_min 2 (Some "Nome deve ter no mínimo 2 caracteres");
   check_max 100 None].

Definition alunoSchema_email : list string_check :=
  [check_trim; check_email (Some "Email inválido"); check_max 255 None].

Definition alunoSchema_matricula : list string_check :=
  [check_trim;
   check_min 3 (Some "Matrícula deve ter no mínimo 3 caracteres");
   check_max 50 None].

Definition alunoSchema_idade : list number_check :=
  [check_int None;
   check_number_min 1 (Some "Idade deve ser maior que 0");
   check_number_max 150 (Some "Idade inválida")].

Record AlunoFormData := {
  form_nome : text;
  form_email : text;
  form_matricula : text;
  form_idade : text
}.

(** The object given to [alunoSchema.parse]. *)
Record alunoSchema_input := {
  in_nome : text;
  in_email : text;
  in_matricula : text;
  in_idade : number
}.

(** The object [alunoSchema.parse] returns: the four keys of the schema. *)
Record validated := {
  v_nome : text;
  v_email : text;
  v_matricula : text;
  v_idade : number
}.

(** The outcome of [alunoSchema.parse]: the value, or a thrown [ZodError]
    with its issues ([errors]), of which there is at least one. *)
Inductive parsed :=
| Valid (v : validated)
| ZodError (first : ZodIssue) (rest : list ZodIssue).

(** An object schema parses its keys in the order of the declaration and
    gathers the issues in that order. *)
Definition alunoSchema_parse (o : alunoSchema_input) : parsed :=
  let '(n, issues_nome) := ZodString_parse "nome" alunoSchema_nome (in_nome o) in
  let '(e, issues_email) := ZodString_parse "email" alunoSchema_email (in_email o) in
  let '(m, issues_matricula) :=
    ZodString_parse "matricula" alunoSchema_matricula (in_matricula o) in
  let issues_idade := ZodNumber_parse "idade" alunoSchema_idade (in_idade o) in
  match issues_nome ++ issues_email ++ issues_matricula ++ issues_idade with
  | [] => Valid {| v_nome := n; v_email := e; v_matricula := m; v_idade := in_idade o |}
  | first :: rest => ZodError first rest
  end.

(** What a handler does that can be observed from outside the component. *)
Inductive effect :=
| toast_error (m : string)
| toast_success (m : string)
| store_request (q : request)
| onSuccess
| onOpenChange (open : bool).

(** The [if (error)] block of [handleSubmit], the same in both branches but
    for the last message. *)
Definition report_error (generic : string) (error_message : string)
    : list effect :=
  if includes error_message "duplicate key" then
    if includes error_message "email" then
      [toast_error "Este email já está cadastrado"]
    else if includes error_message "matricula" then
      [toast_error "Esta matrícula já está cadastrada"]
    else []
  else [toast_error generic].

(** [handleSubmit].  [auth_uid e] is the signed-in user: what
    [supabase.auth.getUser()] returns and what the store reads as
    [auth.uid()].  [aluno] is the student being edited, if any.  The only
    exception raised here is the [ZodError] of the schema, so the handler's
    branch for other exceptions is not represented; nor are the updates of
    the component's own state ([loading], [formData]). *)
Definition handleSubmit (e : env) (aluno : option aluno) (formData : AlunoFormData)
    (d : database) : list effect * database :=
  match alunoSchema_parse
          {| in_nome := form_nome formData;
             in_email := form_email formData;
             in_matricula := form_matricula formData;
             in_idade := parseInt (form_idade formData) |} with
  | ZodError first _ => ([toast_error (issue_message first)], d)
  | Valid v =>
      match auth_uid e with
      | None => ([toast_error "Usuário não autenticado"], d)
      | Some user =>
          match aluno with
          | Some a =>
              let q := UpdateAluno
                         {| set_id := None;
                            set_nome := Some (v_nome v);
                            set_email := Some (v_email v);
                            set_matricula := Some (v_matricula v);
                            set_idade := Some (json_integer (v_idade v));
                            set_criado_por := None;
                            set_created_at := None;
                            set_updated_at := None |}
                         (aluno_id a) in
              match execute e q d with
              | Error err =>
                  (store_request q ::
                   report_error "Erro ao atualizar aluno" (message err), d)
              | Ok d' =>
                  ([store_request q;
                    toast_success "Aluno atualizado com sucesso!";
                    onSuccess; onOpenChange false], d')
              end
          | None =>
              let q := InsertAluno
                         {| ins_id := None;
                            ins_nome := v_nome v;
                            ins_email := v_email v;
                            ins_matricula := v_matricula v;
                            ins_idade := json_integer (v_idade v);
                            ins_criado_por := user;
                            ins_created_at := None;
                            ins_updated_at := None |} in
              match execute e q d with
              | Error err =>
                  (store_request q ::
                   report_error "Erro ao criar aluno" (message err), d)
              | Ok d' =>
                  ([store_request q;
                    toast_success "Aluno criado com sucesso!";
                    onSuccess; onOpenChange false], d')
              end
          end
      end
  end.

(** ** The rules of the form, as the specification lists them

    The four fields in the order name, email, registration code, age, and for
    each field its rules in the order they are stated.  A rule on a string is
    about the string without the white space around it; a rule on the age is
    about the number [parseInt] reads in the field. *)
Inductive rule :=
| nome_min_2
| nome_max_100
| email_well_formed
| email_max_255
| matricula_min_3
| matricula_max_50
| idade_is_number
| idade_is_integer
| idade_min_1
| idade_max_150.

Definition rules_in_order : list rule :=
  [nome_min_2; nome_max_100; email_well_formed; email_max_255;
   matricula_min_3; matricula_max_50;
   idade_is_number; idade_is_integer; idade_min_1; idade_max_150].

Definition violates (f : AlunoFormData) (r : rule) : bool :=
  match r with
  | nome_min_2 => (List.length (trim (form_nome f)) <? 2)%nat
  | nome_max_100 => (100 <? List.length (trim (form_nome f)))%nat
  | email_well_formed => negb (email_regex (trim (form_email f)))
  | email_max_255 => (255 <? List.length (trim (form_email f)))%nat
  | matricula_min_3 => (List.length (trim (form_matricula f)) <? 3)%nat
  | matricula_max_50 => (50 <? List.length (trim (form_matricula f)))%nat
  | idade_is_number =>
      match parseInt (form_idade f) with NaN => true | _ => false end
  | idade_is_integer =>
      match parseInt (form_idade f) with Infinity _ => true | _ => false end
  | idade_min_1 => number_ltb (parseInt (form_idade f)) 1
  | idade_max_150 => number_gtb (parseInt (form_idade f)) 150
  end.

(** The issue a violated rule raises: the message written in the schema, or
    the library's for a rule that was given none. *)
Definition rule_issue (r : rule) : ZodIssue :=
  match r with
  | nome_min_2 =>
      addIssue "nome" (too_small_string 2)
        (Some "Nome deve ter no mínimo 2 caracteres")
  | nome_max_100 => addIssue "nome" (too_big_string 100) None
  | email_well_formed =>
      addIssue "email" invalid_string_email (Some "Email inválido")
  | email_max_255 => addIssue "email" (too_big_string 255) None
  | matricula_min_3 =>
      addIssue "matricula" (too_small_string 3)
        (Some "Matrícula deve ter no mínimo 3 caracteres")
  | matricula_max_50 => addIssue "matricula" (too_big_string 50) None
  | idade_is_number => addIssue "idade" (invalid_type "number" "nan") None
  | idade_is_integer => addIssue "idade" (invalid_type "integer" "float") None
  | idade_min_1 =>
      addIssue "idade" (too_small_number 1) (Some "Idade deve ser maior que 0")
  | idade_max_150 =>
      addIssue "idade" (too_big_number 150) (Some "Idade inválida")
  end.

Definition first_violated_rule (f : AlunoFormData) : option rule :=
  find (violates f) rules_in_order.

(** The object [handleSubmit] validates. *)
Definition submitted (f : AlunoFormData) : alunoSchema_input :=
  {| in_nome := form_nome f;
     in_email := form_email f;
     in_matricula := form_matricula f;
     in_idade := parseInt (form_idade f) |}.

End Client.

(** ** [Dashboard.tsx] *)

(** The part of the component's state the two handlers touch. *)
Record Dashboard := {
  shown_alunos : list aluno;
  alunoToDelete : option uuid;
  deleteDialogOpen : bool
}.

(** The answer to [select("*").order("created_at", { ascending: false })]. *)
Definition select_response (e : env) (d : database) : response (list aluno) :=
  Ok (select_alunos (auth_uid e) d).

(** [fetchAlunos]: the rows of the answer replace the list shown. *)
Definition fetchAlunos (e : env) (st : Dashboard) (d : database)
    : list effect * Dashboard :=
  match select_response e d with
  | Error _ => ([store_request SelectAlunos; toast_error "Erro ao carregar alunos"], st)
  | Ok data =>
      ([store_request SelectAlunos],
       {| shown_alunos := data;
          alunoToDelete := alunoToDelete st;
          deleteDialogOpen := deleteDialogOpen st |})
  end.

(** [!alunoToDelete]: null and the empty string are falsy. *)
Definition falsy (x : option uuid) : bool :=
  match x with
  | None => true
  | Some s => String.eqb s EmptyString
  end.

(** [handleDelete]. *)
Definition handleDelete (e : env) (st : Dashboard) (d : database)
    : list effect * Dashboard * database :=
  match alunoToDelete st with
  | None => ([], st, d)
  | Some target =>
      if falsy (Some target) then ([], st, d)
      else
        let q := DeleteAluno target in
        match execute e q d with
        | Error _ => ([store_request q; toast_error "Erro ao excluir aluno"], st, d)
        | Ok d' =>
            let '(fetched, st') := fetchAlunos e st d' in
            (store_request q :: toast_success "Aluno excluído com sucesso!" :: fetched,
             {| shown_alunos := shown_alunos st';
                alunoToDelete := None;
                deleteDialogOpen := false |},
             d')
        end
  end.

(** ** The edit form, as the specification describes it *)

(** The columns the form has no field for. *)
Definition identity_columns (r : aluno) : uuid * uuid * timestamptz :=
  (aluno_id r, criado_por r, created_at r).

(** An update of the student's id that sets the four validated fields and
    nothing else. *)
Definition edit_request (a : aluno) (v : validated) : request :=
  UpdateAluno
    {| set_id := None;
       set_nome := Some (v_nome v);
       set_email := Some (v_email v);
       set_matricula := Some (v_matricula v);
       set_idade := Some (json_integer (v_idade v));
       set_criado_por := None;
       set_created_at := None;
       set_updated_at := None |}
    (aluno_id a).

(** The insert [handleSubmit] sends for a new student: the validated fields
    and the signed-in user as owner. *)
Definition create_request (user : uuid) (v : validated) : request :=
  InsertAluno
    {| ins_id := None;
       ins_nome := v_nome v;
       ins_email := v_email v;
       ins_matricula := v_matricula v;
       ins_idade := json_integer (v_idade v);
       ins_criado_por := user;
       ins_created_at := None;
       ins_updated_at := None |}.

(** The value the schema returns for a form that breaks no rule. *)
Definition validated_form (f : AlunoFormData) : validated :=
  {| v_nome := trim (form_nome f);
     v_email := trim (form_email f);
     v_matricula := trim (form_matricula f);
     v_idade := parseInt (form_idade f) |}.

(** A student's row with the fields of a validated form, updated at [t]. *)
Definition edited (OLD : aluno) (v : validated) (t : timestamptz) : aluno :=
  {| aluno_id := aluno_id OLD;
     nome := v_nome v;
     email := v_email v;
     matricula := v_matricula v;
     idade := json_integer (v_idade v);
     criado_por := criado_por OLD;
     created_at := created_at OLD;
     updated_at := t |}.

(** The row of a new student with the fields of a validated form. *)
Definition created (e : env) (user : uuid) (v : validated) : aluno :=
  {| aluno_id := gen_random_uuid e;
     nome := v_nome v;
     email := v_email v;
     matricula := v_matricula v;
     idade := json_integer (v_idade v);
     criado_por := user;
     created_at := now e;
     updated_at := now e |}.

(** The texts of a validated form. *)
Definition v_texts (v : validated) : list text :=
  [v_nome v; v_email v; v_matricula v].

(** ** The messages, as the specification lists them *)

(** The message for an error of the store: that of the field for a conflict
    on the email or on the registration code, and the generic message of the
    operation for every other error. *)
Definition failure_message (aluno : option aluno) : string :=
  match aluno with
  | Some _ => "Erro ao atualizar aluno"
  | None => "Erro ao criar aluno"
  end.

Definition specified_message (aluno : option aluno) (err : pg_error) : string :=
  match err with
  | unique_violation alunos_email_key => "Este email já está cadastrado"
  | unique_violation alunos_matricula_key => "Esta matrícula já está cadastrada"
  | _ => failure_message aluno
  end.

(** A text that neither starts nor ends with white space. *)
Definition no_space_around (s : text) : Prop :=
  (forall c, hd_error s = Some c -> is_white_space c = false) /\
  (forall c, hd_error (rev s) = Some c -> is_white_space c = false).

(** ** Data of the examples *)

(** A stand-in for the library's pattern: the address holds an at sign. *)
Definition sample_email_regex (s : text) : bool := existsb (N.eqb 64) s.

(** A stand-in for the library's messages. *)
Definition sample_errorMap (c : ZodIssueCode) : string :=
  (match c with
   | invalid_type expected received =>
       "Expected " ++ expected ++ ", received " ++ received
   | invalid_string_email => "Invalid email"
   | too_small_string n =>
       "String must contain at least " ++
       NilEmpty.string_of_uint (Nat.to_uint n) ++ " character(s)"
   | too_big_string n =>
       "String must contain at most " ++
       NilEmpty.string_of_uint (Nat.to_uint n) ++ " character(s)"
   | too_small_number z =>
       "Number must be greater than or equal to " ++
       NilEmpty.string_of_int (Z.to_int z)
   | too_big_number z =>
       "Number must be less than or equal to " ++
       NilEmpty.string_of_int (Z.to_int z)
   end)%string.

Definition run (e : env) (q : request) (d : database) : database :=
  state_after d (execute e q d).

Definition identity (name : string) (address : string) : auth_user :=
  {| user_id := name;
     user_email := Some (js address);
     raw_user_meta_data := Some [(js "nome", JString (js name))] |}.

Definition session (user : option uuid) (t : timestamptz) (fresh : uuid) : env :=
  {| auth_uid := user; now := t; gen_random_uuid := fresh |}.

Definition student (n e m : string) (a : Z) (owner : uuid) : aluno_insert :=
  {| ins_id := None;
     ins_nome := js n;
     ins_email := js e;
     ins_matricula := js m;
     ins_idade := a;
     ins_criado_por := owner;
     ins_created_at := None;
     ins_updated_at := None |}.

(** Two identities, Ana and Bia. *)
Definition two_identities : database :=
  run (session None 2 EmptyString) (CreateIdentity (identity "bia" "bia@escola.br"))
    (run (session None 1 EmptyString) (CreateIdentity (identity "ana" "ana@escola.br"))
       empty_database).

(** Ana has registered one student. *)
Definition one_student : database :=
  run (session (Some "ana") 10 "s1")
    (InsertAluno (student "Ana Silva" "ana@x.com" "M001" 20 "ana"))
    two_identities.

(** Bia has registered one too. *)
Definition two_students : database :=
  run (session (Some "bia") 11 "s2")
    (InsertAluno (student "Rui Lima" "rui@x.com" "M002" 31 "bia"))
    one_student.

(** The rows of [two_students]. *)
Definition row_of_ana : aluno :=
  {| aluno_id := "s1"; nome := js "Ana Silva"; email := js "ana@x.com";
     matricula := js "M001"; idade := 20; criado_por := "ana";
     created_at := 10; updated_at := 10 |}.

Definition row_of_bia : aluno :=
  {| aluno_id := "s2"; nome := js "Rui Lima"; email := js "rui@x.com";
     matricula := js "M002"; idade := 31; criado_por := "bia";
     created_at := 11; updated_at := 11 |}.

Definition form (n e m a : string) : AlunoFormData :=
  {| form_nome := js n; form_email := js e; form_matricula := js m;
     form_idade := js a |}.

Definition empty_dashboard : Dashboard :=
  {| shown_alunos := []; alunoToDelete := None; deleteDialogOpen := false |}.

(** ** The invariant of [alunos] *)

(** PRIMARY KEY (id), UNIQUE (email), UNIQUE (matricula): no value of the
    column occurs in two rows. *)
Definition alunos_unique (d : database) : Prop :=
  NoDup (map aluno_id (alunos d)) /\
  NoDup (map email (alunos d)) /\
  NoDup (map matricula (alunos d)).

(** ** The invariants of the store *)

(** [CHECK (idade > 0 AND idade < 150)] on every stored row. *)
Definition idades_in_range (d : database) : Prop :=
  forall r, In r (alunos d) -> 1 <= idade r <= 149.

(** What every statement keeps: the ages are in range, every student's owner
    has a profile, no two identities share an id and no two profiles an
    email, and the profiles are those of the identities, in the same order. *)
Definition consistent (d : database) : Prop :=
  idades_in_range d /\
  (forall r, In r (alunos d) -> In (criado_por r) (map profile_id (profiles d))) /\
  NoDup (map user_id (auth_users d)) /\
  NoDup (map profile_email (profiles d)) /\
  map profile_id (profiles d) = map user_id (auth_users d).

(** Every text of every stored student is one the store can hold. *)
Definition row_texts (r : aluno) : list text := [nome r; email r; matricula r].

Definition texts_stored (d : database) : Prop :=
  forall r, In r (alunos d) -> forallb storable (row_texts r) = true.

(** ORDER BY created_at DESC: no row comes before a row created later. *)
Definition newest_first (l : list aluno) : Prop :=
  StronglySorted (fun a b => created_at b <= created_at a) l.

(** ** The rest of [AlunoForm.tsx] and [Dashboard.tsx] *)

(** The digits of a decimal numeral as code units. *)
Fixpoint text_of_uint (u : Decimal.uint) : text :=
  match u with
  | Decimal.Nil => []
  | Decimal.D0 u => 48%N :: text_of_uint u
  | Decimal.D1 u => 49%N :: text_of_uint u
  | Decimal.D2 u => 50%N :: text_of_uint u
  | Decimal.D3 u => 51%N :: text_of_uint u
  | Decimal.D4 u => 52%N :: text_of_uint u
  | Decimal.D5 u => 53%N :: text_of_uint u
  | Decimal.D6 u => 54%N :: text_of_uint u
  | Decimal.D7 u => 55%N :: text_of_uint u
  | Decimal.D8 u => 56%N :: text_of_uint u
  | Decimal.D9 u => 57%N :: text_of_uint u
  end.

(** [Number.prototype.toString] on an integer of magnitude below 10^21 (as
    every 32-bit integer is): the decimal digits, after a minus sign for a
    negative number.  From 10^21 on JavaScript writes an exponent, which is
    not represented. *)
Definition Number_toString (z : Z) : text :=
  match Z.to_int z with
  | Decimal.Pos u => text_of_uint u
  | Decimal.Neg u => 45%N :: text_of_uint u
  end.

(** The effect of [AlunoForm] on [aluno] and [open]: the form shows the
    student being edited, or is empty for a new one. *)
Definition prefill (aluno : option aluno) : AlunoFormData :=
  match aluno with
  | Some a =>
      {| form_nome := nome a;
         form_email := email a;
         form_matricula := matricula a;
         form_idade := Number_toString (idade a) |}
  | None =>
      {| form_nome := []; form_email := []; form_matricula := [];
         form_idade := [] |}
  end.

(** The state of [Dashboard] that drives the form: [formOpen] and
    [selectedAluno]. *)
Record FormDialog := {
  formOpen : bool;
  selectedAluno : option aluno
}.

(** [handleEdit] and [handleNewAluno]. *)
Definition handleEdit (a : aluno) (dlg : FormDialog) : FormDialog :=
  {| formOpen := true; selectedAluno := Some a |}.

Definition handleNewAluno (dlg : FormDialog) : FormDialog :=
  {| formOpen := true; selectedAluno := None |}.

(** [handleDeleteClick]. *)
Definition handleDeleteClick (id : uuid) (st : Dashboard) : Dashboard :=
  {| shown_alunos := shown_alunos st;
     alunoToDelete := Some id;
     deleteDialogOpen := true |}.

(** [handleFormSuccess]: the list is fetched again and no student is
    selected any more. *)
Definition handleFormSuccess (e : env) (st : Dashboard) (dlg : FormDialog)
    (d : database) : list effect * Dashboard * FormDialog :=
  let '(fetched, st') := fetchAlunos e st d in
  (fetched, st', {| formOpen := formOpen dlg; selectedAluno := None |}).

(** The props [Dashboard] gives to [AlunoForm]: [onSuccess] is
    [handleFormSuccess] and [onOpenChange] is [setFormOpen].  The callbacks
    among the effects of a handler of the form are run in their order, on the
    store the handler left; the other effects are kept. *)
Fixpoint run_callbacks (e : env) (d : database) (effects : list effect)
    (st : Dashboard) (dlg : FormDialog) : list effect * Dashboard * FormDialog :=
  match effects with
  | [] => ([], st, dlg)
  | onSuccess :: rest =>
      let '(fetched, st1, dlg1) := handleFormSuccess e st dlg d in
      let '(others, st2, dlg2) := run_callbacks e d rest st1 dlg1 in
      (fetched ++ others, st2, dlg2)
  | onOpenChange open :: rest =>
      run_callbacks e d rest st
        {| formOpen := open; selectedAluno := selectedAluno dlg |}
  | other :: rest =>
      let '(others, st2, dlg2) := run_callbacks e d rest st dlg in
      (other :: others, st2, dlg2)
  end.

(** Submitting the form as [Dashboard] mounts it: [aluno] is
    [selectedAluno]. *)
Definition submit_in_dashboard (email_regex : text -> bool)
    (defaultErrorMap : ZodIssueCode -> string) (e : env) (f : AlunoFormData)
    (st : Dashboard) (dlg : FormDialog) (d : database)
    : list effect * Dashboard * FormDialog * database :=
  let '(effects, d') :=
    handleSubmit email_regex defaultErrorMap e (selectedAluno dlg) f d in
  (run_callbacks e d' effects st dlg, d').

(** * Properties *)

(** ** Lists, checks and rows *)

Lemma owns_true (uid : option uuid) (r : aluno) :
  owns uid r = true <-> uid = Some (criado_por r).
Proof.
  unfold owns. destruct uid as [u|].
  - rewrite String.eqb_eq. split; congruence.
  - split; discriminate.
Qed.

Lemma owns_false (uid : option uuid) (r : aluno) :
  owns uid r = false <-> uid <> Some (criado_por r).
Proof.
  rewrite <- owns_true. destruct (owns uid r); split; congruence.
Qed.

Lemma locate_none {A} (f : A -> bool) (l : list A) :
  (forall x, In x l -> f x = false) -> locate f l = None.
Proof.
  induction l as [|x l IH]; intros H; cbn; [reflexivity|].
  rewrite (H x (or_introl eq_refl)), IH; [reflexivity|].
  intros y Hy. apply H. now right.
Qed.

Lemma locate_some {A} (f : A -> bool) (l before after : list A) (x : A) :
  locate f l = Some (before, x, after) ->
  l = before ++ x :: after /\ f x = true.
Proof.
  revert before. induction l as [|y l IH]; intros before; cbn; [discriminate|].
  destruct (f y) eqn:Hy.
  - intros [= <- <- <-]. now split.
  - destruct (locate f l) as [[[b z] a]|]; [|discriminate].
    intros [= <- <- <-]. destruct (IH b eq_refl) as [-> Hz]. now split.
Qed.

Lemma locate_none_inv {A} (f : A -> bool) (l : list A) :
  locate f l = None -> forall x, In x l -> f x = false.
Proof.
  induction l as [|y l IH]; cbn; [tauto|].
  destruct (f y) eqn:Hy; [discriminate|].
  destruct (locate f l) as [[[b z] a]|]; [discriminate|].
  intros _ x [<-|Hx]; auto.
Qed.

Lemma filter_all {A} (f : A -> bool) (l : list A) :
  (forall x, In x l -> f x = true) -> filter f l = l.
Proof.
  induction l as [|x l IH]; intros H; cbn; [reflexivity|].
  rewrite (H x (or_introl eq_refl)), IH; [reflexivity|].
  intros y Hy. apply H. now right.
Qed.

Lemma insert_desc_in (r x : aluno) (l : list aluno) :
  In x (insert_desc r l) <-> x = r \/ In x l.
Proof.
  induction l as [|y l IH]; cbn.
  - intuition congruence.
  - destruct (created_at y <? created_at r); cbn.
    + intuition congruence.
    + rewrite IH. intuition congruence.
Qed.

(** Ordering the answer neither adds nor drops a row. *)
Lemma order_by_created_at_desc_in (x : aluno) (l : list aluno) :
  In x (order_by_created_at_desc l) <-> In x l.
Proof.
  induction l as [|y l IH]; cbn; [tauto|].
  rewrite insert_desc_in, IH. intuition congruence.
Qed.

Lemma select_alunos_in (uid : option uuid) (d : database) (r : aluno) :
  In r (select_alunos uid d) <-> In r (alunos d) /\ uid = Some (criado_por r).
Proof.
  unfold select_alunos, Users_can_view_their_own_students.
  now rewrite order_by_created_at_desc_in, filter_In, owns_true.
Qed.

(** A statement that got past a check passed it. *)
Lemma check_ok {A} (b : bool) (e : pg_error) (k : response A) (a : A) :
  (check b otherwise e ;; k) = Ok a -> b = true /\ k = Ok a.
Proof. destruct b; cbn; [now split | discriminate]. Qed.

Lemma check_failed {A} (b : bool) (e : pg_error) (k : response A) :
  b = false -> (check b otherwise e ;; k) = Error e.
Proof. now intros ->. Qed.

Lemma check_passed {A} (b : bool) (e : pg_error) (k : response A) :
  b = true -> (check b otherwise e ;; k) = k.
Proof. now intros ->. Qed.

(** One check of a statement that is shown to fail: the check fails, or it
    passes and the statement goes on. *)
Ltac run_check :=
  match goal with
  | |- context [guard ?b _] =>
      let C := fresh "C" in
      destruct b eqn:C; cbn [guard bind]; [|eexists; reflexivity]
  end.

(** One check of a statement that is shown to leave the state as it was. *)
Ltac pass_check :=
  match goal with
  | |- context [guard ?b _] =>
      let C := fresh "C" in
      destruct b eqn:C; cbn [guard bind state_after]; [|reflexivity]
  end.

Lemma storable_all (l : list text) :
  forallb storable l = true <->
  forallb well_formed l = true /\ existsb has_nul l = false.
Proof.
  induction l as [|s l IH]; cbn; [tauto|].
  unfold storable at 1.
  rewrite !andb_true_iff, orb_false_iff, IH, negb_true_iff. tauto.
Qed.

Lemma readable_checks (p : aluno_update) :
  readable p = true <->
  forallb well_formed (set_texts p) = true /\
  existsb has_nul (set_texts p) = false /\
  int4 (default (set_idade p) 0) = true.
Proof. unfold readable. rewrite andb_true_iff, storable_all. tauto. Qed.

(** ** Ownership at the storage boundary *)

(** C1. For students [a] and [b] with distinct owners, the list fetched under
    the identity of [a]'s owner holds only rows of the table owned by that
    identity ([a] among them) and does not hold [b]. *)
Theorem fetchAlunos_only_own_rows :
  forall (e : env) (st : Dashboard) (d : database) (a b : aluno),
    In a (alunos d) -> In b (alunos d) ->
    criado_por a <> criado_por b ->
    auth_uid e = Some (criado_por a) ->
    let rows := shown_alunos (snd (fetchAlunos e st d)) in
    (forall r, In r rows -> In r (alunos d) /\ criado_por r = criado_por a) /\
    In a rows /\
    ~ In b rows.
Proof.
  intros e st d a b Ha Hb Hab He. cbn.
  repeat split.
  - now apply select_alunos_in in H.
  - apply select_alunos_in in H as [_ H]. congruence.
  - apply select_alunos_in. now split.
  - intros H. apply select_alunos_in in H as [_ H]. congruence.
Qed.

Lemma with_alunos_same (d : database) : with_alunos d (alunos d) = d.
Proof. now destruct d. Qed.

Lemma insert_aluno_not_owner (uid : option uuid) (gen : uuid) (t : timestamptz)
    (p : aluno_insert) (d : database) :
  uid <> Some (ins_criado_por p) ->
  exists err, insert_aluno uid gen t p d = Error err.
Proof.
  intros H. unfold insert_aluno. cbv zeta. do 3 run_check.
  exists (insufficient_privilege tbl_alunos).
  apply check_failed. now apply owns_false.
Qed.

Lemma no_visible_row (uid : option uuid) (target : uuid) (d : database) :
  (forall r, In r (alunos d) -> aluno_id r = target -> uid <> Some (criado_por r)) ->
  locate (fun r => String.eqb (aluno_id r) target &&
                   Users_can_update_their_own_students uid r) (alunos d) = None.
Proof.
  intros H. apply locate_none.
  intros r Hr. destruct (String.eqb_spec (aluno_id r) target) as [Hid|]; [|reflexivity].
  cbn. now apply owns_false, H.
Qed.

Lemma update_aluno_not_visible (uid : option uuid) (t : timestamptz)
    (p : aluno_update) (target : uuid) (d : database) :
  (forall r, In r (alunos d) -> aluno_id r = target -> uid <> Some (criado_por r)) ->
  state_after d (update_aluno uid t p target d) = d.
Proof.
  intros H. unfold update_aluno. do 3 pass_check.
  now rewrite no_visible_row.
Qed.

(** No error is raised for the rows the policy hides. *)
Lemma update_aluno_not_visible_ok (uid : option uuid) (t : timestamptz)
    (p : aluno_update) (target : uuid) (d : database) :
  (forall r, In r (alunos d) -> aluno_id r = target -> uid <> Some (criado_por r)) ->
  readable p = true ->
  update_aluno uid t p target d = Ok d.
Proof.
  intros H Hp. apply readable_checks in Hp as (Hw & Hn & Hi).
  unfold update_aluno. rewrite Hw, Hn, Hi. cbn [negb guard bind].
  now rewrite no_visible_row.
Qed.

Lemma update_aluno_new_owner (uid : option uuid) (t : timestamptz)
    (p : aluno_update) (target owner : uuid) (d : database) :
  set_criado_por p = Some owner -> uid <> Some owner ->
  state_after d (update_aluno uid t p target d) = d.
Proof.
  intros Hp H. unfold update_aluno. do 3 pass_check.
  destruct (locate _ (alunos d)) as [[[before OLD] after]|]; [|reflexivity].
  cbv zeta. rewrite check_failed; [reflexivity|].
  apply owns_false. cbn. now rewrite Hp.
Qed.

(** The policy is applied to the proposed row: a row of the requester is not
    handed to another owner. *)
Lemma update_aluno_new_owner_error (uid : option uuid) (t : timestamptz)
    (p : aluno_update) (target owner : uuid) (d : database) (r : aluno) :
  In r (alunos d) -> aluno_id r = target -> uid = Some (criado_por r) ->
  set_criado_por p = Some owner -> uid <> Some owner ->
  exists err, update_aluno uid t p target d = Error err.
Proof.
  intros Hr Hid Hu Hp H. unfold update_aluno. do 3 run_check.
  destruct (locate _ (alunos d)) as [[[before OLD] after]|] eqn:Hl.
  - cbv zeta. exists (insufficient_privilege tbl_alunos).
    apply check_failed. apply owns_false. cbn. now rewrite Hp.
  - exfalso. apply locate_none_inv with (x := r) in Hl; [|assumption].
    rewrite Hid, String.eqb_refl in Hl. cbn in Hl.
    apply owns_false in Hl. contradiction.
Qed.

Lemma delete_aluno_not_visible (uid : option uuid) (target : uuid) (d : database) :
  (forall r, In r (alunos d) -> aluno_id r = target -> uid <> Some (criado_por r)) ->
  delete_aluno uid target d = Ok d.
Proof.
  intros H. unfold delete_aluno. rewrite filter_all; [now rewrite with_alunos_same|].
  intros r Hr. destruct (String.eqb_spec (aluno_id r) target) as [Hid|]; [|reflexivity].
  cbn. apply negb_true_iff. now apply owns_false, H.
Qed.

Lemma delete_aluno_keeps_others (uid : option uuid) (target : uuid)
    (d : database) (r : aluno) :
  In r (alunos d) -> uid <> Some (criado_por r) ->
  In r (alunos (state_after d (delete_aluno uid target d))).
Proof.
  intros Hr H. cbn. apply filter_In. split; [assumption|].
  apply negb_true_iff, andb_false_iff. right. now apply owns_false.
Qed.

(** C2, as amended.  A write whose declared owner, or whose row's owner, is
    not the requester does not take effect; the store rejects it with an
    error only when the row it proposes has another owner.
    - An insert for another owner is aborted with an error.
    - An update by id, when every row of that id has another owner, changes
      nothing, and when its payload can be read it is answered without an
      error, as an update of no row.
    - An update that declares another owner changes nothing, and is aborted
      with an error when the requester owns a row of the id.
    - A delete by id, when every row of that id has another owner, is
      answered without an error and with the store as it was; no delete
      removes a row of another owner. *)
Theorem writes_of_non_owner_have_no_effect :
  forall (e : env) (d : database),
    (forall p, auth_uid e <> Some (ins_criado_por p) ->
       (exists err, execute e (InsertAluno p) d = Error err) /\
       state_after d (execute e (InsertAluno p) d) = d) /\
    (forall p target,
       (forall r, In r (alunos d) -> aluno_id r = target ->
                  auth_uid e <> Some (criado_por r)) ->
       state_after d (execute e (UpdateAluno p target) d) = d /\
       (readable p = true -> execute e (UpdateAluno p target) d = Ok d)) /\
    (forall p target owner,
       set_criado_por p = Some owner -> auth_uid e <> Some owner ->
       state_after d (execute e (UpdateAluno p target) d) = d /\
       (forall r, In r (alunos d) -> aluno_id r = target ->
                  auth_uid e = Some (criado_por r) ->
                  exists err, execute e (UpdateAluno p target) d = Error err)) /\
    (forall target,
       (forall r, In r (alunos d) -> aluno_id r = target ->
                  auth_uid e <> Some (criado_por r)) ->
       execute e (DeleteAluno target) d = Ok d) /\
    (forall target r,
       In r (alunos d) -> auth_uid e <> Some (criado_por r) ->
       In r (alunos (state_after d (execute e (DeleteAluno target) d)))).
Proof.
  intros e d. repeat apply conj.
  - intros p H. cbn [execute].
    destruct (insert_aluno_not_owner (auth_uid e) (gen_random_uuid e) (now e) p d H)
      as [err ->].
    split; [now exists err | reflexivity].
  - intros p target H. cbn [execute]. split.
    + now apply update_aluno_not_visible.
    + now apply update_aluno_not_visible_ok.
  - intros p target owner Hp H. cbn [execute]. split.
    + now apply update_aluno_new_owner with owner.
    + intros r Hr Hid Hu. now apply update_aluno_new_owner_error with owner r.
  - intros target H. cbn [execute]. now apply delete_aluno_not_visible.
  - intros target r Hr H. now apply delete_aluno_keeps_others.
Qed.

(** ** The age accepted by the table *)

Lemma idade_check_true (r : aluno) :
  idade_check r = true <-> 1 <= idade r <= 149.
Proof.
  unfold idade_check. rewrite andb_true_iff, Z.gtb_lt, Z.ltb_lt. lia.
Qed.

(** With every other check passing, the table takes a row exactly when its
    age is between 1 and 149: the texts of the payload are ones the store
    can hold, the entries of the email and of the registration code fit
    their indexes, the requester is the owner and has a profile, and the id,
    the email and the registration code are in no row. *)
Lemma insert_aluno_succeeds_iff (uid : option uuid) (gen : uuid)
    (t : timestamptz) (p : aluno_insert) (d : database) :
  let NEW := new_aluno gen t p in
  uid = Some (ins_criado_por p) ->
  forallb storable (ins_texts p) = true ->
  index_row_fits (ins_email p) = true ->
  index_row_fits (ins_matricula p) = true ->
  has_id (aluno_id NEW) (alunos d) = false ->
  has_email (ins_email p) (alunos d) = false ->
  has_matricula (ins_matricula p) (alunos d) = false ->
  has_profile (ins_criado_por p) (profiles d) = true ->
  (exists d', insert_aluno uid gen t p d = Ok d') <-> 1 <= ins_idade p <= 149.
Proof.
  intros NEW Hu Ht Hfe Hfm Hid He Hm Hp. unfold insert_aluno. fold NEW.
  apply storable_all in Ht as [Hw Hn].
  assert (Hown : Users_can_create_students uid NEW = true) by now apply owns_true.
  change (ins_idade p) with (idade NEW). rewrite <- (idade_check_true NEW). split.
  - intros [d' H].
    do 4 (apply check_ok in H as [_ H]).
    now apply check_ok in H as [H _].
  - intros H. pose proof H as Hr. apply idade_check_true in Hr.
    assert (Hi : int4 (idade NEW) = true).
    { unfold int4. apply andb_true_iff. rewrite Z.leb_le, Z.ltb_lt. lia. }
    rewrite Hw, Hn, Hi, Hown, H. change (email NEW) with (ins_email p).
    change (matricula NEW) with (ins_matricula p).
    change (criado_por NEW) with (ins_criado_por p).
    rewrite Hid, He, Hm, Hp, Hfe, Hfm. cbn. eauto.
Qed.

(** ** Uniqueness of email and registration code *)

Section UniqueColumn.

Context {K : Type} (col : aluno -> K).

Lemma unique_filter (f : aluno -> bool) (l : list aluno) :
  NoDup (map col l) -> NoDup (map col (filter f l)).
Proof.
  induction l as [|x l IH]; cbn; [trivial|].
  intros H. apply NoDup_cons_iff in H as [Hx Hl].
  destruct (f x); cbn; [|auto].
  constructor; [|auto].
  intros Hin. apply Hx. apply in_map_iff in Hin as (y & Hy & Hin).
  apply in_map_iff. exists y. split; [assumption|].
  now apply filter_In in Hin.
Qed.

Lemma unique_append (l : list aluno) (r : aluno) :
  NoDup (map col l) -> ~ In (col r) (map col l) -> NoDup (map col (l ++ [r])).
Proof.
  intros Hl Hr. rewrite map_app. cbn.
  apply (NoDup_Add (a := col r) (l := map col l)).
  - rewrite <- (app_nil_r (map col l)) at 1. apply Add_app.
  - now split.
Qed.

Lemma unique_replace (before after : list aluno) (OLD NEW : aluno) :
  NoDup (map col (before ++ OLD :: after)) ->
  ~ In (col NEW) (map col (before ++ after)) ->
  NoDup (map col (before ++ NEW :: after)).
Proof.
  rewrite !map_app. cbn. intros Hl Hr.
  apply NoDup_remove_1 in Hl.
  apply (NoDup_Add (a := col NEW) (l := map col before ++ map col after)).
  - apply Add_app.
  - now split.
Qed.

Lemma unique_injective (l : list aluno) (x y : aluno) :
  NoDup (map col l) -> In x l -> In y l -> col x = col y -> x = y.
Proof.
  induction l as [|z l IH]; cbn; [tauto|].
  intros H Hx Hy Hxy. apply NoDup_cons_iff in H as [Hz Hl].
  destruct Hx as [->|Hx], Hy as [->|Hy]; auto.
  - exfalso. apply Hz. rewrite Hxy. now apply in_map.
  - exfalso. apply Hz. rewrite <- Hxy. now apply in_map.
Qed.

End UniqueColumn.

Lemma has_id_spec (x : uuid) (l : list aluno) :
  has_id x l = true <-> In x (map aluno_id l).
Proof.
  unfold has_id. rewrite existsb_exists, in_map_iff.
  split; intros (r & H1 & H2); exists r.
  - now apply String.eqb_eq in H2.
  - split; [assumption|]. now apply String.eqb_eq.
Qed.

Lemma has_email_spec (x : text) (l : list aluno) :
  has_email x l = true <-> In x (map email l).
Proof.
  unfold has_email. rewrite existsb_exists, in_map_iff.
  split; intros (r & H1 & H2); exists r.
  - now destruct (text_eq_dec (email r) x).
  - split; [assumption|]. now destruct (text_eq_dec (email r) x).
Qed.

Lemma has_matricula_spec (x : text) (l : list aluno) :
  has_matricula x l = true <-> In x (map matricula l).
Proof.
  unfold has_matricula. rewrite existsb_exists, in_map_iff.
  split; intros (r & H1 & H2); exists r.
  - now destruct (text_eq_dec (matricula r) x).
  - split; [assumption|]. now destruct (text_eq_dec (matricula r) x).
Qed.

Lemma negb_has (b : bool) (P : Prop) : (b = true <-> P) -> negb b = true -> ~ P.
Proof. intros H Hb HP. apply H in HP. rewrite HP in Hb. discriminate. Qed.

Lemma insert_aluno_unique (uid : option uuid) (gen : uuid) (t : timestamptz)
    (p : aluno_insert) (d d' : database) :
  alunos_unique d -> insert_aluno uid gen t p d = Ok d' -> alunos_unique d'.
Proof.
  intros (Hi & He & Hm) H. unfold insert_aluno in H.
  do 5 (apply check_ok in H as [_ H]). apply check_ok in H as [Ci H].
  apply check_ok in H as [Ce H]. apply check_ok in H as [_ H].
  apply check_ok in H as [Cm H]. do 2 (apply check_ok in H as [_ H]).
  injection H as <-.
  apply (negb_has _ _ (has_id_spec _ _)) in Ci.
  apply (negb_has _ _ (has_email_spec _ _)) in Ce.
  apply (negb_has _ _ (has_matricula_spec _ _)) in Cm.
  repeat split; cbn [alunos with_alunos]; now apply unique_append.
Qed.

Lemma update_aluno_unique (uid : option uuid) (t : timestamptz)
    (p : aluno_update) (target : uuid) (d d' : database) :
  alunos_unique d -> update_aluno uid t p target d = Ok d' -> alunos_unique d'.
Proof.
  intros Hd H. unfold update_aluno in H.
  do 3 (apply check_ok in H as [_ H]).
  destruct (locate _ (alunos d)) as [[[before OLD] after]|] eqn:Hl;
    [|now injection H as <-].
  apply locate_some in Hl as [Hl _]. cbv zeta in H.
  apply check_ok in H as [_ H]. apply check_ok in H as [_ H].
  apply check_ok in H as [Ci H]. apply check_ok in H as [Ce H].
  apply check_ok in H as [_ H]. apply check_ok in H as [Cm H].
  do 2 (apply check_ok in H as [_ H]). injection H as <-.
  apply (negb_has _ _ (has_id_spec _ _)) in Ci.
  apply (negb_has _ _ (has_email_spec _ _)) in Ce.
  apply (negb_has _ _ (has_matricula_spec _ _)) in Cm.
  destruct Hd as (Hi & He & Hm). rewrite Hl in Hi, He, Hm.
  repeat split; cbn [alunos with_alunos]; now apply unique_replace with OLD.
Qed.

(** Every statement keeps the three columns free of repeats. *)
Lemma execute_unique (e : env) (q : request) (d : database) :
  alunos_unique d -> alunos_unique (state_after d (execute e q d)).
Proof.
  intros Hd. destruct (execute e q d) as [d'|err] eqn:H; cbn; [|assumption].
  destruct q; cbn [execute] in H.
  - unfold create_identity in H. apply check_ok in H as [_ H].
    unfold handle_new_user in H. destruct (user_email u); [|discriminate].
    apply check_ok in H as [_ H]. apply check_ok in H as [_ H].
    apply check_ok in H as [_ H]. now injection H as <-.
  - injection H as <-. destruct Hd as (Hi & He & Hm).
    repeat split; cbn [alunos]; now apply unique_filter.
  - unfold insert_profile in H.
    apply check_ok in H as [_ H]. apply check_ok in H as [_ H].
    apply check_ok in H as [_ H]. apply check_ok in H as [_ H].
    now injection H as <-.
  - unfold update_profile in H.
    destruct (locate _ (profiles d)) as [[[before OLD] after]|];
      [|now injection H as <-].
    cbv zeta in H.
    apply check_ok in H as [_ H]. apply check_ok in H as [_ H].
    apply check_ok in H as [_ H]. apply check_ok in H as [_ H].
    apply check_ok in H as [_ H]. now injection H as <-.
  - now injection H as <-.
  - now apply insert_aluno_unique in H.
  - now apply update_aluno_unique in H.
  - injection H as <-. destruct Hd as (Hi & He & Hm).
    repeat split; cbn [alunos with_alunos]; now apply unique_filter.
Qed.

Lemma reachable_unique (d : database) : reachable d -> alunos_unique d.
Proof.
  induction 1 as [|d e q _ IH].
  - repeat split; constructor.
  - now apply execute_unique.
Qed.

Lemma in_others {A} (before after : list A) (x y : A) :
  In y (before ++ x :: after) -> y <> x -> In y (before ++ after).
Proof.
  rewrite !in_app_iff. cbn. intros [H|[H|H]] Hxy; auto. congruence.
Qed.

Lemma insert_aluno_duplicate (uid : option uuid) (gen : uuid) (t : timestamptz)
    (p : aluno_insert) (d : database) (r : aluno) :
  In r (alunos d) ->
  email r = ins_email p \/ matricula r = ins_matricula p ->
  exists err, insert_aluno uid gen t p d = Error err.
Proof.
  intros Hr Hdup. unfold insert_aluno. cbv zeta.
  do 10 run_check. exfalso.
  destruct Hdup as [H|H].
  - assert (E : has_email (ins_email p) (alunos d) = true)
      by (rewrite <- H; apply has_email_spec; now apply in_map).
    cbn in *. rewrite E in *. cbn in *. congruence.
  - assert (E : has_matricula (ins_matricula p) (alunos d) = true)
      by (rewrite <- H; apply has_matricula_spec; now apply in_map).
    cbn in *. rewrite E in *. cbn in *. congruence.
Qed.

Lemma update_aluno_duplicate (uid : option uuid) (t : timestamptz)
    (p : aluno_update) (d : database) (OLD r : aluno) :
  alunos_unique d ->
  In OLD (alunos d) -> uid = Some (criado_por OLD) ->
  In r (alunos d) -> r <> OLD ->
  set_email p = Some (email r) \/ set_matricula p = Some (matricula r) ->
  exists err, update_aluno uid t p (aluno_id OLD) d = Error err.
Proof.
  intros (Hi & _ & _) HOLD Hu Hr Hne Hdup. unfold update_aluno.
  do 3 run_check.
  destruct (locate _ (alunos d)) as [[[before OLD'] after]|] eqn:Hl.
  - apply locate_some in Hl as [Hl Hf].
    apply andb_true_iff in Hf as [Hf _]. apply String.eqb_eq in Hf.
    assert (OLD' = OLD) as ->.
    { apply (unique_injective aluno_id (alunos d)); auto.
      rewrite Hl. apply in_elt. }
    rewrite Hl in Hr. apply in_others in Hr; [|assumption].
    cbv zeta. do 7 run_check. exfalso.
    destruct Hdup as [H|H].
    + assert (E : has_email (email r) (before ++ after) = true)
        by (apply has_email_spec; now apply in_map).
      cbn in *. rewrite H in *. cbn in *. rewrite E in *. cbn in *. congruence.
    + assert (E : has_matricula (matricula r) (before ++ after) = true)
        by (apply has_matricula_spec; now apply in_map).
      cbn in *. rewrite H in *. cbn in *. rewrite E in *. cbn in *. congruence.
  - exfalso. apply locate_none_inv with (x := OLD) in Hl; [|assumption].
    rewrite String.eqb_refl in Hl. cbn in Hl.
    apply owns_false in Hl. contradiction.
Qed.

Lemma unique_positions {K} (col : aluno -> K) (l : list aluno)
    (i j : nat) (r1 r2 : aluno) :
  NoDup (map col l) ->
  nth_error l i = Some r1 -> nth_error l j = Some r2 -> i <> j ->
  col r1 <> col r2.
Proof.
  intros H H1 H2 Hij Heq. apply Hij.
  apply (proj1 (NoDup_nth_error (map col l)) H).
  - rewrite length_map. apply nth_error_Some. congruence.
  - rewrite !nth_error_map, H1, H2. cbn. congruence.
Qed.

(** C4. In every reachable state two rows of [alunos] at different positions
    differ in email and in registration code.  An insert whose email or
    registration code is that of a row of the table is aborted, and so is an
    update by its owner of a row to the email or registration code of another
    row; the store is then as it was. *)
Theorem alunos_email_and_matricula_unique :
  forall d : database, reachable d ->
    (forall i j r1 r2,
       nth_error (alunos d) i = Some r1 -> nth_error (alunos d) j = Some r2 ->
       i <> j -> email r1 <> email r2 /\ matricula r1 <> matricula r2) /\
    (forall e p r,
       In r (alunos d) ->
       email r = ins_email p \/ matricula r = ins_matricula p ->
       (exists err, execute e (InsertAluno p) d = Error err) /\
       state_after d (execute e (InsertAluno p) d) = d) /\
    (forall e p OLD r,
       In OLD (alunos d) -> auth_uid e = Some (criado_por OLD) ->
       In r (alunos d) -> r <> OLD ->
       set_email p = Some (email r) \/ set_matricula p = Some (matricula r) ->
       (exists err, execute e (UpdateAluno p (aluno_id OLD)) d = Error err) /\
       state_after d (execute e (UpdateAluno p (aluno_id OLD)) d) = d).
Proof.
  intros d Hd. pose proof (reachable_unique d Hd) as Hu.
  repeat apply conj.
  - intros i j r1 r2 H1 H2 Hij. destruct Hu as (_ & He & Hm).
    split; now apply unique_positions with (alunos d) i j.
  - intros e p r Hr Hdup. cbn [execute].
    destruct (insert_aluno_duplicate (auth_uid e) (gen_random_uuid e) (now e)
                p d r Hr Hdup) as [err ->].
    split; [now exists err | reflexivity].
  - intros e p OLD r HOLD He Hr Hne Hdup. cbn [execute].
    destruct (update_aluno_duplicate (auth_uid e) (now e) p d OLD r
                Hu HOLD He Hr Hne Hdup) as [err ->].
    split; [now exists err | reflexivity].
Qed.

(** ** Validation of the form *)

Section Validation.

Variable email_regex : text -> bool.
Variable defaultErrorMap : ZodIssueCode -> string.

Ltac reduce :=
  cbn -[Nat.ltb Nat.leb trim parseInt Z.ltb Z.gtb List.length].
Tactic Notation "reduce" "in" hyp(H) :=
  cbn -[Nat.ltb Nat.leb trim parseInt Z.ltb Z.gtb List.length] in H.

(** The schema of each field raises the issues of the field's violated
    rules, in the order of the rules. *)
Lemma nome_issues (f : AlunoFormData) :
  ZodString_parse email_regex defaultErrorMap "nome" alunoSchema_nome (form_nome f) =
  (trim (form_nome f),
   map (rule_issue defaultErrorMap) (filter (violates email_regex f) [nome_min_2; nome_max_100])).
Proof.
  reduce. destruct (List.length (trim (form_nome f)) <? 2)%nat,
         (100 <? List.length (trim (form_nome f)))%nat; reflexivity.
Qed.

Lemma email_issues (f : AlunoFormData) :
  ZodString_parse email_regex defaultErrorMap "email" alunoSchema_email (form_email f) =
  (trim (form_email f),
   map (rule_issue defaultErrorMap) (filter (violates email_regex f) [email_well_formed; email_max_255])).
Proof.
  reduce. destruct (email_regex (trim (form_email f))),
         (255 <? List.length (trim (form_email f)))%nat; reflexivity.
Qed.

Lemma matricula_issues (f : AlunoFormData) :
  ZodString_parse email_regex defaultErrorMap "matricula" alunoSchema_matricula
    (form_matricula f) =
  (trim (form_matricula f),
   map (rule_issue defaultErrorMap) (filter (violates email_regex f) [matricula_min_3; matricula_max_50])).
Proof.
  reduce. destruct (List.length (trim (form_matricula f)) <? 3)%nat,
         (50 <? List.length (trim (form_matricula f)))%nat; reflexivity.
Qed.

Lemma idade_issues (f : AlunoFormData) :
  ZodNumber_parse defaultErrorMap "idade" alunoSchema_idade (parseInt (form_idade f)) =
  map (rule_issue defaultErrorMap)
    (filter (violates email_regex f)
       [idade_is_number; idade_is_integer; idade_min_1; idade_max_150]).
Proof.
  reduce. destruct (parseInt (form_idade f)) as [|z|[|]]; reduce;
    [reflexivity| |reflexivity..].
  destruct (z <? 1), (z >? 150); reflexivity.
Qed.

(** The outcome of the schema on a submitted form: valid with the trimmed
    strings when no rule is violated, and otherwise the issues of the
    violated rules in the order of the rules. *)
Lemma alunoSchema_parse_submitted (f : AlunoFormData) :
  alunoSchema_parse email_regex defaultErrorMap (submitted f) =
  match map (rule_issue defaultErrorMap) (filter (violates email_regex f) rules_in_order) with
  | [] => Valid {| v_nome := trim (form_nome f);
                  v_email := trim (form_email f);
                  v_matricula := trim (form_matricula f);
                  v_idade := parseInt (form_idade f) |}
  | first :: rest => ZodError first rest
  end.
Proof.
  unfold alunoSchema_parse, submitted.
  cbv beta iota delta [in_nome in_email in_matricula in_idade].
  rewrite nome_issues, email_issues, matricula_issues, idade_issues.
  cbv beta iota zeta.
  rewrite <- !map_app, <- !filter_app. reflexivity.
Qed.

Lemma first_violated_rule_head (f : AlunoFormData) :
  first_violated_rule email_regex f = hd_error (filter (violates email_regex f) rules_in_order).
Proof.
  unfold first_violated_rule.
  induction rules_in_order as [|r l IH]; cbn [find filter hd_error]; [reflexivity|].
  now destruct (violates email_regex f r).
Qed.

Lemma no_rule_violated (f : AlunoFormData) :
  filter (violates email_regex f) rules_in_order = [] <->
  (2 <= List.length (trim (form_nome f)) <= 100)%nat /\
  email_regex (trim (form_email f)) = true /\
  (List.length (trim (form_email f)) <= 255)%nat /\
  (3 <= List.length (trim (form_matricula f)) <= 50)%nat /\
  exists a, parseInt (form_idade f) = Finite a /\ 1 <= a <= 150.
Proof.
  split.
  - intros H.
    assert (Hall : forall r, In r rules_in_order -> violates email_regex f r = false).
    { intros r Hr. destruct (violates email_regex f r) eqn:Hv; [|reflexivity].
      assert (In r (filter (violates email_regex f) rules_in_order)) by (apply filter_In; now split).
      rewrite H in *. contradiction. }
    pose proof (Hall nome_min_2) as H1. pose proof (Hall nome_max_100) as H2.
    pose proof (Hall email_well_formed) as H3. pose proof (Hall email_max_255) as H4.
    pose proof (Hall matricula_min_3) as H5. pose proof (Hall matricula_max_50) as H6.
    pose proof (Hall idade_is_number) as H7. pose proof (Hall idade_is_integer) as H8.
    pose proof (Hall idade_min_1) as H9. pose proof (Hall idade_max_150) as H10.
    reduce in H1. reduce in H2. reduce in H3. reduce in H4. reduce in H5.
    reduce in H6. reduce in H7. reduce in H8. reduce in H9. reduce in H10.
    specialize (H1 ltac:(tauto)). specialize (H2 ltac:(tauto)).
    specialize (H3 ltac:(tauto)). specialize (H4 ltac:(tauto)).
    specialize (H5 ltac:(tauto)). specialize (H6 ltac:(tauto)).
    specialize (H7 ltac:(tauto)). specialize (H8 ltac:(tauto)).
    specialize (H9 ltac:(tauto)). specialize (H10 ltac:(tauto)).
    apply Nat.ltb_ge in H1, H2, H4, H5, H6. apply negb_false_iff in H3.
    repeat split; try assumption.
    destruct (parseInt (form_idade f)) as [|a|[|]]; try discriminate.
    exists a. reduce in H9. reduce in H10. split; [reflexivity|].
    apply Z.ltb_ge in H9. rewrite Z.gtb_ltb in H10. apply Z.ltb_ge in H10. lia.
  - intros ([H1 H2] & H3 & H4 & [H5 H6] & a & Ha & H9 & H10).
    reduce. rewrite Ha, H3. reduce.
    apply Nat.ltb_ge in H1, H2, H4, H5, H6. rewrite H1, H2, H4, H5, H6.
    assert ((a <? 1) = false) as -> by (apply Z.ltb_ge; lia).
    assert ((a >? 150) = false) as ->
        by (rewrite Z.gtb_ltb; apply Z.ltb_ge; lia).
    reflexivity.
Qed.

(** A validated age is an integer from 1 to 150, and [json_integer] sends it
    as it is. *)
Lemma validated_idade (f : AlunoFormData) (v : validated) :
  alunoSchema_parse email_regex defaultErrorMap (submitted f) = Valid v ->
  exists a, v_idade v = Finite a /\ json_integer (v_idade v) = a /\ 1 <= a <= 150.
Proof.
  rewrite alunoSchema_parse_submitted.
  destruct (filter (violates email_regex f) rules_in_order) as [|r l] eqn:Hb;
    cbn [map]; [|discriminate].
  intros [= <-]. apply no_rule_violated in Hb as (_ & _ & _ & _ & a & Ha & Hr).
  exists a. cbn [v_idade]. rewrite Ha. now repeat split.
Qed.

(** C5, as amended.  The form is accepted exactly when, of the name, the
    email and the registration code without the white space around them,
    the name has 2 to 100 code units, the email matches the pattern and has
    at most 255 and the registration code has 3 to 50, and [parseInt] reads
    in the age field an integer from 1 to 150.  When a rule is violated,
    [handleSubmit] shows the message of the first violated rule and nothing
    else happens: no request is sent and the store is as it was. *)
Theorem alunoSchema_accepts_iff_rules :
  forall f : AlunoFormData,
    ((exists v, alunoSchema_parse email_regex defaultErrorMap (submitted f) = Valid v) <->
     (2 <= List.length (trim (form_nome f)) <= 100)%nat /\
     email_regex (trim (form_email f)) = true /\
     (List.length (trim (form_email f)) <= 255)%nat /\
     (3 <= List.length (trim (form_matricula f)) <= 50)%nat /\
     exists a, parseInt (form_idade f) = Finite a /\ 1 <= a <= 150) /\
    ((exists v, alunoSchema_parse email_regex defaultErrorMap (submitted f) = Valid v) <->
     first_violated_rule email_regex f = None) /\
    (forall r e aluno d,
       first_violated_rule email_regex f = Some r ->
       handleSubmit email_regex defaultErrorMap e aluno f d =
       ([toast_error (issue_message (rule_issue defaultErrorMap r))], d)).
Proof.
  intros f.
  assert (Hacc : (exists v, alunoSchema_parse email_regex defaultErrorMap (submitted f) = Valid v) <-> filter (violates email_regex f) rules_in_order = []).
  { rewrite alunoSchema_parse_submitted.
    destruct (filter (violates email_regex f) rules_in_order) as [|r l];
      cbn [map]; split; eauto; try discriminate.
    intros [v Hv]. discriminate. }
  repeat apply conj.
  - intros H. now apply no_rule_violated, Hacc.
  - intros H. now apply Hacc, no_rule_violated.
  - intros H. rewrite first_violated_rule_head. apply Hacc in H. now rewrite H.
  - intros H. apply Hacc. rewrite first_violated_rule_head in H.
    now destruct (filter (violates email_regex f) rules_in_order).
  - intros r e aluno d Hr. unfold handleSubmit.
    change {| in_nome := form_nome f; in_email := form_email f;
              in_matricula := form_matricula f;
              in_idade := parseInt (form_idade f) |} with (submitted f).
    rewrite alunoSchema_parse_submitted.
    rewrite first_violated_rule_head in Hr.
    destruct (filter (violates email_regex f) rules_in_order) as [|r' l]; [discriminate|].
    cbn in Hr. injection Hr as ->. reflexivity.
Qed.

End Validation.

(** ** Timestamps *)

Lemma NoDup_map_injective {A K} (f : A -> K) (l : list A) (x y : A) :
  NoDup (map f l) -> In x l -> In y l -> f x = f y -> x = y.
Proof.
  induction l as [|z l IH]; cbn; [tauto|].
  intros H Hx Hy Hxy. apply NoDup_cons_iff in H as [Hz Hl].
  destruct Hx as [->|Hx], Hy as [->|Hy]; auto.
  - exfalso. apply Hz. rewrite Hxy. now apply in_map.
  - exfalso. apply Hz. rewrite <- Hxy. now apply in_map.
Qed.

Lemma update_aluno_row (uid : option uuid) (t : timestamptz) (p : aluno_update)
    (target : uuid) (d d' : database) :
  update_aluno uid t p target d = Ok d' ->
  d' = d \/
  exists before OLD after NEW,
    alunos d = before ++ OLD :: after /\
    alunos d' = before ++ NEW :: after /\
    aluno_id OLD = target /\ uid = Some (criado_por OLD) /\
    NEW = update_updated_at_column t (apply_update p OLD).
Proof.
  intros H. unfold update_aluno in H. do 3 (apply check_ok in H as [_ H]).
  destruct (locate _ (alunos d)) as [[[before OLD] after]|] eqn:Hl.
  - right. apply locate_some in Hl as [Hl Hf].
    apply andb_true_iff in Hf as [Hid Hown].
    apply String.eqb_eq in Hid. apply owns_true in Hown.
    cbv zeta in H. do 8 (apply check_ok in H as [_ H]). injection H as <-.
    exists before, OLD, after. eexists. repeat split; eauto.
  - left. now injection H.
Qed.

(** An update that succeeds on an id of which the requester owns a row has
    replaced such a row. *)
Lemma update_aluno_seen (uid : option uuid) (t : timestamptz) (p : aluno_update)
    (target : uuid) (d d' : database) (r : aluno) :
  update_aluno uid t p target d = Ok d' ->
  In r (alunos d) -> aluno_id r = target -> uid = Some (criado_por r) ->
  exists before OLD after NEW,
    alunos d = before ++ OLD :: after /\
    alunos d' = before ++ NEW :: after /\
    aluno_id OLD = target /\ uid = Some (criado_por OLD) /\
    NEW = update_updated_at_column t (apply_update p OLD) /\
    (NoDup (map aluno_id (alunos d)) -> OLD = r).
Proof.
  intros H Hr Hid Hu. unfold update_aluno in H.
  do 3 (apply check_ok in H as [_ H]).
  destruct (locate _ (alunos d)) as [[[before OLD] after]|] eqn:Hl.
  - apply locate_some in Hl as [Hl Hf].
    apply andb_true_iff in Hf as [Hid' Hown].
    apply String.eqb_eq in Hid'. apply owns_true in Hown.
    cbv zeta in H. do 8 (apply check_ok in H as [_ H]). injection H as <-.
    exists before, OLD, after. eexists. repeat split; eauto.
    intros Hnd. apply (NoDup_map_injective aluno_id (alunos d)); try assumption.
    + rewrite Hl. apply in_elt.
    + congruence.
  - exfalso. apply locate_none_inv with (x := r) in Hl; [|assumption].
    rewrite Hid, String.eqb_refl in Hl. cbn in Hl.
    apply owns_false in Hl. contradiction.
Qed.

Lemma update_aluno_unseen (uid : option uuid) (t : timestamptz)
    (p : aluno_update) (target : uuid) (d d' : database) :
  update_aluno uid t p target d = Ok d' ->
  (forall r, In r (alunos d) -> aluno_id r = target -> uid <> Some (criado_por r)) ->
  d' = d.
Proof.
  intros H Hno.
  pose proof (update_aluno_not_visible uid t p target d Hno) as Hsame.
  now rewrite H in Hsame.
Qed.

Lemma is_self_true (uid : option uuid) (p : profile) :
  is_self uid p = true <-> uid = Some (profile_id p).
Proof.
  unfold is_self. destruct uid as [u|].
  - rewrite String.eqb_eq. split; congruence.
  - split; discriminate.
Qed.

Lemma update_profile_row (uid : option uuid) (t : timestamptz)
    (p : profile_update) (target : uuid) (d d' : database) :
  update_profile uid t p target d = Ok d' ->
  d' = d \/
  exists before OLD after NEW,
    profiles d = before ++ OLD :: after /\
    profiles d' = before ++ NEW :: after /\
    profile_id OLD = target /\ uid = Some (profile_id OLD) /\
    NEW = update_updated_at_column t (apply_profile_update p OLD).
Proof.
  intros H. unfold update_profile in H.
  destruct (locate _ (profiles d)) as [[[before OLD] after]|] eqn:Hl.
  - right. apply locate_some in Hl as [Hl Hf].
    apply andb_true_iff in Hf as [Hid Hown].
    apply String.eqb_eq in Hid. apply is_self_true in Hown.
    cbv zeta in H. do 5 (apply check_ok in H as [_ H]). injection H as <-.
    exists before, OLD, after. eexists. repeat split; eauto.
  - left. now injection H.
Qed.

Lemma update_profile_seen (uid : option uuid) (t : timestamptz)
    (p : profile_update) (target : uuid) (d d' : database) (r : profile) :
  update_profile uid t p target d = Ok d' ->
  In r (profiles d) -> profile_id r = target -> uid = Some (profile_id r) ->
  exists before OLD after NEW,
    profiles d = before ++ OLD :: after /\
    profiles d' = before ++ NEW :: after /\
    profile_id OLD = target /\ uid = Some (profile_id OLD) /\
    NEW = update_updated_at_column t (apply_profile_update p OLD) /\
    (NoDup (map profile_id (profiles d)) -> OLD = r).
Proof.
  intros H Hr Hid Hu. unfold update_profile in H.
  destruct (locate _ (profiles d)) as [[[before OLD] after]|] eqn:Hl.
  - apply locate_some in Hl as [Hl Hf].
    apply andb_true_iff in Hf as [Hid' Hown].
    apply String.eqb_eq in Hid'. apply is_self_true in Hown.
    cbv zeta in H. do 5 (apply check_ok in H as [_ H]). injection H as <-.
    exists before, OLD, after. eexists. repeat split; eauto.
    intros Hnd. apply (NoDup_map_injective profile_id (profiles d)); try assumption.
    + rewrite Hl. apply in_elt.
    + congruence.
  - exfalso. apply locate_none_inv with (x := r) in Hl; [|assumption].
    rewrite Hid, String.eqb_refl in Hl. cbn in Hl.
    unfold Users_can_update_their_own_profile in Hl.
    apply is_self_true in Hu. congruence.
Qed.

Lemma update_profile_unseen (uid : option uuid) (t : timestamptz)
    (p : profile_update) (target : uuid) (d d' : database) :
  update_profile uid t p target d = Ok d' ->
  (forall r, In r (profiles d) -> profile_id r = target ->
             uid <> Some (profile_id r)) ->
  d' = d.
Proof.
  intros H Hno. unfold update_profile in H. rewrite locate_none in H.
  - now injection H.
  - intros r Hr. destruct (String.eqb_spec (profile_id r) target) as [Hid|];
      [|reflexivity].
    cbn. unfold Users_can_update_their_own_profile.
    destruct (is_self uid r) eqn:Hs; [|reflexivity].
    apply is_self_true in Hs. now apply Hno in Hs.
Qed.

(** C8, as amended.  An update by id that succeeds changes nothing when the
    requester owns no row of the id, and when the requester owns one it
    replaces a row of the id, of the requester (the row itself when no two
    rows share an id, as in every reachable state), by a row whose
    [updated_at] is the time of the statement, whatever the payload gives
    for it; the row's [created_at] is the payload's when the payload sets it
    and the row's own otherwise.  This holds for students and for
    profiles. *)
Theorem update_refreshes_updated_at :
  forall (e : env) (d d' : database),
    (forall p target,
       execute e (UpdateAluno p target) d = Ok d' ->
       ((forall r, In r (alunos d) -> aluno_id r = target ->
                   auth_uid e <> Some (criado_por r)) -> d' = d) /\
       (forall r, In r (alunos d) -> aluno_id r = target ->
                  auth_uid e = Some (criado_por r) ->
          exists before OLD after NEW,
            alunos d = before ++ OLD :: after /\
            alunos d' = before ++ NEW :: after /\
            aluno_id OLD = target /\ auth_uid e = Some (criado_por OLD) /\
            (NoDup (map aluno_id (alunos d)) -> OLD = r) /\
            updated_at NEW = now e /\
            created_at NEW = default (set_created_at p) (created_at OLD))) /\
    (forall p target,
       execute e (UpdateProfile p target) d = Ok d' ->
       ((forall r, In r (profiles d) -> profile_id r = target ->
                   auth_uid e <> Some (profile_id r)) -> d' = d) /\
       (forall r, In r (profiles d) -> profile_id r = target ->
                  auth_uid e = Some (profile_id r) ->
          exists before OLD after NEW,
            profiles d = before ++ OLD :: after /\
            profiles d' = before ++ NEW :: after /\
            profile_id OLD = target /\ auth_uid e = Some (profile_id OLD) /\
            (NoDup (map profile_id (profiles d)) -> OLD = r) /\
            profile_updated_at NEW = now e /\
            profile_created_at NEW =
              default (pset_created_at p) (profile_created_at OLD))).
Proof.
  intros e d d'. split; intros p target H; cbn [execute] in H; split.
  - now apply (update_aluno_unseen _ _ _ _ _ _ H).
  - intros r Hr Hid Hu.
    destruct (update_aluno_seen _ _ _ _ _ _ r H Hr Hid Hu)
      as (before & OLD & after & NEW & H1 & H2 & H3 & H4 & -> & H5).
    exists before, OLD, after. eexists. repeat split; eauto.
  - now apply (update_profile_unseen _ _ _ _ _ _ H).
  - intros r Hr Hid Hu.
    destruct (update_profile_seen _ _ _ _ _ _ r H Hr Hid Hu)
      as (before & OLD & after & NEW & H1 & H2 & H3 & H4 & -> & H5).
    exists before, OLD, after. eexists. repeat split; eauto.
Qed.

(** ** Provisioning of profiles *)

Lemma no_profile_with_id (x : uuid) (l : list profile) :
  has_profile x l = false ->
  filter (fun p => String.eqb (profile_id p) x) l = [].
Proof.
  unfold has_profile. induction l as [|p l IH]; cbn; [reflexivity|].
  intros H. apply orb_false_iff in H as [-> H]. auto.
Qed.

(** The member [->>] reads under a key is the first one of the object with
    that key. *)
Lemma json_get_text_member (key : text) (v : jsonb_value)
    (pre post : list (text * jsonb_value)) :
  ~ In key (map fst pre) ->
  json_get_text (Some (pre ++ (key, v) :: post)) key =
  match v with
  | JNull => None
  | JString s => Some s
  | JOther t => Some t
  end.
Proof.
  intros Hpre. unfold json_get_text.
  assert (H : json_field key (pre ++ (key, v) :: post) = Some v).
  { induction pre as [|[k w] pre IH]; cbn.
    - now destruct (text_eq_dec key key).
    - destruct (text_eq_dec k key) as [->|_].
      + exfalso. apply Hpre. now left.
      + apply IH. intros Hin. apply Hpre. now right. }
  rewrite H. now destruct v.
Qed.

Lemma json_get_text_absent (key : text) (o : list (text * jsonb_value)) :
  ~ In key (map fst o) -> json_get_text (Some o) key = None.
Proof.
  intros Ho. unfold json_get_text.
  assert (H : json_field key o = None).
  { induction o as [|[k w] o IH]; cbn; [reflexivity|].
    destruct (text_eq_dec k key) as [->|_].
    - exfalso. apply Ho. now left.
    - apply IH. intros Hin. apply Ho. now right. }
  now rewrite H.
Qed.

(** C9. When the creation of an identity succeeds, the identity's row is
    added and one profile is added with it: the only profile with the
    identity's id, with the identity's email, and with the name the signup
    metadata hold under the key nome.  The name is the text of the first
    member of the metadata with that key when it is a string, the member's
    JSON text when it is a number, a boolean, an array or an object, and the
    empty text when the member is null, when no member has the key and when
    there are no metadata.  Nothing else changes.  When [handle_new_user]
    fails on the new identity, the creation fails. *)
Theorem create_identity_provisions_profile :
  forall (t : timestamptz) (u : auth_user) (d : database),
    (forall d', create_identity t u d = Ok d' ->
       auth_users d' = auth_users d ++ [u] /\
       alunos d' = alunos d /\
       exists p,
         profiles d' = profiles d ++ [p] /\
         filter (fun x => String.eqb (profile_id x) (user_id u)) (profiles d') = [p] /\
         profile_id p = user_id u /\
         user_email u = Some (profile_email p) /\
         profile_created_at p = t /\
         profile_updated_at p = t /\
         (forall pre v post,
            raw_user_meta_data u = Some (pre ++ (js "nome", v) :: post) ->
            ~ In (js "nome") (map fst pre) ->
            profile_nome p = match v with
                             | JString s => s
                             | JOther json => json
                             | JNull => []
                             end) /\
         (forall o, raw_user_meta_data u = Some o ->
                    ~ In (js "nome") (map fst o) -> profile_nome p = []) /\
         (raw_user_meta_data u = None -> profile_nome p = [])) /\
    (forall err,
       handle_new_user t u (with_auth_users d (auth_users d ++ [u])) = Error err ->
       exists err', create_identity t u d = Error err').
Proof.
  intros t u d. split.
  - intros d' H. unfold create_identity in H. apply check_ok in H as [_ H].
    unfold handle_new_user in H.
    destruct (user_email u) as [address|] eqn:Hmail; [|discriminate].
    apply check_ok in H as [Hpk H]. apply check_ok in H as [_ H].
    apply check_ok in H as [_ H]. injection H as <-.
    cbn [auth_users alunos profiles with_profiles with_auth_users].
    repeat split. eexists. split; [reflexivity|].
    rewrite filter_app, no_profile_with_id by now apply negb_true_iff.
    cbn [filter profile_id app]. rewrite String.eqb_refl.
    cbn [profile_id profile_nome profile_email profile_created_at
         profile_updated_at].
    repeat split.
    + intros pre v post -> Hpre. rewrite json_get_text_member by assumption.
      now destruct v.
    + intros o -> Ho. now rewrite json_get_text_absent.
    + now intros ->.
  - intros err H. unfold create_identity.
    destruct (negb (has_user (user_id u) (auth_users d))); cbn [guard bind].
    + rewrite H. now exists err.
    + eexists. reflexivity.
Qed.

(** ** What the edit form can change *)

Lemma update_aluno_frame (uid : option uuid) (t : timestamptz)
    (p : aluno_update) (target : uuid) (d : database) :
  set_id p = None -> set_criado_por p = None -> set_created_at p = None ->
  map identity_columns (alunos (state_after d (update_aluno uid t p target d))) =
  map identity_columns (alunos d).
Proof.
  intros Hi Ho Hc.
  destruct (update_aluno uid t p target d) as [d'|err] eqn:H; [|reflexivity].
  cbn [state_after]. apply update_aluno_row in H
    as [->|(before & OLD & after & NEW & H1 & H2 & _ & _ & ->)]; [reflexivity|].
  rewrite H1, H2, !map_app. cbn [map]. do 2 f_equal.
  unfold identity_columns. cbn. now rewrite Hi, Ho, Hc.
Qed.

(** Reporting an error sends nothing. *)
Lemma report_error_no_request (generic error_message : string) (q : request) :
  ~ In (store_request q) (report_error generic error_message).
Proof.
  unfold report_error.
  destruct (includes error_message "duplicate key");
    [destruct (includes error_message "email");
       [|destruct (includes error_message "matricula")]|];
    cbn; intuition discriminate.
Qed.

Section Form.

Variable email_regex : text -> bool.
Variable defaultErrorMap : ZodIssueCode -> string.

(** C10. Submitting the edit form sends at most an update of the edited
    student's id whose payload sets the four validated fields (the trimmed
    name, email and registration code and the age) and no other column; the
    id, owner and creation time of every row are the same afterwards. *)
Theorem handleSubmit_edit_payload :
  forall (e : env) (a : aluno) (f : AlunoFormData) (d : database),
    let outcome := handleSubmit email_regex defaultErrorMap e (Some a) f d in
    (forall q, In (store_request q) (fst outcome) ->
       exists v, alunoSchema_parse email_regex defaultErrorMap (submitted f) = Valid v /\
                 q = edit_request a v) /\
    map identity_columns (alunos (snd outcome)) = map identity_columns (alunos d).
Proof.
  intros e a f d. cbv zeta. unfold handleSubmit.
  change {| in_nome := form_nome f; in_email := form_email f;
            in_matricula := form_matricula f;
            in_idade := parseInt (form_idade f) |} with (submitted f).
  destruct (alunoSchema_parse email_regex defaultErrorMap (submitted f))
    as [v|first rest].
  2: { cbn. split; [intros q [H|[]]; discriminate | reflexivity]. }
  destruct (auth_uid e) as [user|].
  2: { cbn. split; [intros q [H|[]]; discriminate | reflexivity]. }
  fold (edit_request a v).
  assert (Hframe : map identity_columns
                     (alunos (state_after d (execute e (edit_request a v) d))) =
                   map identity_columns (alunos d))
    by (apply update_aluno_frame; reflexivity).
  destruct (execute e (edit_request a v) d) as [d'|err]; cbn [fst snd].
  - split; [|exact Hframe].
    intros q [H|[H|[H|[H|[]]]]]; try discriminate.
    injection H as <-. now exists v.
  - split; [|reflexivity].
    intros q [H|H].
    + injection H as <-. now exists v.
    + now apply report_error_no_request in H.
Qed.

(** Without a signed-in user [handleSubmit] sends nothing to the store. *)
Lemma handleSubmit_unauthenticated (e : env) (aluno : option aluno)
    (f : AlunoFormData) (d : database) :
  auth_uid e = None ->
  snd (handleSubmit email_regex defaultErrorMap e aluno f d) = d /\
  forall q, ~ In (store_request q)
              (fst (handleSubmit email_regex defaultErrorMap e aluno f d)).
Proof.
  intros He. unfold handleSubmit. rewrite He.
  destruct (alunoSchema_parse _ _ _); cbn;
    (split; [reflexivity | intros q [H|[]]; discriminate]).
Qed.

End Form.

(** ** Messages for the errors of the store *)

(** A conflict on the email or on the registration code is reported by the
    message of the field. *)
Lemma report_error_conflict (generic : string) :
  report_error generic (message (unique_violation alunos_email_key)) =
    [toast_error "Este email já está cadastrado"] /\
  report_error generic (message (unique_violation alunos_matricula_key)) =
    [toast_error "Esta matrícula já está cadastrada"].
Proof. split; reflexivity. Qed.

(** The errors of the policy, of the CHECK constraint and of the foreign key
    are reported by the generic message. *)
Lemma report_error_generic (generic : string) (t : table_name) (c : constraint_name) :
  report_error generic (message (insufficient_privilege t)) = [toast_error generic] /\
  report_error generic (message (check_violation t c)) = [toast_error generic] /\
  report_error generic (message (foreign_key_violation t c)) = [toast_error generic].
Proof. repeat split; destruct t; try destruct c; reflexivity. Qed.

(** Why the id drawn for a new student is taken to be new, as
    [gen_random_uuid()] makes it: were it that of a stored student, the
    store would answer with the violation of the primary key, whose text
    names neither the email nor the registration code, and [handleSubmit]
    would show no message at all. *)
Lemma primary_key_conflict_shows_no_message :
  let e := session (Some "ana") 12 "s1" in
  let q := InsertAluno (student "Rui Lima" "rui@x.com" "M002" 31 "ana") in
  execute e q one_student = Error (unique_violation alunos_pkey) /\
  report_error "Erro ao criar aluno" (message (unique_violation alunos_pkey)) = [] /\
  handleSubmit sample_email_regex sample_errorMap e None
    (form "Rui Lima" "rui@x.com" "M002" "31") one_student =
  ([store_request q], one_student).
Proof. cbv zeta. repeat split; vm_compute; reflexivity. Qed.

(** ** Mutations without a signed-in user *)

(** [handleDelete] sends its request whoever is signed in. *)
Lemma handleDelete_sends_request (e : env) (st : Dashboard) (d : database)
    (target : uuid) :
  alunoToDelete st = Some target -> target <> EmptyString ->
  exists rest, fst (fst (handleDelete e st d)) = store_request (DeleteAluno target) :: rest.
Proof.
  intros Ht Hne. unfold handleDelete. rewrite Ht. cbn [falsy].
  destruct (String.eqb_spec target EmptyString) as [|_]; [contradiction|].
  cbn. eauto.
Qed.

(** C7, at the input where it fails.  Nobody is signed in and a student is
    marked for deletion: [handleDelete] sends the delete to the store (which
    removes nothing), announces success and fetches the list again. *)
Theorem handleDelete_unauthenticated_reaches_store :
  let e := session None 12 "s9" in
  let st := {| shown_alunos := [row_of_ana]; alunoToDelete := Some "s1";
               deleteDialogOpen := true |} in
  handleDelete e st one_student =
  ([store_request (DeleteAluno "s1");
    toast_success "Aluno excluído com sucesso!";
    store_request SelectAlunos],
   {| shown_alunos := []; alunoToDelete := None; deleteDialogOpen := false |},
   one_student).
Proof. vm_compute. reflexivity. Qed.

(** ** The age 150 *)

(** C3, at the input where it fails.  The form accepts the age 150 and sends
    the insert; the table's CHECK refuses the row and the user is told that
    the student could not be created. *)
Theorem idade_150_passes_form_fails_check :
  let e := session (Some "ana") 12 "s3" in
  let q := InsertAluno (student "Rui Lima" "rui@x.com" "M002" 150 "ana") in
  first_violated_rule sample_email_regex (form "Rui Lima" "rui@x.com" "M002" "150") = None /\
  execute e q one_student = Error (check_violation tbl_alunos alunos_idade_check) /\
  handleSubmit sample_email_regex sample_errorMap e None
    (form "Rui Lima" "rui@x.com" "M002" "150") one_student =
  ([store_request q; toast_error "Erro ao criar aluno"], one_student) /\
  (exists d', execute e (InsertAluno (student "Rui Lima" "rui@x.com" "M002" 149 "ana"))
                one_student = Ok d').
Proof.
  cbv zeta. repeat split; try (vm_compute; reflexivity).
  eexists. vm_compute. reflexivity.
Qed.

(** * Further properties of the store *)

(** ** What a statement that succeeded has checked *)

Lemma has_profile_spec (x : uuid) (l : list profile) :
  has_profile x l = true <-> In x (map profile_id l).
Proof.
  unfold has_profile. rewrite existsb_exists, in_map_iff.
  split; intros (r & H1 & H2); exists r.
  - now apply String.eqb_eq in H2.
  - split; [assumption|]. now apply String.eqb_eq.
Qed.

Lemma has_user_spec (x : uuid) (l : list auth_user) :
  has_user x l = true <-> In x (map user_id l).
Proof.
  unfold has_user. rewrite existsb_exists, in_map_iff.
  split; intros (r & H1 & H2); exists r.
  - now apply String.eqb_eq in H2.
  - split; [assumption|]. now apply String.eqb_eq.
Qed.

Lemma has_profile_email_spec (x : text) (l : list profile) :
  has_profile_email x l = true <-> In x (map profile_email l).
Proof.
  unfold has_profile_email. rewrite existsb_exists, in_map_iff.
  split; intros (r & H1 & H2); exists r.
  - now destruct (text_eq_dec (profile_email r) x).
  - split; [assumption|]. now destruct (text_eq_dec (profile_email r) x).
Qed.

Lemma insert_aluno_ok (uid : option uuid) (gen : uuid) (t : timestamptz)
    (p : aluno_insert) (d d' : database) :
  insert_aluno uid gen t p d = Ok d' ->
  d' = with_alunos d (alunos d ++ [new_aluno gen t p]) /\
  uid = Some (ins_criado_por p) /\
  1 <= ins_idade p <= 149 /\
  ~ In (default (ins_id p) gen) (map aluno_id (alunos d)) /\
  ~ In (ins_email p) (map email (alunos d)) /\
  ~ In (ins_matricula p) (map matricula (alunos d)) /\
  In (ins_criado_por p) (map profile_id (profiles d)).
Proof.
  intros H. unfold insert_aluno in H. cbv zeta in H.
  do 3 (apply check_ok in H as [_ H]). apply check_ok in H as [Co H].
  apply check_ok in H as [Ca H]. apply check_ok in H as [Ci H].
  apply check_ok in H as [Ce H]. apply check_ok in H as [_ H].
  apply check_ok in H as [Cm H]. apply check_ok in H as [_ H].
  apply check_ok in H as [Cp H]. injection H as <-.
  apply owns_true in Co. apply idade_check_true in Ca.
  apply (negb_has _ _ (has_id_spec _ _)) in Ci.
  apply (negb_has _ _ (has_email_spec _ _)) in Ce.
  apply (negb_has _ _ (has_matricula_spec _ _)) in Cm.
  apply has_profile_spec in Cp.
  repeat split; assumption || apply Ca.
Qed.

Lemma update_aluno_ok (uid : option uuid) (t : timestamptz) (p : aluno_update)
    (target : uuid) (d d' : database) :
  update_aluno uid t p target d = Ok d' ->
  d' = d \/
  exists before OLD after,
    let NEW := update_updated_at_column t (apply_update p OLD) in
    alunos d = before ++ OLD :: after /\
    d' = with_alunos d (before ++ NEW :: after) /\
    aluno_id OLD = target /\
    uid = Some (criado_por OLD) /\ uid = Some (criado_por NEW) /\
    1 <= idade NEW <= 149 /\
    ~ In (aluno_id NEW) (map aluno_id (before ++ after)) /\
    ~ In (email NEW) (map email (before ++ after)) /\
    ~ In (matricula NEW) (map matricula (before ++ after)) /\
    In (criado_por NEW) (map profile_id (profiles d)).
Proof.
  intros H. unfold update_aluno in H. do 3 (apply check_ok in H as [_ H]).
  destruct (locate _ (alunos d)) as [[[before OLD] after]|] eqn:Hl;
    [|left; now injection H].
  right. apply locate_some in Hl as [Hl Hf].
  apply andb_true_iff in Hf as [Hid Hown].
  apply String.eqb_eq in Hid. apply owns_true in Hown.
  cbv zeta in H.
  apply check_ok in H as [Co H]. apply check_ok in H as [Ca H].
  apply check_ok in H as [Ci H]. apply check_ok in H as [Ce H].
  apply check_ok in H as [_ H]. apply check_ok in H as [Cm H].
  apply check_ok in H as [_ H]. apply check_ok in H as [Cp H]. injection H as <-.
  apply owns_true in Co. apply idade_check_true in Ca.
  apply (negb_has _ _ (has_id_spec _ _)) in Ci.
  apply (negb_has _ _ (has_email_spec _ _)) in Ce.
  apply (negb_has _ _ (has_matricula_spec _ _)) in Cm.
  apply has_profile_spec in Cp.
  exists before, OLD, after. cbv zeta. repeat split; assumption || apply Ca.
Qed.

(** A statement that succeeded has read the texts of its payload. *)
Lemma insert_aluno_texts (uid : option uuid) (gen : uuid) (t : timestamptz)
    (p : aluno_insert) (d d' : database) :
  insert_aluno uid gen t p d = Ok d' -> forallb storable (ins_texts p) = true.
Proof.
  intros H. unfold insert_aluno in H. cbv zeta in H.
  apply check_ok in H as [Cw H]. apply check_ok in H as [Cn _].
  apply storable_all. split; [assumption|]. now apply negb_true_iff.
Qed.

Lemma update_aluno_texts (uid : option uuid) (t : timestamptz)
    (p : aluno_update) (target : uuid) (d d' : database) :
  update_aluno uid t p target d = Ok d' -> forallb storable (set_texts p) = true.
Proof.
  intros H. unfold update_aluno in H.
  apply check_ok in H as [Cw H]. apply check_ok in H as [Cn _].
  apply storable_all. split; [assumption|]. now apply negb_true_iff.
Qed.

Lemma handle_new_user_ok (t : timestamptz) (u : auth_user) (d d' : database) :
  handle_new_user t u d = Ok d' ->
  exists p,
    d' = with_profiles d (profiles d ++ [p]) /\
    profile_id p = user_id u /\
    user_email u = Some (profile_email p) /\
    ~ In (profile_id p) (map profile_id (profiles d)) /\
    ~ In (profile_email p) (map profile_email (profiles d)) /\
    In (profile_id p) (map user_id (auth_users d)).
Proof.
  intros H. unfold handle_new_user in H.
  destruct (user_email u) as [address|]; [|discriminate].
  apply check_ok in H as [Ci H]. apply check_ok in H as [Ce H].
  apply check_ok in H as [Cu H]. injection H as <-.
  apply (negb_has _ _ (has_profile_spec _ _)) in Ci.
  apply (negb_has _ _ (has_profile_email_spec _ _)) in Ce.
  apply has_user_spec in Cu.
  eexists. repeat split; cbn; assumption.
Qed.

Lemma create_identity_ok (t : timestamptz) (u : auth_user) (d d' : database) :
  create_identity t u d = Ok d' ->
  exists p,
    d' = {| auth_users := auth_users d ++ [u];
            profiles := profiles d ++ [p];
            alunos := alunos d |} /\
    profile_id p = user_id u /\
    user_email u = Some (profile_email p) /\
    ~ In (user_id u) (map user_id (auth_users d)) /\
    ~ In (profile_id p) (map profile_id (profiles d)) /\
    ~ In (profile_email p) (map profile_email (profiles d)).
Proof.
  intros H. unfold create_identity in H. apply check_ok in H as [Cu H].
  apply (negb_has _ _ (has_user_spec _ _)) in Cu.
  apply handle_new_user_ok in H as (p & -> & Hid & Hmail & Hi & He & _).
  exists p. repeat split; assumption.
Qed.

Lemma insert_profile_ok (uid : option uuid) (t : timestamptz)
    (p : profile_insert) (d d' : database) :
  insert_profile uid t p d = Ok d' ->
  exists NEW,
    d' = with_profiles d (profiles d ++ [NEW]) /\
    profile_id NEW = pins_id p /\
    ~ In (profile_id NEW) (map profile_id (profiles d)) /\
    ~ In (profile_email NEW) (map profile_email (profiles d)) /\
    In (profile_id NEW) (map user_id (auth_users d)).
Proof.
  intros H. unfold insert_profile in H. cbv zeta in H.
  apply check_ok in H as [_ H]. apply check_ok in H as [Ci H].
  apply check_ok in H as [Ce H]. apply check_ok in H as [Cu H]. injection H as <-.
  apply (negb_has _ _ (has_profile_spec _ _)) in Ci.
  apply (negb_has _ _ (has_profile_email_spec _ _)) in Ce.
  apply has_user_spec in Cu.
  eexists. repeat split; cbn; assumption.
Qed.

Lemma update_profile_ok (uid : option uuid) (t : timestamptz)
    (p : profile_update) (target : uuid) (d d' : database) :
  update_profile uid t p target d = Ok d' ->
  d' = d \/
  exists before OLD after,
    let NEW := update_updated_at_column t (apply_profile_update p OLD) in
    profiles d = before ++ OLD :: after /\
    d' = with_profiles d (before ++ NEW :: after) /\
    profile_id OLD = target /\
    uid = Some (profile_id OLD) /\
    profile_id NEW = profile_id OLD /\
    ~ In (profile_email NEW) (map profile_email (before ++ after)).
Proof.
  intros H. unfold update_profile in H.
  destruct (locate _ (profiles d)) as [[[before OLD] after]|] eqn:Hl;
    [|left; now injection H].
  right. apply locate_some in Hl as [Hl Hf].
  apply andb_true_iff in Hf as [Hid Hown].
  apply String.eqb_eq in Hid. apply is_self_true in Hown.
  cbv zeta in H.
  apply check_ok in H as [Co H]. apply check_ok in H as [_ H].
  apply check_ok in H as [Ce H]. apply check_ok in H as [_ H].
  apply check_ok in H as [_ H]. injection H as <-.
  apply is_self_true in Co.
  apply (negb_has _ _ (has_profile_email_spec _ _)) in Ce.
  exists before, OLD, after. cbv zeta. repeat split; try assumption.
  congruence.
Qed.

(** ** The invariants *)

Lemma map_filter_key {A K} (f : A -> K) (g : K -> bool) (l : list A) :
  map f (filter (fun x => g (f x)) l) = filter g (map f l).
Proof.
  induction l as [|x l IH]; cbn; [reflexivity|].
  destruct (g (f x)); cbn; now rewrite IH.
Qed.

Lemma NoDup_map_filter {A K} (f : A -> K) (g : A -> bool) (l : list A) :
  NoDup (map f l) -> NoDup (map f (filter g l)).
Proof.
  induction l as [|x l IH]; cbn; [trivial|].
  intros H. apply NoDup_cons_iff in H as [Hx Hl].
  destruct (g x); cbn; [|auto].
  constructor; [|auto].
  intros Hin. apply Hx. apply in_map_iff in Hin as (y & Hy & Hin).
  apply in_map_iff. exists y. split; [assumption|]. now apply filter_In in Hin.
Qed.

Lemma NoDup_map_snoc {A K} (f : A -> K) (l : list A) (x : A) :
  NoDup (map f l) -> ~ In (f x) (map f l) -> NoDup (map f (l ++ [x])).
Proof.
  intros Hl Hx. rewrite map_app. cbn.
  apply (NoDup_Add (a := f x) (l := map f l)).
  - rewrite <- (app_nil_r (map f l)) at 1. apply Add_app.
  - now split.
Qed.

Lemma NoDup_map_replace {A K} (f : A -> K) (before after : list A) (x y : A) :
  NoDup (map f (before ++ x :: after)) ->
  ~ In (f y) (map f (before ++ after)) ->
  NoDup (map f (before ++ y :: after)).
Proof.
  rewrite !map_app. cbn. intros Hl Hy.
  apply NoDup_remove_1 in Hl.
  apply (NoDup_Add (a := f y) (l := map f before ++ map f after)).
  - apply Add_app.
  - now split.
Qed.

Lemma in_replaced {A} (before after : list A) (x y z : A) :
  In z (before ++ y :: after) -> z = y \/ In z (before ++ x :: after).
Proof.
  rewrite !in_app_iff. cbn. intuition.
Qed.

Ltac split_consistent :=
  unfold consistent, idades_in_range;
  refine (conj _ (conj _ (conj _ (conj _ _)))).

Lemma create_identity_consistent (t : timestamptz) (u : auth_user)
    (d d' : database) :
  consistent d -> create_identity t u d = Ok d' -> consistent d'.
Proof.
  intros (Ha & Hf & Hu & He & Hm) H.
  apply create_identity_ok in H as (p & -> & Hid & _ & Cu & _ & Ce).
  split_consistent; cbn [auth_users profiles alunos].
  - exact Ha.
  - intros r Hr. rewrite map_app, in_app_iff. left. now apply Hf.
  - now apply NoDup_map_snoc.
  - now apply NoDup_map_snoc.
  - rewrite !map_app, Hm. cbn. now rewrite Hid.
Qed.

Lemma delete_identity_consistent (u : uuid) (d d' : database) :
  consistent d -> delete_identity u d = Ok d' -> consistent d'.
Proof.
  intros (Ha & Hf & Hu & He & Hm) H. injection H as <-.
  split_consistent; cbn [auth_users profiles alunos].
  - intros r Hr. apply filter_In in Hr as [Hr _]. now apply Ha.
  - intros r Hr. apply filter_In in Hr as [Hr Hne].
    apply Hf, in_map_iff in Hr as (p & Hp & Hin).
    apply in_map_iff. exists p. split; [assumption|].
    apply filter_In. split; [assumption|]. now rewrite Hp.
  - now apply NoDup_map_filter.
  - now apply NoDup_map_filter.
  - rewrite (map_filter_key profile_id (fun x => negb (String.eqb x u))).
    rewrite (map_filter_key user_id (fun x => negb (String.eqb x u))).
    now rewrite Hm.
Qed.

(** With a profile for every identity, no profile can be inserted: its id
    would have to be an identity's and not a profile's. *)
Lemma insert_profile_impossible (uid : option uuid) (t : timestamptz)
    (p : profile_insert) (d d' : database) :
  map profile_id (profiles d) = map user_id (auth_users d) ->
  insert_profile uid t p d <> Ok d'.
Proof.
  intros Hm H. apply insert_profile_ok in H as (NEW & _ & _ & Hi & _ & Hu).
  apply Hi. now rewrite Hm.
Qed.

Lemma update_profile_consistent (uid : option uuid) (t : timestamptz)
    (p : profile_update) (target : uuid) (d d' : database) :
  consistent d -> update_profile uid t p target d = Ok d' -> consistent d'.
Proof.
  intros Hd H.
  apply update_profile_ok in H
    as [->|(before & OLD & after & Hl & -> & _ & _ & Hid & Ce)]; [assumption|].
  cbv zeta in Hid, Ce. destruct Hd as (Ha & Hf & Hu & He & Hm).
  assert (Hids : map profile_id
                   (before ++ update_updated_at_column t (apply_profile_update p OLD)
                           :: after) =
                 map profile_id (profiles d)).
  { rewrite Hl, !map_app. cbn [map]. now rewrite Hid. }
  split_consistent; cbn [auth_users profiles alunos with_profiles].
  - exact Ha.
  - intros r Hr. rewrite Hids. now apply Hf.
  - exact Hu.
  - rewrite Hl in He. now apply NoDup_map_replace with OLD.
  - now rewrite Hids.
Qed.

Lemma insert_aluno_consistent (uid : option uuid) (gen : uuid) (t : timestamptz)
    (p : aluno_insert) (d d' : database) :
  consistent d -> insert_aluno uid gen t p d = Ok d' -> consistent d'.
Proof.
  intros (Ha & Hf & Hu & He & Hm) H.
  apply insert_aluno_ok in H as (-> & _ & Hage & _ & _ & _ & Hp).
  split_consistent; cbn [auth_users profiles alunos with_alunos]; try assumption.
  - intros r Hr. apply in_app_iff in Hr as [Hr|[<-|[]]]; [now apply Ha | exact Hage].
  - intros r Hr. apply in_app_iff in Hr as [Hr|[<-|[]]]; [now apply Hf | exact Hp].
Qed.

Lemma update_aluno_consistent (uid : option uuid) (t : timestamptz)
    (p : aluno_update) (target : uuid) (d d' : database) :
  consistent d -> update_aluno uid t p target d = Ok d' -> consistent d'.
Proof.
  intros Hd H.
  apply update_aluno_ok in H
    as [->|(before & OLD & after & Hl & -> & _ & _ & _ & Hage & _ & _ & _ & Hp)];
    [assumption|].
  cbv zeta in Hage, Hp. destruct Hd as (Ha & Hf & Hu & He & Hm).
  split_consistent; cbn [auth_users profiles alunos with_alunos]; try assumption.
  - intros r Hr. apply (in_replaced _ _ OLD) in Hr as [->|Hr]; [exact Hage|].
    apply Ha. now rewrite Hl.
  - intros r Hr. apply (in_replaced _ _ OLD) in Hr as [->|Hr]; [exact Hp|].
    apply Hf. now rewrite Hl.
Qed.

Lemma delete_aluno_consistent (uid : option uuid) (target : uuid)
    (d d' : database) :
  consistent d -> delete_aluno uid target d = Ok d' -> consistent d'.
Proof.
  intros (Ha & Hf & Hu & He & Hm) H. injection H as <-.
  split_consistent; cbn [auth_users profiles alunos with_alunos]; try assumption.
  - intros r Hr. apply filter_In in Hr as [Hr _]. now apply Ha.
  - intros r Hr. apply filter_In in Hr as [Hr _]. now apply Hf.
Qed.

Lemma execute_consistent (e : env) (q : request) (d : database) :
  consistent d -> consistent (state_after d (execute e q d)).
Proof.
  intros Hd. destruct (execute e q d) as [d'|err] eqn:H; cbn; [|assumption].
  destruct q; cbn [execute] in H.
  - now apply create_identity_consistent in H.
  - now apply delete_identity_consistent in H.
  - exfalso. revert H. apply insert_profile_impossible. apply Hd.
  - now apply update_profile_consistent in H.
  - now injection H as <-.
  - now apply insert_aluno_consistent in H.
  - now apply update_aluno_consistent in H.
  - now apply delete_aluno_consistent in H.
Qed.

Lemma reachable_consistent (d : database) : reachable d -> consistent d.
Proof.
  induction 1 as [|d e q _ IH].
  - split_consistent; cbn; try apply NoDup_nil; try reflexivity; intros r [].
  - now apply execute_consistent.
Qed.

Lemma updated_row_texts (t : timestamptz) (p : aluno_update) (OLD : aluno) :
  forallb storable (set_texts p) = true ->
  forallb storable (row_texts OLD) = true ->
  forallb storable (row_texts (update_updated_at_column t (apply_update p OLD))) = true.
Proof.
  unfold set_texts, row_texts. cbn -[storable].
  destruct (set_nome p), (set_email p), (set_matricula p); cbn -[storable];
    rewrite ?andb_true_iff; intuition.
Qed.

Lemma execute_texts_stored (e : env) (q : request) (d : database) :
  texts_stored d -> texts_stored (state_after d (execute e q d)).
Proof.
  intros Hd. destruct (execute e q d) as [d'|err] eqn:H; cbn; [|assumption].
  destruct q; cbn [execute] in H.
  - apply create_identity_ok in H as (p & -> & _). exact Hd.
  - injection H as <-. intros r Hr. cbn [alunos] in Hr.
    apply filter_In in Hr as [Hr _]. now apply Hd.
  - apply insert_profile_ok in H as (NEW & -> & _). exact Hd.
  - apply update_profile_ok in H as [->|(before & OLD & after & _ & -> & _)];
      exact Hd.
  - now injection H as <-.
  - pose proof (insert_aluno_texts _ _ _ _ _ _ H) as Ht.
    apply insert_aluno_ok in H as (-> & _).
    intros r Hr. cbn [alunos with_alunos] in Hr.
    apply in_app_iff in Hr as [Hr|[<-|[]]]; [now apply Hd | exact Ht].
  - pose proof (update_aluno_texts _ _ _ _ _ _ H) as Ht.
    apply update_aluno_ok in H as [->|(before & OLD & after & Hl & -> & _)];
      [exact Hd|].
    intros r Hr. cbn [alunos with_alunos] in Hr.
    apply (in_replaced _ _ OLD) in Hr as [->|Hr].
    + apply updated_row_texts; [exact Ht|]. apply Hd. rewrite Hl. apply in_elt.
    + apply Hd. now rewrite Hl.
  - injection H as <-. intros r Hr. cbn [alunos with_alunos] in Hr.
    apply filter_In in Hr as [Hr _]. now apply Hd.
Qed.

(** The texts of a stored student were read from a payload. *)
Lemma reachable_texts_stored (d : database) : reachable d -> texts_stored d.
Proof.
  induction 1 as [|d e q _ IH].
  - intros r [].
  - now apply execute_texts_stored.
Qed.

(** In every reachable state the age of every student is from 1 to 149: the
    CHECK constraint is applied to every row an insert or an update
    proposes. *)
Theorem reachable_idades_in_range :
  forall d : database, reachable d ->
    forall r, In r (alunos d) -> 1 <= idade r <= 149.
Proof. intros d Hd. apply (reachable_consistent d Hd). Qed.

(** In every reachable state every student is owned by a profile of the
    store and every profile is that of an identity of the store: the foreign
    keys hold, through the deletion of identities too. *)
Theorem reachable_references_hold :
  forall d : database, reachable d ->
    (forall r, In r (alunos d) ->
       exists p, In p (profiles d) /\ profile_id p = criado_por r) /\
    (forall p, In p (profiles d) ->
       exists u, In u (auth_users d) /\ user_id u = profile_id p).
Proof.
  intros d Hd. destruct (reachable_consistent d Hd) as (_ & Hf & _ & _ & Hm).
  split.
  - intros r Hr. apply Hf, in_map_iff in Hr as (p & Hp & Hin). now exists p.
  - intros p Hp. apply (in_map profile_id) in Hp. rewrite Hm in Hp.
    apply in_map_iff in Hp as (u & Hu & Hin). now exists u.
Qed.

Lemma filter_absent_key {A} (f : A -> string) (l : list A) (k : string) :
  ~ In k (map f l) -> filter (fun y => String.eqb (f y) k) l = [].
Proof.
  induction l as [|y l IH]; cbn; [reflexivity|].
  intros H. destruct (String.eqb_spec (f y) k) as [E|_].
  - exfalso. apply H. now left.
  - apply IH. intros Hin. apply H. now right.
Qed.

Lemma filter_unique_key {A} (f : A -> string) (l : list A) (x : A) :
  NoDup (map f l) -> In x l ->
  filter (fun y => String.eqb (f y) (f x)) l = [x].
Proof.
  induction l as [|z l IH]; cbn; [tauto|].
  intros H Hx. apply NoDup_cons_iff in H as [Hz Hl].
  destruct Hx as [->|Hx].
  - rewrite String.eqb_refl. f_equal. now apply filter_absent_key.
  - destruct (String.eqb_spec (f z) (f x)) as [E|_]; [|auto].
    exfalso. apply Hz. rewrite E. now apply in_map.
Qed.

(** In every reachable state the profiles are those of the identities, one
    each and in the same order; no two profiles share an id or an email. *)
Theorem reachable_profiles_match_identities :
  forall d : database, reachable d ->
    map profile_id (profiles d) = map user_id (auth_users d) /\
    NoDup (map profile_id (profiles d)) /\
    NoDup (map profile_email (profiles d)) /\
    (forall u, In u (auth_users d) ->
       exists p, filter (fun x => String.eqb (profile_id x) (user_id u))
                   (profiles d) = [p]).
Proof.
  intros d Hd. destruct (reachable_consistent d Hd) as (_ & _ & Hu & He & Hm).
  assert (Hp : NoDup (map profile_id (profiles d))) by now rewrite Hm.
  repeat split; try assumption.
  intros u Hin. apply (in_map user_id) in Hin. rewrite <- Hm in Hin.
  apply in_map_iff in Hin as (p & Hid & Hin). exists p. rewrite <- Hid.
  now apply filter_unique_key.
Qed.

(** In every reachable state an insert into [profiles] fails, whoever asks:
    every identity has its profile from the trigger, so the id of the new
    row is either no identity's or already a profile's. *)
Theorem reachable_insert_profile_fails :
  forall d : database, reachable d ->
    forall e p, exists err, execute e (InsertProfile p) d = Error err.
Proof.
  intros d Hd e p. cbn [execute].
  destruct (insert_profile (auth_uid e) (now e) p d) as [d'|err] eqn:H;
    [|now exists err].
  exfalso. revert H. apply insert_profile_impossible.
  apply (reachable_consistent d Hd).
Qed.

(** ** The order and the contents of the list *)

Lemma insert_desc_newest_first (r : aluno) (l : list aluno) :
  newest_first l -> newest_first (insert_desc r l).
Proof.
  unfold newest_first. induction l as [|x l IH]; cbn; intros H.
  - repeat constructor.
  - apply StronglySorted_inv in H as [Hl Hx].
    destruct (created_at x <? created_at r) eqn:Hlt.
    + apply Z.ltb_lt in Hlt. constructor; [now constructor|].
      constructor; [lia|].
      apply Forall_forall. intros y Hy.
      apply (proj1 (Forall_forall _ _) Hx) in Hy. lia.
    + apply Z.ltb_ge in Hlt. constructor; [auto|].
      apply Forall_forall. intros y Hy. apply insert_desc_in in Hy as [->|Hy].
      * exact Hlt.
      * now apply (proj1 (Forall_forall _ _) Hx).
Qed.

Lemma insert_desc_permutation (r : aluno) (l : list aluno) :
  Permutation (insert_desc r l) (r :: l).
Proof.
  induction l as [|x l IH]; cbn; [reflexivity|].
  destruct (created_at x <? created_at r); [reflexivity|].
  rewrite IH. apply perm_swap.
Qed.

(** The list [fetchAlunos] shows is ordered by creation time, newest first,
    and holds each row the requester owns as often as the table does and
    nothing else. *)
Theorem fetchAlunos_newest_first :
  forall (e : env) (st : Dashboard) (d : database),
    newest_first (shown_alunos (snd (fetchAlunos e st d))) /\
    Permutation (shown_alunos (snd (fetchAlunos e st d)))
      (filter (owns (auth_uid e)) (alunos d)).
Proof.
  intros e st d. cbn. unfold select_alunos, Users_can_view_their_own_students.
  induction (filter (owns (auth_uid e)) (alunos d)) as [|r l [IH1 IH2]]; cbn.
  - split; constructor.
  - split; [now apply insert_desc_newest_first|].
    rewrite insert_desc_permutation. now constructor.
Qed.

Lemma order_newest_last (x : aluno) (l acc : list aluno) :
  (forall r, In r l -> created_at r < created_at x) ->
  fold_right insert_desc (x :: acc) l = x :: fold_right insert_desc acc l.
Proof.
  induction l as [|y l IH]; cbn; intros H; [reflexivity|].
  rewrite IH by (intros r Hr; apply H; now right).
  cbn. assert (created_at y < created_at x) by (apply H; now left).
  destruct (created_at x <? created_at y) eqn:Hlt; [|reflexivity].
  apply Z.ltb_lt in Hlt. lia.
Qed.

(** A student that was inserted is in its owner's list from then on, with
    the rows that were there, and every other requester's list is as before;
    when the row is newer than every row of the table, it is the first of
    the list. *)
Theorem inserted_student_is_listed :
  forall (uid : option uuid) (gen : uuid) (t : timestamptz)
         (p : aluno_insert) (d d' : database),
    insert_aluno uid gen t p d = Ok d' ->
    (forall r, In r (select_alunos uid d') <->
               r = new_aluno gen t p \/ In r (select_alunos uid d)) /\
    (forall other, other <> uid -> select_alunos other d' = select_alunos other d) /\
    ((forall r, In r (alunos d) -> created_at r < created_at (new_aluno gen t p)) ->
     select_alunos uid d' = new_aluno gen t p :: select_alunos uid d).
Proof.
  intros uid gen t p d d' H.
  apply insert_aluno_ok in H as (-> & Ho & _).
  assert (Hown : owns uid (new_aluno gen t p) = true) by now apply owns_true.
  repeat apply conj.
  - intros r. rewrite !select_alunos_in. cbn [alunos with_alunos].
    rewrite in_app_iff. cbn. split.
    + intros [[Hr|[<-|[]]] Hu]; auto.
    + intros [->|[Hr Hu]]; [|tauto]. split; [auto|]. exact Ho.
  - intros other Hne. unfold select_alunos, Users_can_view_their_own_students.
    cbn [alunos with_alunos]. rewrite filter_app. cbn [filter].
    assert (owns other (new_aluno gen t p) = false) as ->
        by (apply owns_false; cbn; congruence).
    now rewrite app_nil_r.
  - intros Hnew. unfold select_alunos, Users_can_view_their_own_students.
    cbn [alunos with_alunos]. rewrite filter_app. cbn [filter]. rewrite Hown.
    unfold order_by_created_at_desc. rewrite fold_right_app. cbn [fold_right insert_desc].
    apply order_newest_last. intros r Hr. apply filter_In in Hr as [Hr _]. auto.
Qed.

(** ** Requests without an identity, and profiles *)

Lemma update_profile_not_self (uid : option uuid) (t : timestamptz)
    (p : profile_update) (target : uuid) (d : database) :
  uid <> Some target -> update_profile uid t p target d = Ok d.
Proof.
  intros H. unfold update_profile. rewrite locate_none; [reflexivity|].
  intros r _. destruct (String.eqb_spec (profile_id r) target) as [Hid|];
    [|reflexivity].
  cbn. unfold Users_can_update_their_own_profile.
  destruct (is_self uid r) eqn:Hs; [|reflexivity].
  apply is_self_true in Hs. congruence.
Qed.

(** A request that carries no identity is shown no student and changes
    nothing: not a student, not a profile. *)
Theorem anonymous_sees_and_changes_nothing :
  forall (e : env) (st : Dashboard) (d : database),
    auth_uid e = None ->
    shown_alunos (snd (fetchAlunos e st d)) = [] /\
    (forall p, state_after d (execute e (InsertAluno p) d) = d) /\
    (forall p target, state_after d (execute e (UpdateAluno p target) d) = d) /\
    (forall target, state_after d (execute e (DeleteAluno target) d) = d) /\
    (forall p, state_after d (execute e (InsertProfile p) d) = d) /\
    (forall p target, state_after d (execute e (UpdateProfile p target) d) = d).
Proof.
  intros e st d He. repeat apply conj.
  - cbn. rewrite He. unfold select_alunos.
    now induction (alunos d).
  - intros p. cbn [execute].
    destruct (insert_aluno_not_owner (auth_uid e) (gen_random_uuid e) (now e) p d)
      as [err ->]; [|reflexivity].
    rewrite He. discriminate.
  - intros p target. cbn [execute]. apply update_aluno_not_visible.
    intros r _ _. rewrite He. discriminate.
  - intros target. cbn [execute]. rewrite delete_aluno_not_visible; [reflexivity|].
    intros r _ _. rewrite He. discriminate.
  - intros p. cbn [execute]. unfold insert_profile. now rewrite He.
  - intros p target. cbn [execute]. rewrite update_profile_not_self; [reflexivity|].
    rewrite He. discriminate.
Qed.


(** The creation of an identity fails, and leaves the store as it was, when
    the identity has no email, when its email is that of a profile, and when
    its id is that of an identity. *)
Theorem create_identity_rejects :
  forall (t : timestamptz) (u : auth_user) (d : database),
    (user_email u = None -> exists err, create_identity t u d = Error err) /\
    (forall p, In p (profiles d) -> user_email u = Some (profile_email p) ->
       exists err, create_identity t u d = Error err) /\
    (forall v, In v (auth_users d) -> user_id v = user_id u ->
       create_identity t u d = Error (unique_violation users_pkey)).
Proof.
  intros t u d. repeat apply conj.
  - intros H. unfold create_identity. run_check.
    unfold handle_new_user. rewrite H. eexists. reflexivity.
  - intros p Hp H. unfold create_identity. run_check.
    unfold handle_new_user. rewrite H. run_check.
    assert (E : has_profile_email (profile_email p)
                  (profiles (with_auth_users d (auth_users d ++ [u]))) = true)
      by (apply has_profile_email_spec; now apply in_map).
    rewrite E. cbn. eexists. reflexivity.
  - intros v Hv H. unfold create_identity.
    assert (E : has_user (user_id u) (auth_users d) = true)
      by (apply has_user_spec; rewrite <- H; now apply in_map).
    now rewrite E.
Qed.

(** * Further properties of the client *)

(** ** Trimmed text *)

Lemma trimStart_suffix (s : text) : exists pre, s = pre ++ trimStart s.
Proof.
  induction s as [|c s [pre IH]]; cbn.
  - now exists [].
  - destruct (is_white_space c).
    + exists (c :: pre). cbn. now rewrite <- IH.
    + now exists [].
Qed.

Lemma trimStart_head (s : text) (c : code_unit) :
  hd_error (trimStart s) = Some c -> is_white_space c = false.
Proof.
  induction s as [|x s IH]; cbn; [discriminate|].
  destruct (is_white_space x) eqn:Hx; [assumption|].
  cbn. congruence.
Qed.

Lemma trimEnd_prefix (s : text) : exists post, s = trimEnd s ++ post.
Proof.
  unfold trimEnd. destruct (trimStart_suffix (rev s)) as [pre H].
  exists (rev pre). rewrite <- rev_app_distr, <- H. now rewrite rev_involutive.
Qed.

(** What [trim] returns starts and ends with no white space and is no longer
    than the text given. *)
Lemma trim_clean (s : text) :
  (forall c, hd_error (trim s) = Some c -> is_white_space c = false) /\
  (forall c, hd_error (rev (trim s)) = Some c -> is_white_space c = false) /\
  (List.length (trim s) <= List.length s)%nat.
Proof.
  unfold trim. repeat apply conj.
  - intros c H. destruct (trimEnd_prefix (trimStart s)) as [post Hp].
    apply (trimStart_head s). rewrite Hp.
    destruct (trimEnd (trimStart s)); [discriminate|assumption].
  - intros c H. unfold trimEnd in H. rewrite rev_involutive in H.
    now apply trimStart_head in H.
  - destruct (trimEnd_prefix (trimStart s)) as [post Hp].
    destruct (trimStart_suffix s) as [pre Hs].
    rewrite Hs at 2. rewrite Hp at 2. rewrite !length_app. lia.
Qed.

(** ** The age written by the form and read back *)

Lemma parse_digits_positive (u : Decimal.uint) (acc : positive) :
  parse_digits 10 (text_of_uint u) (Some (Zpos acc)) =
  Some (Zpos (Pos.of_uint_acc u acc)).
Proof.
  revert acc. induction u; intros acc; cbn [text_of_uint parse_digits Pos.of_uint_acc];
    [reflexivity|..];
    (change (digit_value 10 _) with (Some 0) ||
     change (digit_value 10 _) with (Some 1) ||
     change (digit_value 10 _) with (Some 2) ||
     change (digit_value 10 _) with (Some 3) ||
     change (digit_value 10 _) with (Some 4) ||
     change (digit_value 10 _) with (Some 5) ||
     change (digit_value 10 _) with (Some 6) ||
     change (digit_value 10 _) with (Some 7) ||
     change (digit_value 10 _) with (Some 8) ||
     change (digit_value 10 _) with (Some 9));
    cbv iota beta;
    rewrite <- IHu; do 2 f_equal; lia.
Qed.

Lemma parse_digits_zero (u : Decimal.uint) :
  parse_digits 10 (text_of_uint u) (Some 0) = Some (Z.of_N (Pos.of_uint u)).
Proof.
  induction u; cbn [text_of_uint parse_digits Pos.of_uint]; [reflexivity|..];
    try (change (digit_value 10 _) with (Some 0); cbv iota beta; exact IHu);
    (change (digit_value 10 _) with (Some 1) ||
     change (digit_value 10 _) with (Some 2) ||
     change (digit_value 10 _) with (Some 3) ||
     change (digit_value 10 _) with (Some 4) ||
     change (digit_value 10 _) with (Some 5) ||
     change (digit_value 10 _) with (Some 6) ||
     change (digit_value 10 _) with (Some 7) ||
     change (digit_value 10 _) with (Some 8) ||
     change (digit_value 10 _) with (Some 9));
    cbv iota beta; apply parse_digits_positive.
Qed.

Lemma parse_digits_uint (u : Decimal.uint) :
  u <> Decimal.Nil ->
  parse_digits 10 (text_of_uint u) None = Some (Z.of_N (Pos.of_uint u)).
Proof.
  destruct u; intros H; [contradiction|..];
    cbn [text_of_uint parse_digits Pos.of_uint];
    try (change (digit_value 10 _) with (Some 0); cbv iota beta;
         apply parse_digits_zero);
    (change (digit_value 10 _) with (Some 1) ||
     change (digit_value 10 _) with (Some 2) ||
     change (digit_value 10 _) with (Some 3) ||
     change (digit_value 10 _) with (Some 4) ||
     change (digit_value 10 _) with (Some 5) ||
     change (digit_value 10 _) with (Some 6) ||
     change (digit_value 10 _) with (Some 7) ||
     change (digit_value 10 _) with (Some 8) ||
     change (digit_value 10 _) with (Some 9));
    cbv iota beta; apply parse_digits_positive.
Qed.

Lemma parseInt_digits (u : Decimal.uint) :
  parseInt (text_of_uint u) =
  match parse_digits 10 (text_of_uint u) None with
  | None => NaN
  | Some m => to_number (1 * m)
  end.
Proof.
  destruct u as [|u|u|u|u|u|u|u|u|u|u]; try reflexivity.
  destruct u; reflexivity.
Qed.

Lemma parseInt_minus_digits (u : Decimal.uint) :
  parseInt (45%N :: text_of_uint u) =
  match parse_digits 10 (text_of_uint u) None with
  | None => NaN
  | Some m => to_number (- 1 * m)
  end.
Proof.
  destruct u as [|u|u|u|u|u|u|u|u|u|u]; try reflexivity.
  destruct u; reflexivity.
Qed.

Lemma to_number_finite (z : Z) : Z.abs z < 10 ^ 21 -> to_number z = Finite z.
Proof.
  intros H. unfold to_number.
  assert (Hlt : (Z.abs z <? overflow_threshold) = true).
  { apply Z.ltb_lt. eapply Z.lt_trans; [exact H|]. now vm_compute. }
  now rewrite Hlt.
Qed.

Lemma parseInt_of_toString (z : Z) :
  Z.abs z < 10 ^ 21 -> parseInt (Number_toString z) = Finite z.
Proof.
  intros Hz. unfold Number_toString. destruct z as [|p|p]; cbn [Z.to_int].
  - reflexivity.
  - rewrite parseInt_digits, parse_digits_uint by apply Unsigned.to_uint_nonnil.
    rewrite Unsigned.of_to. now rewrite to_number_finite by (cbn; lia).
  - rewrite parseInt_minus_digits, parse_digits_uint by apply Unsigned.to_uint_nonnil.
    rewrite Unsigned.of_to. now rewrite to_number_finite by (cbn; lia).
Qed.

(** The age the edit form shows for a student is read back by [handleSubmit]
    as the stored age, whatever 32-bit integer it is: [parseInt] undoes
    [toString]. *)
Theorem prefilled_age_reads_back :
  forall a : aluno,
    int4 (idade a) = true ->
    parseInt (form_idade (prefill (Some a))) = Finite (idade a).
Proof.
  intros a H. cbn [prefill form_idade]. apply parseInt_of_toString.
  unfold int4 in H. apply andb_true_iff in H as [Hlo Hhi].
  apply Z.leb_le in Hlo. apply Z.ltb_lt in Hhi.
  assert (2 ^ 31 < 10 ^ 21) by now vm_compute.
  assert (0 < 2 ^ 31) by now vm_compute. lia.
Qed.

(** ** Statements that succeed *)

Lemma not_has (b : bool) (P : Prop) : (b = true <-> P) -> ~ P -> b = false.
Proof. intros H HP. destruct b; [|reflexivity]. exfalso. now apply HP, H. Qed.

Lemma int4_of_age (a : Z) : 1 <= a <= 150 -> int4 a = true.
Proof.
  intros H. unfold int4. apply andb_true_iff. rewrite Z.leb_le, Z.ltb_lt.
  assert (0 < 2 ^ 31) by now vm_compute.
  assert (150 < 2 ^ 31) by now vm_compute. lia.
Qed.

Lemma utf8_length_bound (s : text) :
  0 <= utf8_length s <= 3 * Z.of_nat (List.length s).
Proof.
  unfold utf8_length. induction s as [|c s IH]; [cbn; lia|].
  cbn [map fold_right List.length]. rewrite Nat2Z.inj_succ.
  assert (1 <= utf8_bytes c <= 3).
  { unfold utf8_bytes.
    destruct (c <? 128)%N, (c <? 2048)%N,
      (is_high_surrogate c || is_low_surrogate c); lia. }
  lia.
Qed.

Lemma MAXALIGN_le (n : Z) : MAXALIGN n <= n + 7.
Proof.
  unfold MAXALIGN. rewrite Z.mul_comm. apply Z.mul_div_le. lia.
Qed.

(** The entry of a text of at most 255 code units fits a B-tree index as it
    is, whatever the server's compression. *)
Lemma short_text_fits (s : text) :
  (List.length s <= 255)%nat -> index_row_fits s = true.
Proof.
  intros H. unfold index_row_fits. apply orb_true_iff. left. apply Z.leb_le.
  unfold index_row_size, BTMaxItemSize. cbv zeta.
  pose proof (utf8_length_bound s) as Hb.
  destruct (utf8_length s <=? 126);
    match goal with |- MAXALIGN ?n <= _ => pose proof (MAXALIGN_le n) end; lia.
Qed.

Lemma insert_aluno_succeeds (uid : option uuid) (gen : uuid) (t : timestamptz)
    (p : aluno_insert) (d : database) :
  forallb storable (ins_texts p) = true ->
  index_row_fits (ins_email p) = true ->
  index_row_fits (ins_matricula p) = true ->
  uid = Some (ins_criado_por p) ->
  1 <= ins_idade p <= 149 ->
  ~ In (default (ins_id p) gen) (map aluno_id (alunos d)) ->
  ~ In (ins_email p) (map email (alunos d)) ->
  ~ In (ins_matricula p) (map matricula (alunos d)) ->
  In (ins_criado_por p) (map profile_id (profiles d)) ->
  insert_aluno uid gen t p d = Ok (with_alunos d (alunos d ++ [new_aluno gen t p])).
Proof.
  intros Ht Hfe Hfm Ho Ha Hi He Hm Hp. unfold insert_aluno. cbv zeta.
  apply storable_all in Ht as [Hw Hn].
  rewrite check_passed by exact Hw.
  rewrite check_passed by now rewrite Hn.
  rewrite check_passed by (apply int4_of_age; cbn; lia).
  rewrite check_passed by now apply owns_true.
  rewrite check_passed by now apply idade_check_true.
  rewrite check_passed
    by (apply negb_true_iff; now apply (not_has _ _ (has_id_spec _ _))).
  rewrite check_passed
    by (apply negb_true_iff; now apply (not_has _ _ (has_email_spec _ _))).
  rewrite check_passed by exact Hfe.
  rewrite check_passed
    by (apply negb_true_iff; now apply (not_has _ _ (has_matricula_spec _ _))).
  rewrite check_passed by exact Hfm.
  rewrite check_passed by now apply has_profile_spec.
  reflexivity.
Qed.

Lemma locate_unique (uid : option uuid) (d : database) (OLD : aluno) :
  NoDup (map aluno_id (alunos d)) ->
  In OLD (alunos d) -> uid = Some (criado_por OLD) ->
  exists before after,
    alunos d = before ++ OLD :: after /\
    locate (fun r => String.eqb (aluno_id r) (aluno_id OLD) &&
                     Users_can_update_their_own_students uid r) (alunos d) =
    Some (before, OLD, after).
Proof.
  intros Hi HOLD Hu.
  destruct (locate _ (alunos d)) as [[[before OLD'] after]|] eqn:Hl.
  - pose proof Hl as Hl'. apply locate_some in Hl' as [Hsplit Hf].
    apply andb_true_iff in Hf as [Hf _]. apply String.eqb_eq in Hf.
    assert (OLD' = OLD) as ->.
    { apply (unique_injective aluno_id (alunos d)); auto.
      rewrite Hsplit. apply in_elt. }
    now exists before, after.
  - exfalso. apply locate_none_inv with (x := OLD) in Hl; [|assumption].
    rewrite String.eqb_refl in Hl. cbn in Hl.
    apply owns_false in Hl. contradiction.
Qed.

Lemma not_in_others {K} (col : aluno -> K) (before after : list aluno)
    (OLD : aluno) (k : K) :
  NoDup (map aluno_id (before ++ OLD :: after)) ->
  (forall x, In x (before ++ OLD :: after) -> x <> OLD -> col x <> k) ->
  ~ In k (map col (before ++ after)).
Proof.
  intros Hi H Hin. apply in_map_iff in Hin as (x & Hx & Hin).
  apply (H x); [| |assumption].
  - apply in_app_iff in Hin as [Hin|Hin]; apply in_app_iff; cbn; auto.
  - intros ->. rewrite map_app in Hi. cbn in Hi.
    apply NoDup_remove_2 in Hi. apply Hi.
    rewrite <- map_app. now apply in_map.
Qed.

Lemma update_aluno_succeeds (uid : option uuid) (t : timestamptz)
    (p : aluno_update) (d : database) (OLD : aluno) :
  let NEW := update_updated_at_column t (apply_update p OLD) in
  forallb storable (set_texts p) = true ->
  index_row_fits (email NEW) = true ->
  index_row_fits (matricula NEW) = true ->
  NoDup (map aluno_id (alunos d)) ->
  In OLD (alunos d) -> uid = Some (criado_por OLD) ->
  criado_por NEW = criado_por OLD ->
  1 <= idade NEW <= 149 ->
  (forall x, In x (alunos d) -> x <> OLD -> aluno_id x <> aluno_id NEW) ->
  (forall x, In x (alunos d) -> x <> OLD -> email x <> email NEW) ->
  (forall x, In x (alunos d) -> x <> OLD -> matricula x <> matricula NEW) ->
  In (criado_por NEW) (map profile_id (profiles d)) ->
  exists before after,
    alunos d = before ++ OLD :: after /\
    update_aluno uid t p (aluno_id OLD) d =
    Ok (with_alunos d (before ++ NEW :: after)).
Proof.
  intros NEW Ht Hfe Hfm Hu HOLD Ho Hown Ha Hi He Hm Hp.
  destruct (locate_unique uid d OLD Hu HOLD Ho) as (before & after & Hsplit & Hl).
  exists before, after. split; [assumption|].
  unfold update_aluno. rewrite Hl. cbv zeta. fold NEW.
  rewrite Hsplit in Hu, Hi, He, Hm.
  assert (Hint : int4 (default (set_idade p) 0) = true).
  { destruct (set_idade p) as [a|] eqn:Hs; [|reflexivity].
    cbn in Ha. rewrite Hs in Ha. cbn in Ha |- *.
    unfold int4. apply andb_true_iff. rewrite Z.leb_le, Z.ltb_lt.
    assert (150 < 2 ^ 31) by now vm_compute.
    assert (0 < 2 ^ 31) by now vm_compute. lia. }
  apply storable_all in Ht as [Hw Hn].
  rewrite check_passed by exact Hw.
  rewrite check_passed by now rewrite Hn.
  rewrite check_passed by exact Hint.
  rewrite check_passed by (apply owns_true; congruence).
  rewrite check_passed by now apply idade_check_true.
  rewrite check_passed
    by (apply negb_true_iff, (not_has _ _ (has_id_spec _ _));
        now apply (not_in_others aluno_id _ _ OLD)).
  rewrite check_passed
    by (apply negb_true_iff, (not_has _ _ (has_email_spec _ _));
        now apply (not_in_others email _ _ OLD)).
  rewrite check_passed by exact Hfe.
  rewrite check_passed
    by (apply negb_true_iff, (not_has _ _ (has_matricula_spec _ _));
        now apply (not_in_others matricula _ _ OLD)).
  rewrite check_passed by exact Hfm.
  rewrite check_passed by now apply has_profile_spec.
  reflexivity.
Qed.

(** ** Creating a student through the form *)

Section Flows.

Variable email_regex : text -> bool.
Variable defaultErrorMap : ZodIssueCode -> string.

Lemma valid_form (f : AlunoFormData) :
  first_violated_rule email_regex f = None ->
  alunoSchema_parse email_regex defaultErrorMap (submitted f) =
    Valid (validated_form f) /\
  exists a, parseInt (form_idade f) = Finite a /\ 1 <= a <= 150.
Proof.
  intros H. rewrite first_violated_rule_head in H.
  rewrite alunoSchema_parse_submitted.
  destruct (filter (violates email_regex f) rules_in_order) as [|r l] eqn:Hb;
    [|discriminate].
  split; [reflexivity|].
  now apply no_rule_violated in Hb as (_ & _ & _ & _ & Ha).
Qed.

Lemma valid_form_bounds (f : AlunoFormData) :
  first_violated_rule email_regex f = None ->
  (2 <= List.length (trim (form_nome f)) <= 100)%nat /\
  email_regex (trim (form_email f)) = true /\
  (List.length (trim (form_email f)) <= 255)%nat /\
  (3 <= List.length (trim (form_matricula f)) <= 50)%nat.
Proof.
  intros H. rewrite first_violated_rule_head in H.
  destruct (filter (violates email_regex f) rules_in_order) as [|r l] eqn:Hb;
    [|discriminate].
  apply no_rule_violated in Hb as (Hn & He & Hl & Hm & _). auto.
Qed.

(** The email and the registration code of a valid form are short enough
    for the entries of their indexes. *)
Lemma valid_form_fits (f : AlunoFormData) :
  first_violated_rule email_regex f = None ->
  index_row_fits (trim (form_email f)) = true /\
  index_row_fits (trim (form_matricula f)) = true.
Proof.
  intros H. destruct (valid_form_bounds f H) as (_ & _ & He & Hm).
  split; apply short_text_fits; lia.
Qed.

Lemma handleSubmit_invalid (e : env) (aluno : option aluno) (f : AlunoFormData)
    (d : database) (r : rule) :
  first_violated_rule email_regex f = Some r ->
  handleSubmit email_regex defaultErrorMap e aluno f d =
  ([toast_error (issue_message (rule_issue defaultErrorMap r))], d).
Proof.
  intros Hr. unfold handleSubmit.
  change {| in_nome := form_nome f; in_email := form_email f;
            in_matricula := form_matricula f;
            in_idade := parseInt (form_idade f) |} with (submitted f).
  rewrite alunoSchema_parse_submitted. rewrite first_violated_rule_head in Hr.
  destruct (filter (violates email_regex f) rules_in_order) as [|r' l];
    [discriminate|].
  cbn in Hr. injection Hr as ->. reflexivity.
Qed.

Lemma handleSubmit_create (e : env) (f : AlunoFormData) (d : database)
    (user : uuid) :
  first_violated_rule email_regex f = None -> auth_uid e = Some user ->
  handleSubmit email_regex defaultErrorMap e None f d =
  let q := create_request user (validated_form f) in
  match execute e q d with
  | Error err =>
      (store_request q :: report_error "Erro ao criar aluno" (message err), d)
  | Ok d' =>
      ([store_request q; toast_success "Aluno criado com sucesso!";
        onSuccess; onOpenChange false], d')
  end.
Proof.
  intros Hf He. unfold handleSubmit.
  change {| in_nome := form_nome f; in_email := form_email f;
            in_matricula := form_matricula f;
            in_idade := parseInt (form_idade f) |} with (submitted f).
  rewrite (proj1 (valid_form f Hf)), He. reflexivity.
Qed.

Lemma handleSubmit_edit (e : env) (a : aluno) (f : AlunoFormData) (d : database)
    (user : uuid) :
  first_violated_rule email_regex f = None -> auth_uid e = Some user ->
  handleSubmit email_regex defaultErrorMap e (Some a) f d =
  let q := edit_request a (validated_form f) in
  match execute e q d with
  | Error err =>
      (store_request q :: report_error "Erro ao atualizar aluno" (message err), d)
  | Ok d' =>
      ([store_request q; toast_success "Aluno atualizado com sucesso!";
        onSuccess; onOpenChange false], d')
  end.
Proof.
  intros Hf He. unfold handleSubmit.
  change {| in_nome := form_nome f; in_email := form_email f;
            in_matricula := form_matricula f;
            in_idade := parseInt (form_idade f) |} with (submitted f).
  rewrite (proj1 (valid_form f Hf)), He. reflexivity.
Qed.

(** Whatever the form holds, an insert that [handleSubmit] sends is for the
    signed-in user as owner, leaves the id and the timestamps to the store
    and carries the trimmed name, email and registration code and the age
    read by [parseInt], all within the bounds of the schema. *)
Theorem handleSubmit_create_payload :
  forall (e : env) (f : AlunoFormData) (d : database) (q : request),
    In (store_request q)
       (fst (handleSubmit email_regex defaultErrorMap e None f d)) ->
    exists user a,
      auth_uid e = Some user /\
      parseInt (form_idade f) = Finite a /\ 1 <= a <= 150 /\
      (2 <= List.length (trim (form_nome f)) <= 100)%nat /\
      email_regex (trim (form_email f)) = true /\
      (List.length (trim (form_email f)) <= 255)%nat /\
      (3 <= List.length (trim (form_matricula f)) <= 50)%nat /\
      q = InsertAluno
            {| ins_id := None;
               ins_nome := trim (form_nome f);
               ins_email := trim (form_email f);
               ins_matricula := trim (form_matricula f);
               ins_idade := a;
               ins_criado_por := user;
               ins_created_at := None;
               ins_updated_at := None |}.
Proof.
  intros e f d q H.
  destruct (first_violated_rule email_regex f) as [r|] eqn:Hf.
  { rewrite (handleSubmit_invalid e None f d r Hf) in H.
    destruct H as [H|[]]. discriminate. }
  destruct (auth_uid e) as [user|] eqn:He.
  2: { exfalso. revert H.
       apply (handleSubmit_unauthenticated email_regex defaultErrorMap e None f d He). }
  rewrite (handleSubmit_create e f d user Hf He) in H. cbv zeta in H.
  assert (Hq : q = create_request user (validated_form f)).
  { destruct (execute e _ d) as [d'|err]; cbn [fst] in H.
    - destruct H as [H|[H|[H|[H|[]]]]]; try discriminate. now injection H.
    - destruct H as [H|H]; [now injection H|].
      now apply report_error_no_request in H. }
  destruct (valid_form_bounds f Hf) as (Hn & Hre & Hel & Hm).
  destruct (valid_form f Hf) as (_ & a & Ha & Hr).
  exists user, a. repeat split; try assumption; try apply Hn; try apply Hm; try apply Hr.
  rewrite Hq. unfold create_request, validated_form. cbn. now rewrite Ha.
Qed.

Lemma created_is_new (e : env) (user : uuid) (v : validated) :
  new_aluno (gen_random_uuid e) (now e)
    {| ins_id := None; ins_nome := v_nome v; ins_email := v_email v;
       ins_matricula := v_matricula v; ins_idade := json_integer (v_idade v);
       ins_criado_por := user; ins_created_at := None; ins_updated_at := None |} =
  created e user v.
Proof. reflexivity. Qed.

Lemma create_succeeds :
  forall (e : env) (f : AlunoFormData) (d : database) (user : uuid),
    first_violated_rule email_regex f = None ->
    forallb storable (v_texts (validated_form f)) = true ->
    auth_uid e = Some user ->
    In user (map profile_id (profiles d)) ->
    parseInt (form_idade f) <> Finite 150 ->
    ~ In (gen_random_uuid e) (map aluno_id (alunos d)) ->
    ~ In (trim (form_email f)) (map email (alunos d)) ->
    ~ In (trim (form_matricula f)) (map matricula (alunos d)) ->
    handleSubmit email_regex defaultErrorMap e None f d =
    ([store_request (create_request user (validated_form f));
      toast_success "Aluno criado com sucesso!"; onSuccess; onOpenChange false],
     with_alunos d (alunos d ++ [created e user (validated_form f)])).
Proof.
  intros e f d user Hf Ht He Hp H150 Hi Hm Hr.
  rewrite (handleSubmit_create e f d user Hf He). cbv zeta.
  unfold create_request. cbn [execute].
  destruct (valid_form f Hf) as (_ & a & Ha & Hrange).
  destruct (valid_form_fits f Hf) as (Hfe & Hfm).
  rewrite insert_aluno_succeeds; try assumption.
  - now rewrite created_is_new.
  - cbn. rewrite Ha in *. cbn. assert (a <> 150) by congruence. lia.
Qed.

(** A valid form submitted by a signed-in user who has a profile creates the
    student when its trimmed texts are ones the store can hold (they have no
    U+0000 and no surrogate that is not half of a pair), the age is not 150,
    the id drawn is new and neither the email nor the registration code is
    in the table: one row is added, with the trimmed fields, the user as
    owner and the time of the request, and the form announces it and calls
    back. *)
Theorem handleSubmit_create_success :
  forall (e : env) (f : AlunoFormData) (d : database) (user : uuid),
    first_violated_rule email_regex f = None ->
    forallb storable (v_texts (validated_form f)) = true ->
    auth_uid e = Some user ->
    In user (map profile_id (profiles d)) ->
    parseInt (form_idade f) <> Finite 150 ->
    ~ In (gen_random_uuid e) (map aluno_id (alunos d)) ->
    ~ In (trim (form_email f)) (map email (alunos d)) ->
    ~ In (trim (form_matricula f)) (map matricula (alunos d)) ->
    handleSubmit email_regex defaultErrorMap e None f d =
    ([store_request (create_request user (validated_form f));
      toast_success "Aluno criado com sucesso!"; onSuccess; onOpenChange false],
     with_alunos d (alunos d ++ [created e user (validated_form f)])).
Proof. exact create_succeeds. Qed.

(** A valid form whose email is in the table is refused with the message of
    the email, and one whose registration code is (and whose email is not)
    with the message of the registration code; the store is as it was.  The
    trimmed texts are ones the store can hold, the age is not 150 and the id
    drawn is new, so that the store reaches the unique indexes. *)
Theorem handleSubmit_create_conflict :
  forall (e : env) (f : AlunoFormData) (d : database) (user : uuid),
    first_violated_rule email_regex f = None ->
    forallb storable (v_texts (validated_form f)) = true ->
    auth_uid e = Some user ->
    parseInt (form_idade f) <> Finite 150 ->
    ~ In (gen_random_uuid e) (map aluno_id (alunos d)) ->
    (In (trim (form_email f)) (map email (alunos d)) ->
     handleSubmit email_regex defaultErrorMap e None f d =
     ([store_request (create_request user (validated_form f));
       toast_error "Este email já está cadastrado"], d)) /\
    (~ In (trim (form_email f)) (map email (alunos d)) ->
     In (trim (form_matricula f)) (map matricula (alunos d)) ->
     handleSubmit email_regex defaultErrorMap e None f d =
     ([store_request (create_request user (validated_form f));
       toast_error "Esta matrícula já está cadastrada"], d)).
Proof.
  intros e f d user Hf Ht He H150 Hi.
  destruct (valid_form f Hf) as (_ & a & Ha & Hrange).
  destruct (valid_form_fits f Hf) as (Hfe & Hfm).
  apply storable_all in Ht as [Hw Hn].
  assert (Hage : 1 <= json_integer (parseInt (form_idade f)) <= 149).
  { rewrite Ha in *. cbn. assert (a <> 150) by congruence. lia. }
  assert (Hstart :
    execute e (create_request user (validated_form f)) d =
    (check negb (has_email (trim (form_email f)) (alunos d))
       otherwise unique_violation alunos_email_key ;;
     check negb (has_matricula (trim (form_matricula f)) (alunos d))
       otherwise unique_violation alunos_matricula_key ;;
     check has_profile user (profiles d)
       otherwise foreign_key_violation tbl_alunos alunos_criado_por_fkey ;;
     Ok (with_alunos d
           (alunos d ++ [created e user (validated_form f)])))).
  { unfold create_request. cbn [execute]. unfold insert_aluno. cbv zeta.
    rewrite check_passed by exact Hw.
    rewrite check_passed by (apply negb_true_iff; exact Hn).
    rewrite check_passed by (apply int4_of_age; cbn; lia).
    rewrite check_passed by (apply owns_true; now rewrite He).
    rewrite check_passed by now apply idade_check_true.
    rewrite check_passed
      by (apply negb_true_iff; now apply (not_has _ _ (has_id_spec _ _))).
    cbn [new_aluno email matricula validated_form v_email v_matricula
         ins_email ins_matricula].
    rewrite Hfe, Hfm. reflexivity. }
  split.
  - intros Hdup. rewrite (handleSubmit_create e f d user Hf He). cbv zeta.
    rewrite Hstart.
    rewrite check_failed
      by (apply negb_false_iff; now apply has_email_spec).
    reflexivity.
  - intros Hfree Hdup. rewrite (handleSubmit_create e f d user Hf He). cbv zeta.
    rewrite Hstart.
    rewrite check_passed
      by (apply negb_true_iff; now apply (not_has _ _ (has_email_spec _ _))).
    rewrite check_failed
      by (apply negb_false_iff; now apply has_matricula_spec).
    reflexivity.
Qed.

(** ** What the form shows for the answers of the store *)

Lemma insert_aluno_error_kinds (uid : option uuid) (gen : uuid) (t : timestamptz)
    (p : aluno_insert) (d : database) (err : pg_error) :
  insert_aluno uid gen t p d = Error err ->
  int4 (ins_idade p) = true -> uid = Some (ins_criado_por p) ->
  index_row_fits (ins_email p) = true ->
  index_row_fits (ins_matricula p) = true ->
  (err = unique_violation alunos_pkey /\
   In (default (ins_id p) gen) (map aluno_id (alunos d))) \/
  In err [invalid_text_representation;
          untranslatable_character;
          check_violation tbl_alunos alunos_idade_check;
          unique_violation alunos_email_key;
          unique_violation alunos_matricula_key;
          foreign_key_violation tbl_alunos alunos_criado_por_fkey].
Proof.
  intros H Hint Ho Hfe Hfm. unfold insert_aluno in H. cbv zeta in H.
  destruct (forallb well_formed _); cbn [guard bind] in H;
    [|injection H as <-; right; cbn; auto].
  destruct (existsb has_nul _); cbn [guard bind negb] in H;
    [injection H as <-; right; cbn; auto|].
  rewrite check_passed in H by exact Hint.
  rewrite check_passed in H by now apply owns_true.
  destruct (idade_check _); cbn [guard bind] in H;
    [|injection H as <-; right; cbn; auto 10].
  destruct (has_id _ _) eqn:Hi; cbn [guard bind negb] in H.
  { injection H as <-. left. split; [reflexivity|]. now apply has_id_spec. }
  destruct (has_email _ _); cbn [guard bind negb] in H;
    [injection H as <-; right; cbn; auto 10|].
  rewrite check_passed in H by exact Hfe.
  destruct (has_matricula _ _); cbn [guard bind negb] in H;
    [injection H as <-; right; cbn; auto 10|].
  rewrite check_passed in H by exact Hfm.
  destruct (has_profile _ _); cbn [guard bind] in H; [discriminate|].
  injection H as <-. right. cbn. auto 10.
Qed.

Lemma update_aluno_error_kinds (uid : option uuid) (t : timestamptz)
    (p : aluno_update) (target : uuid) (d : database) (err : pg_error)
    (address code : text) :
  update_aluno uid t p target d = Error err ->
  int4 (default (set_idade p) 0) = true ->
  set_id p = None -> set_criado_por p = None ->
  set_email p = Some address -> index_row_fits address = true ->
  set_matricula p = Some code -> index_row_fits code = true ->
  NoDup (map aluno_id (alunos d)) ->
  In err [invalid_text_representation;
          untranslatable_character;
          check_violation tbl_alunos alunos_idade_check;
          unique_violation alunos_email_key;
          unique_violation alunos_matricula_key;
          foreign_key_violation tbl_alunos alunos_criado_por_fkey].
Proof.
  intros H Hint Hid Hown Hse Hfe Hsm Hfm Hu. unfold update_aluno in H.
  destruct (forallb well_formed _); cbn [guard bind] in H;
    [|injection H as <-; cbn; auto].
  destruct (existsb has_nul _); cbn [guard bind negb] in H;
    [injection H as <-; cbn; auto|].
  rewrite check_passed in H by exact Hint.
  destruct (locate _ (alunos d)) as [[[before OLD] after]|] eqn:Hl;
    [|discriminate].
  apply locate_some in Hl as [Hl Hf]. apply andb_true_iff in Hf as [_ Hf].
  cbv zeta in H.
  rewrite check_passed in H.
  2: { unfold Users_can_update_their_own_students in *.
       apply owns_true in Hf. apply owns_true. cbn. now rewrite Hown. }
  destruct (idade_check _); cbn [guard bind] in H;
    [|injection H as <-; cbn; auto 10].
  rewrite check_passed in H.
  2: { apply negb_true_iff, (not_has _ _ (has_id_spec _ _)).
       cbn. rewrite Hid. cbn. rewrite Hl, map_app in Hu. cbn in Hu.
       apply NoDup_remove_2 in Hu. now rewrite map_app. }
  destruct (has_email _ _); cbn [guard bind negb] in H;
    [injection H as <-; cbn; auto 10|].
  rewrite check_passed in H by (cbn; now rewrite Hse).
  destruct (has_matricula _ _); cbn [guard bind negb] in H;
    [injection H as <-; cbn; auto 10|].
  rewrite check_passed in H by (cbn; now rewrite Hsm).
  destruct (has_profile _ _); cbn [guard bind] in H; [discriminate|].
  injection H as <-. cbn. auto 10.
Qed.

(** What [handleSubmit] shows for these errors is the message the
    specification gives for them. *)
Lemma report_error_specified (aluno : option aluno) (err : pg_error) :
  In err [invalid_text_representation;
          untranslatable_character;
          check_violation tbl_alunos alunos_idade_check;
          unique_violation alunos_email_key;
          unique_violation alunos_matricula_key;
          foreign_key_violation tbl_alunos alunos_criado_por_fkey] ->
  report_error (failure_message aluno) (message err) =
  [toast_error (specified_message aluno err)].
Proof.
  intros [<-|[<-|[<-|[<-|[<-|[<-|[]]]]]]]; destruct aluno; reflexivity.
Qed.

(** The errors the store can answer to a request of [handleSubmit]: the
    request of a valid form, sent for a signed-in user to a reachable store;
    for a new student the id drawn is new. *)
Lemma handleSubmit_errors (e : env) (aluno : option aluno) (f : AlunoFormData)
    (d : database) (user : uuid) (err : pg_error) :
  reachable d ->
  first_violated_rule email_regex f = None ->
  match aluno with
  | Some a => execute e (edit_request a (validated_form f)) d = Error err
  | None =>
      execute e (create_request user (validated_form f)) d = Error err /\
      auth_uid e = Some user /\
      ~ In (gen_random_uuid e) (map aluno_id (alunos d))
  end ->
  In err [invalid_text_representation;
          untranslatable_character;
          check_violation tbl_alunos alunos_idade_check;
          unique_violation alunos_email_key;
          unique_violation alunos_matricula_key;
          foreign_key_violation tbl_alunos alunos_criado_por_fkey].
Proof.
  intros Hd Hf Hx.
  destruct (valid_form f Hf) as (_ & a & Ha & Hrange).
  destruct (valid_form_fits f Hf) as (Hfe & Hfm).
  assert (Hint : int4 (json_integer (parseInt (form_idade f))) = true)
    by (rewrite Ha; now apply int4_of_age).
  destruct aluno as [row|].
  - unfold edit_request in Hx. cbn [execute] in Hx.
    apply (update_aluno_error_kinds _ _ _ _ _ _
             (trim (form_email f)) (trim (form_matricula f))) in Hx;
      [assumption|exact Hint|reflexivity..| | | |];
      try reflexivity; try assumption.
    apply (reachable_unique d Hd).
  - destruct Hx as (Hx & He & Hfresh).
    unfold create_request in Hx. cbn [execute] in Hx.
    apply insert_aluno_error_kinds in Hx as [[_ Hx]|Hx];
      [contradiction|assumption|exact Hint|now rewrite He|exact Hfe|exact Hfm].
Qed.

(** On a reachable store [handleSubmit] always ends with a message, of an
    error or of success, but for one case: a new student whose drawn id is
    that of a stored one. *)
Theorem handleSubmit_reports :
  forall (e : env) (aluno : option aluno) (f : AlunoFormData) (d : database),
    reachable d ->
    (exists m,
       In (toast_error m)
          (fst (handleSubmit email_regex defaultErrorMap e aluno f d)) \/
       In (toast_success m)
          (fst (handleSubmit email_regex defaultErrorMap e aluno f d))) \/
    (aluno = None /\ In (gen_random_uuid e) (map aluno_id (alunos d))).
Proof.
  intros e aluno f d Hd.
  destruct (first_violated_rule email_regex f) as [r|] eqn:Hf.
  { left. rewrite (handleSubmit_invalid e aluno f d r Hf).
    eexists. left. left. reflexivity. }
  destruct (valid_form f Hf) as (Hv & _).
  destruct (auth_uid e) as [user|] eqn:He.
  2: { left. unfold handleSubmit.
       change {| in_nome := form_nome f; in_email := form_email f;
                 in_matricula := form_matricula f;
                 in_idade := parseInt (form_idade f) |} with (submitted f).
       rewrite Hv, He. eexists. left. left. reflexivity. }
  destruct aluno as [row|].
  - left. rewrite (handleSubmit_edit e row f d user Hf He). cbv zeta.
    destruct (execute e _ d) as [d'|err] eqn:Hx; cbn [fst].
    + eexists. right. right. left. reflexivity.
    + pose proof (handleSubmit_errors e (Some row) f d user err Hd Hf Hx) as Hk.
      pose proof (report_error_specified (Some row) err Hk) as Hm.
      cbn [failure_message] in Hm. rewrite Hm.
      eexists. left. right. left. reflexivity.
  - rewrite (handleSubmit_create e f d user Hf He). cbv zeta.
    destruct (execute e _ d) as [d'|err] eqn:Hx; cbn [fst].
    + left. eexists. right. right. left. reflexivity.
    + destruct (in_dec string_dec (gen_random_uuid e) (map aluno_id (alunos d)))
        as [Hin|Hfresh]; [right; now split|].
      left.
      pose proof (handleSubmit_errors e None f d user err Hd Hf
                    (conj Hx (conj He Hfresh))) as Hk.
      pose proof (report_error_specified None err Hk) as Hm.
      cbn [failure_message] in Hm. rewrite Hm.
      eexists. left. right. left. reflexivity.
Qed.

(** C6.  On a reachable store, and with a new id drawn for a new student,
    every request of [handleSubmit] that the store rejects is reported by
    one message, the one the specification gives for the error: that of the
    email or of the registration code for the violation of their unique
    constraints, and the generic message of the operation for every other
    error.  Nothing else happens and the store is as it was. *)
Theorem rejected_request_is_reported :
  forall (e : env) (aluno : option aluno) (f : AlunoFormData) (d : database)
         (q : request) (err : pg_error),
    reachable d ->
    ~ In (gen_random_uuid e) (map aluno_id (alunos d)) ->
    In (store_request q)
       (fst (handleSubmit email_regex defaultErrorMap e aluno f d)) ->
    execute e q d = Error err ->
    handleSubmit email_regex defaultErrorMap e aluno f d =
    ([store_request q; toast_error (specified_message aluno err)], d).
Proof.
  intros e aluno f d q err Hd Hfresh Hq Hx.
  destruct (first_violated_rule email_regex f) as [r|] eqn:Hf.
  { rewrite (handleSubmit_invalid e aluno f d r Hf) in Hq.
    destruct Hq as [Hq|[]]. discriminate. }
  destruct (auth_uid e) as [user|] eqn:He.
  2: { exfalso. revert Hq.
       apply (handleSubmit_unauthenticated email_regex defaultErrorMap
                e aluno f d He). }
  destruct aluno as [row|].
  - rewrite (handleSubmit_edit e row f d user Hf He) in Hq |- *.
    cbv zeta in Hq |- *.
    destruct (execute e (edit_request row (validated_form f)) d)
      as [d'|err'] eqn:Hx'; cbn [fst] in Hq.
    + destruct Hq as [Hq|[Hq|[Hq|[Hq|[]]]]]; try discriminate.
      injection Hq as <-. congruence.
    + destruct Hq as [Hq|Hq]; [|now apply report_error_no_request in Hq].
      injection Hq as <-. assert (err' = err) as -> by congruence.
      pose proof (handleSubmit_errors e (Some row) f d user err Hd Hf Hx') as Hk.
      pose proof (report_error_specified (Some row) err Hk) as Hm.
      cbn [failure_message] in Hm. now rewrite Hm.
  - rewrite (handleSubmit_create e f d user Hf He) in Hq |- *.
    cbv zeta in Hq |- *.
    destruct (execute e (create_request user (validated_form f)) d)
      as [d'|err'] eqn:Hx'; cbn [fst] in Hq.
    + destruct Hq as [Hq|[Hq|[Hq|[Hq|[]]]]]; try discriminate.
      injection Hq as <-. congruence.
    + destruct Hq as [Hq|Hq]; [|now apply report_error_no_request in Hq].
      injection Hq as <-. assert (err' = err) as -> by congruence.
      pose proof (handleSubmit_errors e None f d user err Hd Hf
                    (conj Hx' (conj He Hfresh))) as Hk.
      pose proof (report_error_specified None err Hk) as Hm.
      cbn [failure_message] in Hm. now rewrite Hm.
Qed.

(** ** The form inside the dashboard *)

(** The callbacks of a successful submission: the list is fetched again from
    the store the handler left, the dialog is closed and no student is
    selected. *)
Lemma run_callbacks_success (e : env) (d' : database) (q : request)
    (msg : string) (st : Dashboard) (dlg : FormDialog) :
  run_callbacks e d'
    [store_request q; toast_success msg; onSuccess; onOpenChange false] st dlg =
  ([store_request q; toast_success msg; store_request SelectAlunos],
   {| shown_alunos := select_alunos (auth_uid e) d';
      alunoToDelete := alunoToDelete st;
      deleteDialogOpen := deleteDialogOpen st |},
   {| formOpen := false; selectedAluno := None |}).
Proof. reflexivity. Qed.

Lemma select_after_newest (uid : option uuid) (l : list aluno) (x : aluno) :
  owns uid x = true ->
  (forall r, In r l -> created_at r < created_at x) ->
  order_by_created_at_desc (filter (owns uid) (l ++ [x])) =
  x :: order_by_created_at_desc (filter (owns uid) l).
Proof.
  intros Ho Hnew. rewrite filter_app. cbn [filter]. rewrite Ho.
  unfold order_by_created_at_desc. rewrite fold_right_app.
  cbn [fold_right insert_desc].
  apply order_newest_last. intros r Hr. apply filter_In in Hr as [Hr _]. auto.
Qed.

(** A new student created through the dashboard is the first of the list
    shown afterwards, before the students shown until then, when the clock
    of the store is past every row; the dialog is closed.  The form is
    valid, its trimmed texts are ones the store can hold, the user has a
    profile, the age is not 150, the id drawn is new and neither the email
    nor the registration code is in the table. *)
Theorem new_student_is_listed_first :
  forall (e : env) (f : AlunoFormData) (st : Dashboard) (dlg : FormDialog)
         (d : database) (user : uuid),
    first_violated_rule email_regex f = None ->
    forallb storable (v_texts (validated_form f)) = true ->
    auth_uid e = Some user ->
    In user (map profile_id (profiles d)) ->
    parseInt (form_idade f) <> Finite 150 ->
    ~ In (gen_random_uuid e) (map aluno_id (alunos d)) ->
    ~ In (trim (form_email f)) (map email (alunos d)) ->
    ~ In (trim (form_matricula f)) (map matricula (alunos d)) ->
    (forall r, In r (alunos d) -> created_at r < now e) ->
    submit_in_dashboard email_regex defaultErrorMap e f st (handleNewAluno dlg) d =
    ([store_request (create_request user (validated_form f));
      toast_success "Aluno criado com sucesso!";
      store_request SelectAlunos],
     {| shown_alunos :=
          created e user (validated_form f) :: select_alunos (Some user) d;
        alunoToDelete := alunoToDelete st;
        deleteDialogOpen := deleteDialogOpen st |},
     {| formOpen := false; selectedAluno := None |},
     with_alunos d (alunos d ++ [created e user (validated_form f)])).
Proof.
  intros e f st dlg d user Hf Ht He Hp H150 Hi Hm Hr Hclock.
  unfold submit_in_dashboard, handleNewAluno. cbn [selectedAluno].
  rewrite (create_succeeds e f d user Hf Ht He Hp H150 Hi Hm Hr).
  rewrite run_callbacks_success. rewrite He.
  unfold select_alunos, Users_can_view_their_own_students.
  cbn [alunos with_alunos]. rewrite select_after_newest.
  - reflexivity.
  - apply owns_true. reflexivity.
  - exact Hclock.
Qed.

Lemma edit_flow (e : env) (f : AlunoFormData) (st : Dashboard)
    (dlg : FormDialog) (d : database) (r : aluno) :
  reachable d ->
  In r (alunos d) ->
  auth_uid e = Some (criado_por r) ->
  first_violated_rule email_regex f = None ->
  forallb storable (v_texts (validated_form f)) = true ->
  parseInt (form_idade f) <> Finite 150 ->
  (forall x, In x (alunos d) -> x <> r -> email x <> trim (form_email f)) ->
  (forall x, In x (alunos d) -> x <> r -> matricula x <> trim (form_matricula f)) ->
  exists before after,
    alunos d = before ++ r :: after /\
    let d' := with_alunos d
                (before ++ edited r (validated_form f) (now e) :: after) in
    submit_in_dashboard email_regex defaultErrorMap e f st (handleEdit r dlg) d =
    ([store_request (edit_request r (validated_form f));
      toast_success "Aluno atualizado com sucesso!";
      store_request SelectAlunos],
     {| shown_alunos := select_alunos (auth_uid e) d';
        alunoToDelete := alunoToDelete st;
        deleteDialogOpen := deleteDialogOpen st |},
     {| formOpen := false; selectedAluno := None |},
     d').
Proof.
  intros Hd Hr He Hf Ht H150 Hmail Hmat.
  destruct (valid_form f Hf) as (_ & a & Ha & Hrange).
  destruct (valid_form_fits f Hf) as (Hfe & Hfm).
  destruct (reachable_unique d Hd) as (Hids & _ & _).
  destruct (reachable_consistent d Hd) as (_ & Hfk & _).
  destruct (update_aluno_succeeds (auth_uid e) (now e)
              {| set_id := None;
                 set_nome := Some (trim (form_nome f));
                 set_email := Some (trim (form_email f));
                 set_matricula := Some (trim (form_matricula f));
                 set_idade := Some (json_integer (parseInt (form_idade f)));
                 set_criado_por := None;
                 set_created_at := None;
                 set_updated_at := None |} d r)
    as (before & after & Hsplit & Hup).
  - exact Ht.
  - exact Hfe.
  - exact Hfm.
  - exact Hids.
  - exact Hr.
  - exact He.
  - reflexivity.
  - cbn. rewrite Ha in *. cbn. assert (a <> 150) by congruence. lia.
  - intros x Hx Hne Hid. apply Hne.
    apply (unique_injective aluno_id (alunos d)); assumption.
  - exact Hmail.
  - exact Hmat.
  - exact (Hfk r Hr).
  - exists before, after. split; [assumption|]. cbv zeta.
    unfold submit_in_dashboard, handleEdit. cbn [selectedAluno].
    rewrite (handleSubmit_edit e r f d (criado_por r) Hf He). cbv zeta.
    unfold edit_request, validated_form at 1 2 3 4. cbn [execute v_nome v_email v_matricula v_idade].
    rewrite Hup. fold (validated_form f).
    rewrite run_callbacks_success. reflexivity.
Qed.

(** Editing a shown student through the dashboard: with a valid form whose
    trimmed texts are ones the store can hold, an age other than 150 and an
    email and a registration code that no other row has, the student's row
    takes the trimmed fields and the time of the request and keeps its
    place, id, owner and creation time; the list is fetched again and the
    dialog is closed. *)
Theorem edit_flow_updates_student :
  forall (e : env) (f : AlunoFormData) (st : Dashboard) (dlg : FormDialog)
         (d : database) (r : aluno),
    reachable d ->
    In r (alunos d) ->
    auth_uid e = Some (criado_por r) ->
    first_violated_rule email_regex f = None ->
    forallb storable (v_texts (validated_form f)) = true ->
    parseInt (form_idade f) <> Finite 150 ->
    (forall x, In x (alunos d) -> x <> r -> email x <> trim (form_email f)) ->
    (forall x, In x (alunos d) -> x <> r -> matricula x <> trim (form_matricula f)) ->
    exists before after,
      alunos d = before ++ r :: after /\
      let d' := with_alunos d
                  (before ++ edited r (validated_form f) (now e) :: after) in
      submit_in_dashboard email_regex defaultErrorMap e f st (handleEdit r dlg) d =
      ([store_request (edit_request r (validated_form f));
        toast_success "Aluno atualizado com sucesso!";
        store_request SelectAlunos],
       {| shown_alunos := select_alunos (auth_uid e) d';
          alunoToDelete := alunoToDelete st;
          deleteDialogOpen := deleteDialogOpen st |},
       {| formOpen := false; selectedAluno := None |},
       d').
Proof. intros e f st dlg d r. apply edit_flow. Qed.

(** Opening the edit form on a student and submitting it as it was filled:
    when the stored fields pass the rules of the form and have no white
    space around them, the update succeeds and changes nothing of the row
    but its [updated_at]. *)
Theorem edit_unchanged_touches_only_updated_at :
  forall (e : env) (st : Dashboard) (dlg : FormDialog) (d : database) (r : aluno),
    reachable d ->
    In r (alunos d) ->
    auth_uid e = Some (criado_por r) ->
    first_violated_rule email_regex (prefill (Some r)) = None ->
    trim (nome r) = nome r ->
    trim (email r) = email r ->
    trim (matricula r) = matricula r ->
    exists before after,
      alunos d = before ++ r :: after /\
      snd (submit_in_dashboard email_regex defaultErrorMap e (prefill (Some r))
             st (handleEdit r dlg) d) =
      with_alunos d (before ++ update_updated_at_column (now e) r :: after) /\
      fst (fst (fst (submit_in_dashboard email_regex defaultErrorMap e
                       (prefill (Some r)) st (handleEdit r dlg) d))) =
      [store_request (edit_request r (validated_form (prefill (Some r))));
       toast_success "Aluno atualizado com sucesso!";
       store_request SelectAlunos].
Proof.
  intros e st dlg d r Hd Hr He Hf Hn Hm Hc.
  pose proof (reachable_consistent d Hd) as (Hage & _).
  specialize (Hage r Hr).
  destruct (reachable_unique d Hd) as (_ & Hmails & Hmats).
  assert (Hround : parseInt (form_idade (prefill (Some r))) = Finite (idade r)).
  { cbn [prefill form_idade]. apply parseInt_of_toString.
    assert (149 < 10 ^ 21) by now vm_compute. lia. }
  assert (Ht : forallb storable (v_texts (validated_form (prefill (Some r)))) = true).
  { unfold v_texts, validated_form.
    cbn [v_nome v_email v_matricula prefill form_nome form_email form_matricula].
    rewrite Hn, Hm, Hc. exact (reachable_texts_stored d Hd r Hr). }
  destruct (edit_flow e (prefill (Some r)) st dlg d r Hd Hr He Hf Ht)
    as (before & after & Hsplit & Hrun).
  - rewrite Hround. intros [= H]. lia.
  - intros x Hx Hne Heq. apply Hne. cbn [prefill form_email] in Heq.
    rewrite Hm in Heq.
    now apply (unique_injective email (alunos d)).
  - intros x Hx Hne Heq. apply Hne. cbn [prefill form_matricula] in Heq.
    rewrite Hc in Heq.
    now apply (unique_injective matricula (alunos d)).
  - exists before, after. split; [assumption|].
    cbv zeta in Hrun. rewrite Hrun. cbn [fst snd]. split; [|reflexivity].
    do 3 f_equal. unfold edited, validated_form.
    cbn [v_nome v_email v_matricula v_idade]. rewrite Hround.
    cbn [prefill form_nome form_email form_matricula json_integer].
    rewrite Hn, Hm, Hc. reflexivity.
Qed.

End Flows.

(** ** Deleting a student through the dashboard *)

(** Clicking the delete button of a student and confirming, as the owner:
    the delete is sent, exactly that row leaves the table, and the list is
    fetched again without it; the dialog is closed and nothing is marked for
    deletion any more. *)
Theorem delete_flow_removes_student :
  forall (e : env) (st : Dashboard) (d : database) (r : aluno),
    reachable d ->
    In r (alunos d) ->
    auth_uid e = Some (criado_por r) ->
    aluno_id r <> EmptyString ->
    exists d',
      handleDelete e (handleDeleteClick (aluno_id r) st) d =
      ([store_request (DeleteAluno (aluno_id r));
        toast_success "Aluno excluído com sucesso!";
        store_request SelectAlunos],
       {| shown_alunos := select_alunos (auth_uid e) d';
          alunoToDelete := None;
          deleteDialogOpen := false |},
       d') /\
      (forall x, In x (alunos d') <-> In x (alunos d) /\ x <> r) /\
      ~ In r (select_alunos (auth_uid e) d').
Proof.
  intros e st d r Hd Hr He Hid.
  destruct (reachable_unique d Hd) as (Hids & _ & _).
  eexists. split; [|split].
  - unfold handleDelete, handleDeleteClick. cbn [alunoToDelete falsy].
    destruct (String.eqb_spec (aluno_id r) EmptyString) as [|_]; [contradiction|].
    reflexivity.
  - intros x. cbn [alunos with_alunos]. rewrite filter_In. split.
    + intros [Hx Hkeep]. split; [assumption|]. intros ->.
      rewrite String.eqb_refl in Hkeep. cbn in Hkeep.
      apply negb_true_iff, owns_false in Hkeep. contradiction.
    + intros [Hx Hne]. split; [assumption|].
      apply negb_true_iff, andb_false_iff. left.
      apply String.eqb_neq. intros Heq. apply Hne.
      now apply (unique_injective aluno_id (alunos d)).
  - intros Hin. apply select_alunos_in in Hin as [Hin _].
    cbn [alunos with_alunos] in Hin. apply filter_In in Hin as [_ Hkeep].
    rewrite String.eqb_refl in Hkeep. cbn in Hkeep.
    apply negb_true_iff, owns_false in Hkeep. contradiction.
Qed.

(** ** What the schema hands on *)

(** The name, email and registration code the schema returns for a form are
    those of the form without the white space around them: they neither
    start nor end with white space and are no longer than what was typed. *)
Theorem validated_text_is_trimmed :
  forall (email_regex : text -> bool) (defaultErrorMap : ZodIssueCode -> string)
         (f : AlunoFormData) (v : validated),
    alunoSchema_parse email_regex defaultErrorMap (submitted f) = Valid v ->
    no_space_around (v_nome v) /\
    no_space_around (v_email v) /\
    no_space_around (v_matricula v) /\
    (List.length (v_nome v) <= List.length (form_nome f))%nat /\
    (List.length (v_email v) <= List.length (form_email f))%nat /\
    (List.length (v_matricula v) <= List.length (form_matricula f))%nat.
Proof.
  intros email_regex defaultErrorMap f v H.
  rewrite alunoSchema_parse_submitted in H.
  destruct (map _ _); [|discriminate]. injection H as <-.
  cbn [v_nome v_email v_matricula]. unfold no_space_around.
  pose proof (trim_clean (form_nome f)) as (? & ? & ?).
  pose proof (trim_clean (form_email f)) as (? & ? & ?).
  pose proof (trim_clean (form_matricula f)) as (? & ? & ?).
  repeat split; assumption.
Qed.

End Store.

(** * The properties at concrete inputs *)

(** The examples run on [sample_server]. *)
#[export] Existing Instance sample_server.

(** ** The claims at concrete inputs *)

Lemma one_student_reachable : reachable one_student.
Proof.
  unfold one_student, two_identities, run.
  repeat apply reachable_step. apply reachable_empty.
Defined.

Lemma two_students_reachable : reachable two_students.
Proof.
  unfold two_students, one_student, two_identities, run.
  repeat apply reachable_step. apply reachable_empty.
Defined.

Lemma ana_in_two_students : In row_of_ana (alunos two_students).
Proof. vm_compute. auto. Defined.

(** The claim on validation as first stated fails: a name of two code units,
    one of them a space, is within the stated length, and with every other
    field in order the form is refused for a name that is too short. *)
Lemma untrimmed_name_is_rejected :
  let f := form " A" "ana@x.com" "M001" "20" in
  (2 <= List.length (form_nome f) <= 100)%nat /\
  sample_email_regex (form_email f) = true /\
  (List.length (form_email f) <= 255)%nat /\
  (3 <= List.length (form_matricula f) <= 50)%nat /\
  parseInt (form_idade f) = Finite 20 /\
  alunoSchema_parse sample_email_regex sample_errorMap (submitted f) =
  ZodError (rule_issue sample_errorMap nome_min_2) [].
Proof. cbv zeta. repeat split; vm_compute; (reflexivity || lia || discriminate). Qed.

(** Nor is the age held to be an integer as written: [parseInt] reads 20 in
    a field that says 20.5, and the form is accepted. *)
Lemma fractional_age_is_accepted :
  first_violated_rule sample_email_regex (form "Ana" "ana@x.com" "M001" "20.5") = None.
Proof. reflexivity. Qed.

Lemma fetchAlunos_only_own_rows_witness :
  In row_of_ana (alunos two_students) /\
  In row_of_bia (alunos two_students) /\
  criado_por row_of_ana <> criado_por row_of_bia /\
  In row_of_ana
    (shown_alunos
       (snd (fetchAlunos (session (Some "ana") 12 "s9") empty_dashboard two_students))) /\
  ~ In row_of_bia
    (shown_alunos
       (snd (fetchAlunos (session (Some "ana") 12 "s9") empty_dashboard two_students))).
Proof.
  assert (Ha : In row_of_ana (alunos two_students)) by (vm_compute; auto).
  assert (Hb : In row_of_bia (alunos two_students)) by (vm_compute; auto).
  assert (Hab : criado_por row_of_ana <> criado_por row_of_bia) by discriminate.
  destruct (fetchAlunos_only_own_rows (session (Some "ana") 12 "s9")
              empty_dashboard two_students row_of_ana row_of_bia
              Ha Hb Hab eq_refl) as (_ & H1 & H2).
  repeat split; assumption.
Defined.

(** The claim on ownership as first stated fails for an update and for a
    delete: Bia's delete of Ana's student, and her update of it, are
    answered without an error, as statements that found no row, and
    [handleDelete] announces that the student was deleted.  Ana's student
    is in the table as before. *)
Lemma non_owner_delete_is_not_rejected :
  let e := session (Some "bia") 12 "s9" in
  let p := {| set_id := None; set_nome := Some (js "Outro"); set_email := None;
              set_matricula := None; set_idade := None; set_criado_por := None;
              set_created_at := None; set_updated_at := None |} in
  let st := {| shown_alunos := [row_of_bia]; alunoToDelete := Some "s1";
               deleteDialogOpen := true |} in
  In row_of_ana (alunos two_students) /\
  aluno_id row_of_ana = "s1" /\
  auth_uid e <> Some (criado_por row_of_ana) /\
  execute e (DeleteAluno "s1") two_students = Ok two_students /\
  execute e (UpdateAluno p "s1") two_students = Ok two_students /\
  fst (fst (handleDelete e st two_students)) =
  [store_request (DeleteAluno "s1");
   toast_success "Aluno excluído com sucesso!";
   store_request SelectAlunos].
Proof.
  cbv zeta. repeat split; try (vm_compute; reflexivity).
  - vm_compute. auto.
  - discriminate.
Qed.

Lemma not_owned_by_bia :
  forall r, In r (alunos two_students) -> aluno_id r = "s1" ->
            Some "bia" <> Some (criado_por r).
Proof.
  intros r Hr Hid. vm_compute in Hr. destruct Hr as [<-|[<-|[]]].
  - discriminate.
  - discriminate Hid.
Defined.

Lemma writes_of_non_owner_have_no_effect_witness :
  let e := session (Some "bia") 12 "s3" in
  let p := student "Ana Silva" "outra@x.com" "M003" 20 "ana" in
  let u := {| set_id := None; set_nome := Some (js "Outro"); set_email := None;
              set_matricula := None; set_idade := None; set_criado_por := None;
              set_created_at := None; set_updated_at := None |} in
  auth_uid e <> Some (ins_criado_por p) /\
  (exists err, execute e (InsertAluno p) two_students = Error err) /\
  state_after two_students (execute e (InsertAluno p) two_students) = two_students /\
  readable u = true /\
  execute e (UpdateAluno u "s1") two_students = Ok two_students /\
  execute e (DeleteAluno "s1") two_students = Ok two_students /\
  exists err,
    execute (session (Some "ana") 12 "s3")
      (UpdateAluno
         {| set_id := None; set_nome := None; set_email := None;
            set_matricula := None; set_idade := None;
            set_criado_por := Some "bia";
            set_created_at := None; set_updated_at := None |} "s1")
      two_students = Error err.
Proof.
  cbv zeta.
  assert (H : auth_uid (session (Some "bia") 12 "s3") <>
              Some (ins_criado_por (student "Ana Silva" "outra@x.com" "M003" 20 "ana")))
    by discriminate.
  assert (Hgive : auth_uid (session (Some "ana") 12 "s3") <> Some "bia")
    by discriminate.
  destruct (writes_of_non_owner_have_no_effect (session (Some "ana") 12 "s3")
              two_students) as (_ & _ & Hown & _).
  destruct (writes_of_non_owner_have_no_effect (session (Some "bia") 12 "s3")
              two_students) as (Hins & Hupd & _ & Hdel & _).
  split; [exact H|].
  split; [exact (proj1 (Hins _ H))|].
  split; [exact (proj2 (Hins _ H))|].
  split; [reflexivity|].
  split;
    [exact (proj2 (Hupd {| set_id := None; set_nome := Some (js "Outro");
                           set_email := None; set_matricula := None;
                           set_idade := None; set_criado_por := None;
                           set_created_at := None; set_updated_at := None |}
                     "s1" not_owned_by_bia) eq_refl)|].
  split; [exact (Hdel "s1" not_owned_by_bia)|].
  exact (proj2 (Hown {| set_id := None; set_nome := None; set_email := None;
                        set_matricula := None; set_idade := None;
                        set_criado_por := Some "bia";
                        set_created_at := None; set_updated_at := None |}
                  "s1" "bia" eq_refl Hgive)
           row_of_ana ana_in_two_students eq_refl eq_refl).
Defined.

Lemma alunos_email_and_matricula_unique_witness :
  reachable two_students /\
  exists err,
    execute (session (Some "bia") 12 "s3")
      (InsertAluno (student "Outra Ana" "ana@x.com" "M009" 22 "bia"))
      two_students = Error err.
Proof.
  split; [exact two_students_reachable|].
  destruct (alunos_email_and_matricula_unique two_students two_students_reachable)
    as (_ & Hinsert & _).
  apply (Hinsert _ _ row_of_ana); [vm_compute; auto | left; reflexivity].
Defined.

Lemma alunoSchema_accepts_iff_rules_witness :
  let f := form "A" "ana@x.com" "M001" "20" in
  first_violated_rule sample_email_regex f = Some nome_min_2 /\
  handleSubmit sample_email_regex sample_errorMap (session (Some "ana") 12 "s3")
    None f one_student =
  ([toast_error "Nome deve ter no mínimo 2 caracteres"], one_student).
Proof.
  cbv zeta. split; [reflexivity|].
  exact (proj2 (proj2 (alunoSchema_accepts_iff_rules sample_email_regex
                         sample_errorMap (form "A" "ana@x.com" "M001" "20")))
           nome_min_2 (session (Some "ana") 12 "s3") None one_student eq_refl).
Defined.

Lemma update_refreshes_updated_at_witness :
  let e := session (Some "ana") 20 "s9" in
  let p := {| set_id := None; set_nome := None; set_email := None;
              set_matricula := None; set_idade := Some 21; set_criado_por := None;
              set_created_at := None; set_updated_at := Some 5 |} in
  let d' := run e (UpdateAluno p "s1") one_student in
  execute e (UpdateAluno p "s1") one_student = Ok d' /\
  In row_of_ana (alunos one_student) /\
  exists before OLD after NEW,
    alunos one_student = before ++ OLD :: after /\
    alunos d' = before ++ NEW :: after /\
    aluno_id OLD = "s1" /\ auth_uid e = Some (criado_por OLD) /\
    (NoDup (map aluno_id (alunos one_student)) -> OLD = row_of_ana) /\
    updated_at NEW = 20 /\
    created_at NEW = default (set_created_at p) (created_at OLD).
Proof.
  cbv zeta.
  assert (Hin : In row_of_ana (alunos one_student)) by (vm_compute; auto).
  assert (Hx : execute (session (Some "ana") 20 "s9")
                 (UpdateAluno
                    {| set_id := None; set_nome := None; set_email := None;
                       set_matricula := None; set_idade := Some 21;
                       set_criado_por := None; set_created_at := None;
                       set_updated_at := Some 5 |} "s1") one_student =
               Ok (run (session (Some "ana") 20 "s9")
                     (UpdateAluno
                        {| set_id := None; set_nome := None; set_email := None;
                           set_matricula := None; set_idade := Some 21;
                           set_criado_por := None; set_created_at := None;
                           set_updated_at := Some 5 |} "s1") one_student))
    by (vm_compute; reflexivity).
  split; [exact Hx|]. split; [exact Hin|].
  exact (proj2 (proj1 (update_refreshes_updated_at _ one_student _) _ "s1" Hx)
           row_of_ana Hin eq_refl eq_refl).
Defined.

Lemma create_identity_provisions_profile_witness :
  let u := identity "ana" "ana@escola.br" in
  let d' := run (session None 1 EmptyString) (CreateIdentity u) empty_database in
  create_identity 1 u empty_database = Ok d' /\
  auth_users d' = [u] /\
  alunos d' = [] /\
  exists p,
    profiles d' = [p] /\
    profile_id p = "ana" /\
    profile_nome p = js "ana" /\
    profile_email p = js "ana@escola.br" /\
    profile_created_at p = 1 /\
    profile_updated_at p = 1.
Proof.
  cbv zeta.
  assert (H : create_identity 1 (identity "ana" "ana@escola.br") empty_database =
              Ok (run (session None 1 EmptyString)
                    (CreateIdentity (identity "ana" "ana@escola.br")) empty_database))
    by (vm_compute; reflexivity).
  split; [exact H|].
  destruct (proj1 (create_identity_provisions_profile 1 _ empty_database) _ H)
    as (H1 & H2 & p & Hp & _ & Hid & Hmail & Hc & Hu & Hname & _).
  split; [exact H1|]. split; [exact H2|].
  exists p. split; [exact Hp|]. split; [exact Hid|].
  split; [exact (Hname [] (JString (js "ana")) [] eq_refl (fun x => x))|].
  change (Some (js "ana@escola.br") = Some (profile_email p)) in Hmail.
  injection Hmail as Hmail.
  split; [symmetry; exact Hmail|]. split; [exact Hc | exact Hu].
Defined.

Lemma rejected_request_is_reported_witness :
  let e := session (Some "ana") 12 "s3" in
  let f := form "Ana Souza" "ana@x.com" "M002" "22" in
  let q := InsertAluno (student "Ana Souza" "ana@x.com" "M002" 22 "ana") in
  reachable one_student /\
  ~ In (gen_random_uuid e) (map aluno_id (alunos one_student)) /\
  execute e q one_student = Error (unique_violation alunos_email_key) /\
  handleSubmit sample_email_regex sample_errorMap e None f one_student =
  ([store_request q; toast_error "Este email já está cadastrado"], one_student).
Proof.
  cbv zeta.
  assert (Hfresh : ~ In (gen_random_uuid (session (Some "ana") 12 "s3"))
                     (map aluno_id (alunos one_student)))
    by (vm_compute; intros [H|[]]; discriminate H).
  assert (Hx : execute (session (Some "ana") 12 "s3")
                 (InsertAluno (student "Ana Souza" "ana@x.com" "M002" 22 "ana"))
                 one_student = Error (unique_violation alunos_email_key))
    by (vm_compute; reflexivity).
  split; [exact one_student_reachable|]. split; [exact Hfresh|].
  split; [exact Hx|].
  refine (rejected_request_is_reported sample_email_regex sample_errorMap
            _ None _ one_student _ _ one_student_reachable Hfresh _ Hx).
  vm_compute. auto.
Defined.

Lemma handleSubmit_edit_payload_witness :
  map identity_columns
    (alunos (snd (handleSubmit sample_email_regex sample_errorMap
                    (session (Some "ana") 20 "s9") (Some row_of_ana)
                    (form "Ana Souza" "ana@x.com" "M001" "21") one_student))) =
  map identity_columns (alunos one_student).
Proof.
  exact (proj2 (handleSubmit_edit_payload sample_email_regex sample_errorMap
                  (session (Some "ana") 20 "s9") row_of_ana
                  (form "Ana Souza" "ana@x.com" "M001" "21") one_student)).
Defined.

(** ** The scenario of the specification *)

(** Ana creates a student, who is then shown; a second student with the same
    email and another registration code is refused with the message of the
    email and the list is unchanged; the age is updated to 21 and the update
    time advances; the student is deleted and the list is empty. *)
Example scenario :
  let ana := session (Some "ana") in
  let created :=
    handleSubmit sample_email_regex sample_errorMap (ana 10 "s1") None
      (form "Ana Silva" "ana@x.com" "M001" "20") two_identities in
  let duplicate :=
    handleSubmit sample_email_regex sample_errorMap (ana 11 "s2") None
      (form "Ana Souza" "ana@x.com" "M002" "22") (snd created) in
  let updated :=
    handleSubmit sample_email_regex sample_errorMap (ana 12 "s3") (Some row_of_ana)
      (form "Ana Silva" "ana@x.com" "M001" "21") (snd duplicate) in
  let deleted :=
    handleDelete (ana 13 "s4")
      {| shown_alunos := select_alunos (Some "ana") (snd updated);
         alunoToDelete := Some "s1"; deleteDialogOpen := true |}
      (snd updated) in
  select_alunos (Some "ana") (snd created) = [row_of_ana] /\
  fst duplicate =
    [store_request (InsertAluno (student "Ana Souza" "ana@x.com" "M002" 22 "ana"));
     toast_error "Este email já está cadastrado"] /\
  snd duplicate = snd created /\
  map (fun r => (idade r, created_at r, updated_at r))
      (select_alunos (Some "ana") (snd updated)) = [(21, 10, 12)] /\
  shown_alunos (snd (fst deleted)) = [] /\
  alunos (snd deleted) = [].
Proof. cbv zeta. repeat split; vm_compute; reflexivity. Qed.

(** The claim as first stated fails: Ana's update of her student with a
    payload that sets [created_at] to 0 is accepted, and the row created at
    time 10 then says it was created at time 0. *)
Lemma update_can_rewrite_created_at :
  let e := session (Some "ana") 20 "s9" in
  let p := {| set_id := None; set_nome := None; set_email := None;
              set_matricula := None; set_idade := None; set_criado_por := None;
              set_created_at := Some 0; set_updated_at := Some 5 |} in
  map created_at (alunos one_student) = [10] /\
  exists d', execute e (UpdateAluno p "s1") one_student = Ok d' /\
             map created_at (alunos d') = [0] /\
             map updated_at (alunos d') = [20].
Proof.
  cbv zeta. split; [reflexivity|].
  eexists. split; [vm_compute; reflexivity|]. split; reflexivity.
Qed.

(** ** The further properties at concrete inputs *)

Lemma insert_aluno_succeeds_iff_witness :
  exists d',
    insert_aluno (Some "ana") "s3" 12
      (student "Rui Lima" "rui@x.com" "M002" 31 "ana") one_student = Ok d'.
Proof.
  apply (proj2 (insert_aluno_succeeds_iff (Some "ana") "s3" 12
                  (student "Rui Lima" "rui@x.com" "M002" 31 "ana") one_student
                  eq_refl eq_refl eq_refl eq_refl eq_refl eq_refl eq_refl
                  eq_refl)).
  cbn. lia.
Defined.

Lemma reachable_idades_in_range_witness :
  reachable two_students /\ In row_of_ana (alunos two_students) /\
  1 <= idade row_of_ana <= 149.
Proof.
  split; [exact two_students_reachable|]. split; [exact ana_in_two_students|].
  exact (reachable_idades_in_range two_students two_students_reachable
           row_of_ana ana_in_two_students).
Defined.

Lemma reachable_references_hold_witness :
  reachable two_students /\
  exists p, In p (profiles two_students) /\ profile_id p = criado_por row_of_ana.
Proof.
  split; [exact two_students_reachable|].
  exact (proj1 (reachable_references_hold two_students two_students_reachable)
           row_of_ana ana_in_two_students).
Defined.

Lemma reachable_profiles_match_identities_witness :
  reachable two_students /\
  map profile_id (profiles two_students) = map user_id (auth_users two_students).
Proof.
  split; [exact two_students_reachable|].
  exact (proj1 (reachable_profiles_match_identities two_students
                  two_students_reachable)).
Defined.

Lemma reachable_insert_profile_fails_witness :
  reachable two_students /\
  exists err,
    execute (session (Some "ana") 12 "s9")
      (InsertProfile {| pins_id := "ana"; pins_nome := js "Ana";
                        pins_email := js "outra@escola.br";
                        pins_created_at := None; pins_updated_at := None |})
      two_students = Error err.
Proof.
  split; [exact two_students_reachable|].
  exact (reachable_insert_profile_fails two_students two_students_reachable _ _).
Defined.

Lemma inserted_student_is_listed_witness :
  insert_aluno (Some "ana") "s1" 10
    (student "Ana Silva" "ana@x.com" "M001" 20 "ana") two_identities =
    Ok one_student /\
  select_alunos (Some "bia") one_student = select_alunos (Some "bia") two_identities.
Proof.
  assert (H : insert_aluno (Some "ana") "s1" 10
                (student "Ana Silva" "ana@x.com" "M001" 20 "ana") two_identities =
              Ok one_student) by (vm_compute; reflexivity).
  split; [exact H|].
  apply (proj1 (proj2 (inserted_student_is_listed _ _ _ _ _ _ H))).
  discriminate.
Defined.

Lemma anonymous_sees_and_changes_nothing_witness :
  auth_uid (session None 12 "s9") = None /\
  shown_alunos
    (snd (fetchAlunos (session None 12 "s9") empty_dashboard two_students)) = [].
Proof.
  split; [reflexivity|].
  exact (proj1 (anonymous_sees_and_changes_nothing (session None 12 "s9")
                  empty_dashboard two_students eq_refl)).
Defined.


Lemma create_identity_rejects_witness :
  exists err,
    create_identity 3
      {| user_id := "caio"; user_email := None; raw_user_meta_data := None |}
      two_identities = Error err.
Proof.
  exact (proj1 (create_identity_rejects 3
                  {| user_id := "caio"; user_email := None;
                     raw_user_meta_data := None |} two_identities) eq_refl).
Defined.

Lemma prefilled_age_reads_back_witness :
  int4 (idade row_of_ana) = true /\
  parseInt (form_idade (prefill (Some row_of_ana))) = Finite 20.
Proof.
  assert (H : int4 (idade row_of_ana) = true) by reflexivity.
  split; [exact H|]. exact (prefilled_age_reads_back row_of_ana H).
Defined.

Lemma validated_text_is_trimmed_witness :
  no_space_around (js "Ana Silva").
Proof.
  exact (proj1 (validated_text_is_trimmed sample_email_regex sample_errorMap
                  (form "  Ana Silva " "ana@x.com" "M001" "20")
                  (validated_form (form "  Ana Silva " "ana@x.com" "M001" "20"))
                  eq_refl)).
Defined.

Lemma delete_flow_removes_student_witness :
  aluno_id row_of_ana <> EmptyString /\
  exists d',
    snd (handleDelete (session (Some "ana") 13 "s9")
           (handleDeleteClick (aluno_id row_of_ana) empty_dashboard)
           two_students) = d' /\
    ~ In row_of_ana (select_alunos (Some "ana") d').
Proof.
  assert (H : aluno_id row_of_ana <> EmptyString) by discriminate.
  split; [exact H|].
  destruct (delete_flow_removes_student (session (Some "ana") 13 "s9")
              empty_dashboard two_students row_of_ana
              two_students_reachable ana_in_two_students eq_refl H)
    as (d' & Hrun & _ & Hgone).
  exists d'. split; [now rewrite Hrun | exact Hgone].
Defined.

Lemma handleSubmit_create_payload_witness :
  let e := session (Some "ana") 12 "s3" in
  let f := form " Rui Lima " "rui@x.com" "M002" "31" in
  In (store_request (InsertAluno (student "Rui Lima" "rui@x.com" "M002" 31 "ana")))
     (fst (handleSubmit sample_email_regex sample_errorMap e None f one_student)) /\
  exists user, auth_uid e = Some user.
Proof.
  cbv zeta.
  assert (H : In (store_request
                    (InsertAluno (student "Rui Lima" "rui@x.com" "M002" 31 "ana")))
                 (fst (handleSubmit sample_email_regex sample_errorMap
                         (session (Some "ana") 12 "s3") None
                         (form " Rui Lima " "rui@x.com" "M002" "31") one_student)))
    by (vm_compute; auto).
  split; [exact H|].
  destruct (handleSubmit_create_payload sample_email_regex sample_errorMap
              _ _ _ _ H) as (user & a & Hu & _).
  now exists user.
Defined.

Lemma fresh_for_one_student :
  In "ana" (map profile_id (profiles one_student)) /\
  parseInt (form_idade (form "Rui Lima" "rui@x.com" "M002" "31")) <> Finite 150 /\
  ~ In "s3" (map aluno_id (alunos one_student)) /\
  ~ In (trim (js "rui@x.com")) (map email (alunos one_student)) /\
  ~ In (trim (js "M002")) (map matricula (alunos one_student)) /\
  (forall r, In r (alunos one_student) -> created_at r < 12).
Proof.
  repeat apply conj.
  - vm_compute. auto.
  - vm_compute. discriminate.
  - vm_compute. intros [H|[]]. discriminate H.
  - vm_compute. intros [H|[]]. discriminate H.
  - vm_compute. intros [H|[]]. discriminate H.
  - intros r Hr. vm_compute in Hr. destruct Hr as [<-|[]]. reflexivity.
Defined.

Lemma handleSubmit_create_success_witness :
  snd (handleSubmit sample_email_regex sample_errorMap
         (session (Some "ana") 12 "s3") None
         (form "Rui Lima" "rui@x.com" "M002" "31") one_student) =
  with_alunos one_student
    (alunos one_student ++
     [created (session (Some "ana") 12 "s3") "ana"
        (validated_form (form "Rui Lima" "rui@x.com" "M002" "31"))]).
Proof.
  destruct fresh_for_one_student as (Hp & H150 & Hi & Hm & Hr & _).
  exact (f_equal snd
           (handleSubmit_create_success sample_email_regex sample_errorMap
              (session (Some "ana") 12 "s3")
              (form "Rui Lima" "rui@x.com" "M002" "31") one_student "ana"
              eq_refl eq_refl eq_refl Hp H150 Hi Hm Hr)).
Defined.

Lemma handleSubmit_create_conflict_witness :
  In (trim (js "ana@x.com")) (map email (alunos one_student)) /\
  handleSubmit sample_email_regex sample_errorMap
    (session (Some "ana") 12 "s3") None
    (form "Ana Souza" "ana@x.com" "M002" "22") one_student =
  ([store_request
      (create_request "ana"
         (validated_form (form "Ana Souza" "ana@x.com" "M002" "22")));
    toast_error "Este email já está cadastrado"], one_student).
Proof.
  assert (Hdup : In (trim (js "ana@x.com")) (map email (alunos one_student)))
    by (vm_compute; auto).
  assert (H150 : parseInt (form_idade (form "Ana Souza" "ana@x.com" "M002" "22"))
                 <> Finite 150) by (vm_compute; discriminate).
  assert (Hi : ~ In "s3" (map aluno_id (alunos one_student)))
    by (vm_compute; intros [H|[]]; discriminate H).
  split; [exact Hdup|].
  exact (proj1 (handleSubmit_create_conflict sample_email_regex sample_errorMap
                  (session (Some "ana") 12 "s3")
                  (form "Ana Souza" "ana@x.com" "M002" "22") one_student "ana"
                  eq_refl eq_refl eq_refl H150 Hi) Hdup).
Defined.

Lemma handleSubmit_reports_witness :
  reachable one_student /\
  ((exists m,
      In (toast_error m)
         (fst (handleSubmit sample_email_regex sample_errorMap
                 (session (Some "ana") 12 "s3") None
                 (form "Ana Souza" "ana@x.com" "M002" "22") one_student)) \/
      In (toast_success m)
         (fst (handleSubmit sample_email_regex sample_errorMap
                 (session (Some "ana") 12 "s3") None
                 (form "Ana Souza" "ana@x.com" "M002" "22") one_student))) \/
   (@None aluno = None /\ In "s3" (map aluno_id (alunos one_student)))).
Proof.
  split; [exact one_student_reachable|].
  exact (handleSubmit_reports sample_email_regex sample_errorMap
           (session (Some "ana") 12 "s3") None
           (form "Ana Souza" "ana@x.com" "M002" "22") one_student
           one_student_reachable).
Defined.

Lemma new_student_is_listed_first_witness :
  shown_alunos
    (snd (fst (fst (submit_in_dashboard sample_email_regex sample_errorMap
                      (session (Some "ana") 12 "s3")
                      (form "Rui Lima" "rui@x.com" "M002" "31")
                      empty_dashboard
                      (handleNewAluno {| formOpen := false; selectedAluno := None |})
                      one_student)))) =
  created (session (Some "ana") 12 "s3") "ana"
    (validated_form (form "Rui Lima" "rui@x.com" "M002" "31"))
  :: select_alunos (Some "ana") one_student.
Proof.
  destruct fresh_for_one_student as (Hp & H150 & Hi & Hm & Hr & Hclock).
  exact (f_equal (fun x => shown_alunos (snd (fst (fst x))))
           (new_student_is_listed_first sample_email_regex sample_errorMap
              (session (Some "ana") 12 "s3")
              (form "Rui Lima" "rui@x.com" "M002" "31") empty_dashboard
              {| formOpen := false; selectedAluno := None |} one_student "ana"
              eq_refl eq_refl eq_refl Hp H150 Hi Hm Hr Hclock)).
Defined.

Lemma others_differ_from_ana (k1 k2 : text) :
  k1 <> email row_of_bia -> k2 <> matricula row_of_bia ->
  (forall x, In x (alunos two_students) -> x <> row_of_ana -> email x <> k1) /\
  (forall x, In x (alunos two_students) -> x <> row_of_ana -> matricula x <> k2).
Proof.
  intros H1 H2. split; intros x Hx Hne; vm_compute in Hx;
    destruct Hx as [<-|[<-|[]]];
    solve [exfalso; apply Hne; reflexivity
          | intros E; apply H1; symmetry; exact E
          | intros E; apply H2; symmetry; exact E].
Defined.

Lemma edit_flow_updates_student_witness :
  exists before after, alunos two_students = before ++ row_of_ana :: after.
Proof.
  assert (H150 : parseInt (form_idade (form "Ana Souza" "ana@x.com" "M001" "21"))
                 <> Finite 150) by (vm_compute; discriminate).
  destruct (others_differ_from_ana
              (trim (form_email (form "Ana Souza" "ana@x.com" "M001" "21")))
              (trim (form_matricula (form "Ana Souza" "ana@x.com" "M001" "21"))))
    as (Hmail & Hmat);
    [vm_compute; discriminate | vm_compute; discriminate |].
  destruct (edit_flow_updates_student sample_email_regex sample_errorMap
              (session (Some "ana") 12 "s9")
              (form "Ana Souza" "ana@x.com" "M001" "21") empty_dashboard
              {| formOpen := false; selectedAluno := None |} two_students
              row_of_ana two_students_reachable ana_in_two_students
              eq_refl eq_refl eq_refl H150 Hmail Hmat)
    as (before & after & Hsplit & _).
  now exists before, after.
Defined.

Lemma edit_unchanged_touches_only_updated_at_witness :
  exists before after,
    alunos two_students = before ++ row_of_ana :: after /\
    snd (submit_in_dashboard sample_email_regex sample_errorMap
           (session (Some "ana") 12 "s9") (prefill (Some row_of_ana))
           empty_dashboard
           (handleEdit row_of_ana {| formOpen := false; selectedAluno := None |})
           two_students) =
    with_alunos two_students
      (before ++ update_updated_at_column 12 row_of_ana :: after).
Proof.
  destruct (edit_unchanged_touches_only_updated_at
              sample_email_regex sample_errorMap
              (session (Some "ana") 12 "s9") empty_dashboard
              {| formOpen := false; selectedAluno := None |} two_students
              row_of_ana two_students_reachable ana_in_two_students
              eq_refl eq_refl eq_refl eq_refl eq_refl)
    as (before & after & Hsplit & Hstore & _).
  exists before, after. now split.
Defined.
